(** * String case conversion: camelCase, dot.case and kebab-case

    A shallow embedding of [refined_prompt.js] ([numberToWords],
    [toCamelCase], [toDotCase]) and of [toKebabCase] from
    [basic_prompt.js], followed by the properties proved about them.

    JavaScript strings are sequences of UTF-16 code units; they are
    modelled as lists of code units.  Regular expressions compiled with
    the [u] flag read such a list code point by code point, the others
    code unit by code unit.  What the JavaScript runtime knows about
    characters beyond ASCII (letter and number categories, case mapping)
    and how it prints numbers beyond the exactly representable integers
    is not part of the repository: it is collected in the class [Host],
    and is only ever consulted on such inputs.  A number with a
    fractional part comes with its decimal form, and an object that
    [String] cannot convert makes the call throw. *)

From Stdlib Require Import String Ascii DecimalString.
From Stdlib Require Import NArith ZArith Bool Lia List.
Import ListNotations.

Set Implicit Arguments.

(** ** Strings *)

Definition jsstring := list N.

(** The code units of an ASCII literal. *)
Definition str (s : string) : jsstring :=
  map N_of_ascii (list_ascii_of_string s).

Arguments str s%_string.

Definition isEmpty (s : jsstring) : bool :=
  match s with [] => true | _ => false end.

(** [Boolean(s)] for a string: true unless empty. *)
Definition truthy (s : jsstring) : bool := negb (isEmpty s).

Definition jsstring_eqb (a b : jsstring) : bool :=
  if list_eq_dec N.eq_dec a b then true else false.

(** ** Character classes *)

Local Open Scope N_scope.

Definition isAscii (c : N) : bool := c <? 128.
Definition isUpperAZ (c : N) : bool := (65 <=? c) && (c <=? 90).
Definition isLowerAZ (c : N) : bool := (97 <=? c) && (c <=? 122).
Definition isDigit (c : N) : bool := (48 <=? c) && (c <=? 57).
Definition isDot (c : N) : bool := c =? 46.
Definition asciiLower (c : N) : N := if isUpperAZ c then c + 32 else c.
Definition asciiUpper (c : N) : N := if isLowerAZ c then c - 32 else c.

(** The regular expression class [\s], which is also the set that
    [String.prototype.trim] strips: white space and line terminators. *)
Definition isWhiteSpace (c : N) : bool :=
  ((9 <=? c) && (c <=? 13)) || (c =? 32) || (c =? 160) || (c =? 0x1680)
  || ((0x2000 <=? c) && (c <=? 0x200A)) || (c =? 0x2028) || (c =? 0x2029)
  || (c =? 0x202F) || (c =? 0x205F) || (c =? 0x3000) || (c =? 0xFEFF).

Definition SPACE : N := 32.
Definition DOT : N := 46.
Definition HYPHEN : N := 45.

(** ** The runtime beyond ASCII *)

Class Host := {
  (** [\p{L}] on a code point above U+007F *)
  uniLetter : N -> bool;
  (** [\p{N}] on a code point above U+007F *)
  uniNumber : N -> bool;
  (** [toLowerCase] on a string with a code unit above U+007F *)
  uniLower : jsstring -> jsstring;
  (** [toUpperCase] on a string with a code unit above U+007F *)
  uniUpper : jsstring -> jsstring;
  (** [String(x)] for the number [x] that stands for an integer of
      magnitude 2^53 or more *)
  bigNumberString : Z -> jsstring
}.

(** A host without letters beyond ASCII, to run the functions on ASCII
    inputs. *)
Definition plainHost : Host := {|
  uniLetter := fun _ => false;
  uniNumber := fun _ => false;
  uniLower := fun s => s;
  uniUpper := fun s => s;
  bigNumberString := fun z => str (NilZero.string_of_int (Z.to_int z))
|}.

(** ** Values *)

(** Numbers: the three non-finite ones, the integers, and the finite
    numbers with a fractional part.  [Int z] with [|z| >= 2^53] stands
    for the double nearest to [z].  [Frac floor shown] is a number that
    is not an integer, such as [-1.5]: [floor] is its integer part
    ([Math.floor] of it, [-2]) and [shown] what [String] makes of it
    (["-1.5"]).  Comparing such a number with an integer [k] compares
    its integer part: it is [>= k] exactly when [floor >= k], and
    [< k] exactly when [floor < k]. *)
Inductive JSNumber :=
| NaN
| PosInfinity
| NegInfinity
| Int (z : Z)
| Frac (floor : Z) (shown : jsstring).

(** [JSObject shown] is any value of another type (object, array,
    symbol, ...), carrying what [String] makes of it.  [toCamelCase],
    [toDotCase] and [toKebabCase] look at the type of such a value only,
    never at [shown]. *)
Inductive JSValue :=
| JSNull
| JSUndefined
| JSBoolean (b : bool)
| JSNum (n : JSNumber)
| JSStr (s : jsstring)
| JSObject (shown : jsstring).

(** [numberToWords] prints its argument.  What it is given is a value
    that [String] converts, or an object that [String] cannot convert
    to a primitive value, such as [Object.create(null)], which has
    neither [toString] nor [valueOf]: [String] throws a [TypeError] on
    it.  The [typeof] of such an object is ['object']. *)
Inductive Argument :=
| Printable (v : JSValue)
| Unprintable.

(** How a call ends: with a string, or with an exception. *)
Inductive Completion :=
| Returns (s : jsstring)
| Throws.

Section Runtime.
Context {host : Host}.

Definition isLetter (cp : N) : bool :=
  if isAscii cp then isUpperAZ cp || isLowerAZ cp else uniLetter cp.

Definition isNumberChar (cp : N) : bool :=
  if isAscii cp then isDigit cp else uniNumber cp.

Definition toLowerCase (s : jsstring) : jsstring :=
  if forallb isAscii s then map asciiLower s else uniLower s.

Definition toUpperCase (s : jsstring) : jsstring :=
  if forallb isAscii s then map asciiUpper s else uniUpper s.

Definition numberString (n : JSNumber) : jsstring :=
  match n with
  | NaN => str "NaN"
  | PosInfinity => str "Infinity"
  | NegInfinity => str "-Infinity"
  | Int z =>
      if (Z.abs z <? 2 ^ 53)%Z
      then str (NilZero.string_of_int (Z.to_int z))
      else bigNumberString z
  | Frac _ shown => shown
  end.

(** [String(v)] *)
Definition String_ (v : JSValue) : jsstring :=
  match v with
  | JSNull => str "null"
  | JSUndefined => str "undefined"
  | JSBoolean true => str "true"
  | JSBoolean false => str "false"
  | JSNum n => numberString n
  | JSStr s => s
  | JSObject shown => shown
  end.

End Runtime.

(** ** Array and string primitives *)

(** [Array.prototype.join] *)
Fixpoint join (sep : jsstring) (parts : list jsstring) : jsstring :=
  match parts with
  | [] => []
  | [p] => p
  | p :: rest => p ++ sep ++ join sep rest
  end.

(** [a[i]], with the empty string where JavaScript has [undefined]
    (which is how [join] prints it). *)
Definition at_ (a : list jsstring) (i : Z) : jsstring :=
  if (i <? 0)%Z then [] else nth (Z.to_nat i) a [].

Fixpoint trimStart (s : jsstring) : jsstring :=
  match s with
  | [] => []
  | c :: r => if isWhiteSpace c then trimStart r else s
  end.

Definition trimEnd (s : jsstring) : jsstring := rev (trimStart (rev s)).

(** [String.prototype.trim] *)
Definition trim (s : jsstring) : jsstring := trimEnd (trimStart s).

(** ** [numberToWords] *)

Local Open Scope Z_scope.

Definition MAX : Z := 1000000000000.

Definition belowTwenty : list jsstring :=
  map str ["zero"; "one"; "two"; "three"; "four"; "five"; "six"; "seven";
           "eight"; "nine"; "ten"; "eleven"; "twelve"; "thirteen";
           "fourteen"; "fifteen"; "sixteen"; "seventeen"; "eighteen";
           "nineteen"]%string.

Definition tens : list jsstring :=
  map str [""; ""; "twenty"; "thirty"; "forty"; "fifty"; "sixty";
           "seventy"; "eighty"; "ninety"]%string.

Record Scale := { value : Z; name : jsstring }.

Definition scales : list Scale :=
  [ {| value := 1000000000; name := str "billion" |};
    {| value := 1000000; name := str "million" |};
    {| value := 1000; name := str "thousand" |} ].

Definition underThousand (n : Z) : jsstring :=
  let parts : list jsstring := [] in
  let '(parts, n) :=
    if 100 <=? n
    then (parts ++ [at_ belowTwenty (n / 100)] ++ [str "hundred"], n mod 100)
    else (parts, n) in
  let parts :=
    if 20 <=? n then
      let parts := parts ++ [at_ tens (n / 10)] in
      if n mod 10 =? 0 then parts else parts ++ [at_ belowTwenty (n mod 10)]
    else if (0 <? n) || (Nat.eqb (length parts) 0) then
      parts ++ [at_ belowTwenty n]
    else parts in
  join (str " ") parts.

(** [underThousand] on a number [0 < n < 1000] with a fractional part,
    given by its integer part: [Math.floor(n / 100)], [Math.floor(n / 10)],
    [n >= 100] and [n >= 20] are those of the integer part, and [n % 100]
    keeps the fractional part; [n % 10] is not zero and [n > 0] holds;
    [belowTwenty[n % 10]] and [belowTwenty[n]] are [undefined], which
    [join] prints as the empty string. *)
Definition underThousandFrac (n : Z) : jsstring :=
  let parts : list jsstring := [] in
  let '(parts, n) :=
    if 100 <=? n
    then (parts ++ [at_ belowTwenty (n / 100)] ++ [str "hundred"], n mod 100)
    else (parts, n) in
  let parts :=
    if 20 <=? n then
      let parts := parts ++ [at_ tens (n / 10)] in
      parts ++ [[]]
    else parts ++ [[]] in
  join (str " ") parts.

(** One turn of the loop over [scales]: the state is [(num, out)]. *)
Definition scaleStep (st : Z * list jsstring) (s : Scale)
  : Z * list jsstring :=
  let '(num, out) := st in
  if value s <=? num
  then (num mod value s, out ++ [underThousand (num / value s); name s])
  else (num, out).

Section NumberToWords.
Context {host : Host}.

Definition numberToWords (num : JSValue) : jsstring :=
  match num with
  | JSNum (Int z) =>
      if z <? 0 then String_ num
      else if MAX <=? z then String_ num
      else if z =? 0 then str "zero"
      else
        let '(rest, out) := fold_left scaleStep scales (z, []) in
        let out := if 0 <? rest then out ++ [underThousand rest] else out in
        join (str " ") out
  | JSNum (Frac floor _) =>
      (* not an integer: the loop runs on the integer part, every chunk
         [Math.floor(num / s.value)] is an integer, and what is left,
         [num % s.value], keeps the fractional part, so that
         [num === 0] fails and [num > 0] holds *)
      if floor <? 0 then String_ num
      else if MAX <=? floor then String_ num
      else
        let '(rest, out) := fold_left scaleStep scales (floor, []) in
        let out := out ++ [underThousandFrac rest] in
        join (str " ") out
  | _ => String_ num
  end.

End NumberToWords.

(** [numberToWords] on any argument.  On an object that [String] cannot
    convert, [typeof num !== 'number'] holds and the first line,
    [return String(num)], throws; on every other argument nothing
    throws. *)
Module Any.
Section Any.
Context {host : Host}.

(** [String(a)] *)
Definition String_ (a : Argument) : Completion :=
  match a with
  | Printable v => Returns (String_ v)
  | Unprintable => Throws
  end.

Definition numberToWords (num : Argument) : Completion :=
  match num with
  | Printable v => Returns (numberToWords v)
  | Unprintable => String_ num
  end.

End Any.
End Any.

(** ** Regular expressions *)

Local Open Scope N_scope.

Definition isHighSurrogate (c : N) : bool := (0xD800 <=? c) && (c <=? 0xDBFF).
Definition isLowSurrogate (c : N) : bool := (0xDC00 <=? c) && (c <=? 0xDFFF).
Definition pairCodePoint (hi lo : N) : N :=
  0x10000 + (hi - 0xD800) * 0x400 + (lo - 0xDC00).

(** A character as a regular expression reads it: its code point and the
    code units that spell it. *)
Definition rchar : Type := N * jsstring.

(** With the [u] flag a surrogate pair is one character. *)
Fixpoint codePoints (s : jsstring) : list rchar :=
  match s with
  | [] => []
  | h :: t =>
      match t with
      | l :: t' =>
          if isHighSurrogate h && isLowSurrogate l
          then (pairCodePoint h l, [h; l]) :: codePoints t'
          else (h, [h]) :: codePoints t
      | [] => [(h, [h])]
      end
  end.

(** Without it every code unit is one. *)
Definition codeUnits (s : jsstring) : list rchar :=
  map (fun c => (c, [c])) s.

(** [replace(/[cls]+/g, rep)]: every maximal run of characters of the
    class becomes [rep]. *)
Fixpoint replaceRuns (cls : N -> bool) (rep : jsstring) (inRun : bool)
  (cs : list rchar) : jsstring :=
  match cs with
  | [] => []
  | (cp, us) :: r =>
      if cls cp
      then (if inRun then [] else rep) ++ replaceRuns cls rep true r
      else us ++ replaceRuns cls rep false r
  end.

(** [replace(/[cls]/g, rep)]: every character of the class becomes [rep]. *)
Fixpoint replaceEach (cls : N -> bool) (rep : jsstring) (cs : list rchar)
  : jsstring :=
  match cs with
  | [] => []
  | (cp, us) :: r => (if cls cp then rep else us) ++ replaceEach cls rep r
  end.

Definition consHead (c : N) (pieces : list jsstring) : list jsstring :=
  match pieces with
  | w :: ws => (c :: w) :: ws
  | [] => [[c]]
  end.

(** [split(/[sep]+/)]: the pieces between the maximal runs of separators,
    the empty ones at both ends included. *)
Fixpoint splitRuns (sep : N -> bool) (inSep : bool) (s : jsstring)
  : list jsstring :=
  match s with
  | [] => [[]]
  | c :: r =>
      if sep c
      then (if inSep then splitRuns sep true r else [] :: splitRuns sep true r)
      else consHead c (splitRuns sep false r)
  end.

(** [split(/\s+/)] *)
Definition splitWhiteSpace (s : jsstring) : list jsstring :=
  splitRuns isWhiteSpace false s.

(** [split(/(\d+)/)]: text and digit runs in turn, starting and ending
    with a (possibly empty) text piece.  [inDigits] tells which kind of
    piece is being read. *)
Fixpoint splitDigitsFrom (inDigits : bool) (s : jsstring) : list jsstring :=
  match s with
  | [] => if inDigits then [[]; []] else [[]]
  | c :: r =>
      if isDigit c
      then (if inDigits then consHead c (splitDigitsFrom true r)
            else [] :: consHead c (splitDigitsFrom true r))
      else (if inDigits then [] :: consHead c (splitDigitsFrom false r)
            else consHead c (splitDigitsFrom false r))
  end.

Definition splitDigits (s : jsstring) : list jsstring :=
  splitDigitsFrom false s.

(** [/^\d+$/.test(part)] *)
Definition digitsOnly (part : jsstring) : bool :=
  truthy part && forallb isDigit part.

(** [parseInt(part, 10)] on a run of digits. *)
Definition parseInt10 (part : jsstring) : JSValue :=
  JSNum (Int (fold_left (fun acc d => 10 * acc + Z.of_N (d - 48))%Z part 0%Z)).

(** [replace(/\./g, '')] *)
Definition removeDots (s : jsstring) : jsstring :=
  replaceEach isDot [] (codeUnits s).

(** [replace(/\./g, ' ')] *)
Definition dotsToSpaces (s : jsstring) : jsstring :=
  replaceEach isDot [SPACE] (codeUnits s).

(** [/^[A-Z]{2,}(\.[A-Z]{2,})*$/]; [k] counts the letters read in the
    current group. *)
Fixpoint acronymFrom (k : nat) (s : jsstring) : bool :=
  match s with
  | [] => (2 <=? k)%nat
  | c :: r =>
      if isUpperAZ c then acronymFrom (S k) r
      else if isDot c then (2 <=? k)%nat && acronymFrom 0 r
      else false
  end.

(** [charAt(0)] and [slice(1)] *)
Definition charAt0 (s : jsstring) : jsstring :=
  match s with [] => [] | c :: _ => [c] end.
Definition slice1 (s : jsstring) : jsstring := tl s.

Inductive UnitType := word | acronym.

Record WordUnit := { type : UnitType; text : jsstring }.

(** ** [toCamelCase] *)

Module Camel.
Section Camel.
Context {host : Host}.

(** [replace(/[^\p{L}\p{N}.\s]+/gu, ' ')] *)
Definition cleaned (trimmed : jsstring) : jsstring :=
  replaceRuns
    (fun cp => negb (isLetter cp || isNumberChar cp || isDot cp || isWhiteSpace cp))
    [SPACE] false (codePoints trimmed).

Definition rawTokens (trimmed : jsstring) : list jsstring :=
  filter truthy (splitWhiteSpace (cleaned trimmed)).

(** [replace(/[^\p{L}]+/gu, '')] *)
Definition onlyLetters (p : jsstring) : jsstring :=
  replaceRuns (fun cp => negb (isLetter cp)) [] false (codePoints p).

Definition pushWordChunk (units : list WordUnit) (chunk : jsstring)
  : list WordUnit :=
  if negb (truthy chunk) then units
  else
    let cleanedChunk := removeDots chunk in
    if Nat.eqb (length cleanedChunk) 0 then units
    else units ++ [{| type := word; text := toLowerCase cleanedChunk |}].

Definition acronymRegex (token : jsstring) : bool := acronymFrom 0 token.

(** [/^(?:[A-Z]\.){2,}[A-Z]?$/]; [k] counts the letter-dot pairs read. *)
Fixpoint dottedFrom (k : nat) (s : jsstring) : bool :=
  match s with
  | [] => (2 <=? k)%nat
  | c :: t =>
      match t with
      | [] => (2 <=? k)%nat && isUpperAZ c
      | d :: r => isUpperAZ c && isDot d && dottedFrom (S k) r
      end
  end.

Definition dottedAcronymRegex (token : jsstring) : bool := dottedFrom 0 token.

(** The body of the inner loop, for one part of a token. *)
Definition pushPart (units : list WordUnit) (part : jsstring)
  : list WordUnit :=
  if digitsOnly part then
    let n := parseInt10 part in
    let words := numberToWords n in
    fold_left
      (fun units w =>
         if truthy w
         then units ++ [{| type := word; text := toLowerCase w |}]
         else units)
      (splitWhiteSpace words) units
  else
    let cleanedPart := dotsToSpaces part in
    fold_left
      (fun units p =>
         if negb (truthy p) then units
         else
           let onlyLetters := onlyLetters p in
           if truthy onlyLetters then pushWordChunk units onlyLetters
           else units)
      (splitWhiteSpace cleanedPart) units.

(** The body of the outer loop, for one token. *)
Definition pushToken (units : list WordUnit) (token : jsstring)
  : list WordUnit :=
  if acronymRegex token || dottedAcronymRegex token then
    let acronym_ := removeDots token in
    units ++ [{| type := acronym; text := acronym_ |}]
  else
    let parts := filter truthy (splitDigits token) in
    fold_left pushPart parts units.

Definition collect (rawTokens : list jsstring) : list WordUnit :=
  fold_left pushToken rawTokens [].

(** What the rendering loop appends for the unit at index [i]. *)
Definition piece (i : nat) (u : WordUnit) : jsstring :=
  if Nat.eqb i 0 then
    match type u with
    | acronym => text u
    | word => toLowerCase (text u)
    end
  else
    match type u with
    | acronym => text u
    | word => toUpperCase (charAt0 (text u)) ++ toLowerCase (slice1 (text u))
    end.

Fixpoint render (i : nat) (units : list WordUnit) (result : jsstring)
  : jsstring :=
  match units with
  | [] => result
  | u :: rest => render (S i) rest (result ++ piece i u)
  end.

Definition toCamelCase (input : JSValue) : jsstring :=
  match input with
  | JSNull | JSUndefined =>
      str "Invalid input: value is null or undefined; expected a non-empty string."
  | JSStr input =>
      let trimmed := trim input in
      if Nat.eqb (length trimmed) 0 then
        str "Invalid input: empty or whitespace-only string."
      else
        let rawTokens := rawTokens trimmed in
        if Nat.eqb (length rawTokens) 0 then
          str "Invalid input: no usable words found after cleaning."
        else
          let units := collect rawTokens in
          if Nat.eqb (length units) 0 then
            str "Invalid input: no word tokens produced after processing."
          else render 0 units []
  | _ => str "Invalid input: expected a string."
  end.

End Camel.
End Camel.

(** ** [toDotCase] *)

Module Dot.
Section Dot.
Context {host : Host}.

Definition cleaned (trimmed : jsstring) : jsstring :=
  replaceRuns
    (fun cp => negb (isLetter cp || isNumberChar cp || isDot cp || isWhiteSpace cp))
    [SPACE] false (codePoints trimmed).

Definition rawTokens (trimmed : jsstring) : list jsstring :=
  filter truthy (splitWhiteSpace (cleaned trimmed)).

Definition onlyLetters (p : jsstring) : jsstring :=
  replaceRuns (fun cp => negb (isLetter cp)) [] false (codePoints p).

Definition acronymRegex (token : jsstring) : bool := acronymFrom 0 token.

(** [/^(?:[A-Z]\.){2,}[A-Z]?\.?$/]; [k] counts the letter-dot pairs read. *)
Fixpoint dottedFrom (k : nat) (s : jsstring) : bool :=
  match s with
  | [] => (2 <=? k)%nat
  | c :: t =>
      match t with
      | [] => (2 <=? k)%nat && (isUpperAZ c || isDot c)
      | d :: r => isUpperAZ c && isDot d && dottedFrom (S k) r
      end
  end.

Definition dottedAcronymRegex (token : jsstring) : bool := dottedFrom 0 token.

(** Declared by [toDotCase] but never called. *)
Definition pushWordChunk (words : list jsstring) (chunk : jsstring)
  : list jsstring :=
  if negb (truthy chunk) then words
  else
    let c := removeDots chunk in
    let onlyLetters := onlyLetters c in
    if truthy onlyLetters then words ++ [toLowerCase onlyLetters] else words.

Definition pushPart (words : list jsstring) (part : jsstring)
  : list jsstring :=
  if digitsOnly part then
    let n := parseInt10 part in
    let spelled := numberToWords n in
    fold_left
      (fun words w => if truthy w then words ++ [toLowerCase w] else words)
      (splitWhiteSpace spelled) words
  else
    let replaced := dotsToSpaces part in
    fold_left
      (fun words p =>
         if negb (truthy p) then words
         else
           let onlyLetters := onlyLetters p in
           if truthy onlyLetters then words ++ [toLowerCase onlyLetters]
           else words)
      (splitWhiteSpace replaced) words.

Definition pushToken (words : list jsstring) (token : jsstring)
  : list jsstring :=
  if acronymRegex token || dottedAcronymRegex token then
    words ++ [removeDots token]
  else
    let parts := filter truthy (splitDigits token) in
    fold_left pushPart parts words.

Definition collect (rawTokens : list jsstring) : list jsstring :=
  fold_left pushToken rawTokens [].

Definition toDotCase (input : JSValue) : jsstring :=
  match input with
  | JSNull | JSUndefined =>
      str "Invalid input: value is null or undefined; expected a non-empty string."
  | JSStr input =>
      let trimmed := trim input in
      if Nat.eqb (length trimmed) 0 then
        str "Invalid input: empty or whitespace-only string."
      else
        let rawTokens := rawTokens trimmed in
        if Nat.eqb (length rawTokens) 0 then
          str "Invalid input: no usable words found after cleaning."
        else
          let words := collect rawTokens in
          if Nat.eqb (length words) 0 then
            str "Invalid input: no word tokens produced after processing."
          else join [DOT] words
  | _ => str "Invalid input: expected a string."
  end.

End Dot.
End Dot.

(** ** [toKebabCase] *)

Section Kebab.
Context {host : Host}.

(** The class [[^a-z0-9\s]] *)
Definition notKebabChar (c : N) : bool :=
  negb (isLowerAZ c || isDigit c || isWhiteSpace c).

Definition toKebabCase (input : JSValue) : jsstring :=
  match input with
  | JSStr input =>
      if jsstring_eqb input [] then []
      else
        let result := trim input in
        let result := toLowerCase result in
        let result := replaceEach notKebabChar [SPACE] (codeUnits result) in
        let result := replaceRuns isWhiteSpace [HYPHEN] false (codeUnits result) in
        result
  | _ => str "Input must be a valid string."
  end.

End Kebab.

(** ** The error messages *)

Definition ERR_NULL : jsstring :=
  str "Invalid input: value is null or undefined; expected a non-empty string.".
Definition ERR_TYPE : jsstring := str "Invalid input: expected a string.".
Definition ERR_EMPTY : jsstring :=
  str "Invalid input: empty or whitespace-only string.".
Definition ERR_NO_TOKENS : jsstring :=
  str "Invalid input: no usable words found after cleaning.".
Definition ERR_NO_UNITS : jsstring :=
  str "Invalid input: no word tokens produced after processing.".
Definition ERR_KEBAB : jsstring := str "Input must be a valid string.".

(** [typeof v === 'string'], and [v] being [null] or [undefined]. *)
Definition isString (v : JSValue) : bool :=
  match v with JSStr _ => true | _ => false end.
Definition isNullish (v : JSValue) : bool :=
  match v with JSNull | JSUndefined => true | _ => false end.

(** ** Vocabulary of the properties *)

(** *** Inputs of [numberToWords] *)

(** The inputs that fall back to [String]: all but the finite numbers
    [>= 0], and the numbers [>= MAX]. *)
Definition finiteNonNegative (v : JSValue) : Prop :=
  (exists z, v = JSNum (Int z) /\ (0 <= z)%Z)
  \/ (exists floor shown, v = JSNum (Frac floor shown) /\ (0 <= floor)%Z).

Definition atLeastMAX (v : JSValue) : Prop :=
  v = JSNum PosInfinity
  \/ (exists z, v = JSNum (Int z) /\ (MAX <= z)%Z)
  \/ (exists floor shown, v = JSNum (Frac floor shown) /\ (MAX <= floor)%Z).

(** The same of an argument: what [String] cannot convert is no number. *)
Definition isValue (P : JSValue -> Prop) (a : Argument) : Prop :=
  exists v, a = Printable v /\ P v.

(** *** Acronym shapes *)

(** The two acronym shapes, in the words of the specification. *)

Definition isUpperLetter (c : N) : Prop := isUpperAZ c = true.

(** At least two upper-case letters. *)
Definition upperGroup (g : jsstring) : Prop :=
  (2 <= length g)%nat /\ Forall isUpperLetter g.

(** (a) a group of two or more upper-case letters, optionally chained
    with further such groups, each after a dot: [OECD], [NATO.GOV]. *)
Definition chainedShape (t : jsstring) : Prop :=
  exists g gs, upperGroup g /\ Forall upperGroup gs
    /\ t = g ++ flat_map (fun h => DOT :: h) gs.

(** (b) an upper-case letter and a dot, at least twice, then possibly
    one more bare letter: [U.S.], [U.S.A.], [U.S.A]. *)
Definition initialsShape (t : jsstring) : Prop :=
  exists us last,
    (2 <= length us)%nat /\ Forall isUpperLetter us
    /\ (last = [] \/ exists c, isUpperLetter c /\ last = [c])
    /\ t = flat_map (fun u => [u; DOT]) us ++ last.

(** *** Words *)

Section Lowercased.
Context {host : Host}.

(** A string that [toLowerCase] returned. *)
Definition lowercased (w : jsstring) : Prop := exists x, w = toLowerCase x.

End Lowercased.

(** [String.prototype.split] with a separator of one code unit. *)
Fixpoint splitOn (d : N) (s : jsstring) : list jsstring :=
  match s with
  | [] => [[]]
  | c :: r => if (c =? d)%N then [] :: splitOn d r else consHead c (splitOn d r)
  end.

Definition wordUnit (w : jsstring) : WordUnit := {| type := word; text := w |}.

(** First letter in upper case. *)
Definition capitalize (w : jsstring) : jsstring :=
  match w with
  | [] => []
  | c :: r => asciiUpper c :: r
  end.

(** The first word as it is, the later ones capitalized, no separator. *)
Definition camelJoin (words : list jsstring) : jsstring :=
  match words with
  | [] => []
  | w :: ws => w ++ concat (map capitalize ws)
  end.

(** An ASCII character that is not a digit. *)
Definition plainChar (c : N) : Prop := isAscii c = true /\ isDigit c = false.

Definition asciiLetter (c : N) : bool := isUpperAZ c || isLowerAZ c.

(** A non-empty string of lower-case ASCII letters. *)
Definition lowerWord (w : jsstring) : Prop :=
  w <> [] /\ Forall (fun c => isLowerAZ c = true) w.

(** *** Kebab-case strings *)

(** Lower-case letters, digits and hyphens, no two hyphens in a row;
    [afterHyphen] tells whether a hyphen comes just before. *)
Fixpoint kebabShaped (afterHyphen : bool) (o : jsstring) : bool :=
  match o with
  | [] => true
  | c :: r =>
      if (c =? HYPHEN)%N then negb afterHyphen && kebabShaped true r
      else (isLowerAZ c || isDigit c) && kebabShaped false r
  end.

(** ** Vocabulary of the further properties *)

(** *** Phrases of [numberToWords] *)

(** What one scale contributes: nothing for a zero chunk. *)
Definition chunkWords (chunk : Z) (scaleName : jsstring) : list jsstring :=
  if (0 <? chunk)%Z then [underThousand chunk; scaleName] else [].

(** Non-empty lower-case words joined by single spaces. *)
Definition phrase (s : jsstring) : Prop :=
  exists ws, ws <> [] /\ Forall lowerWord ws /\ s = join [SPACE] ws.

Definition isLowerWord (w : jsstring) : bool :=
  truthy w && forallb isLowerAZ w.

Definition isPhrase (s : jsstring) : bool :=
  forallb isLowerWord (splitOn SPACE s).

(** *** Reading a phrase back

    Not in the source: the inverse of [numberToWords], used to show
    that different numbers are spelled differently. *)

Fixpoint indexIn (w : jsstring) (table : list jsstring) (i : Z) : option Z :=
  match table with
  | [] => None
  | x :: rest => if jsstring_eqb w x then Some i else indexIn w rest (i + 1)%Z
  end.

Definition scaleValue (w : jsstring) : option Z :=
  match find (fun s => jsstring_eqb w (name s)) scales with
  | Some s => Some (value s)
  | None => None
  end.

(** Within a chunk: [hundred] multiplies, every other word adds. *)
Definition readWord (cur : Z) (w : jsstring) : Z :=
  if jsstring_eqb w (str "hundred") then (cur * 100)%Z
  else match indexIn w belowTwenty 0 with
       | Some i => (cur + i)%Z
       | None =>
           match indexIn w tens 0 with
           | Some i => (cur + 10 * i)%Z
           | None => cur
           end
       end.

(** The state is (total of the chunks closed so far, current chunk). *)
Definition readStep (st : Z * Z) (w : jsstring) : Z * Z :=
  let '(total, cur) := st in
  match scaleValue w with
  | Some v => ((total + cur * v)%Z, 0%Z)
  | None => (total, readWord cur w)
  end.

Definition readNumber (s : jsstring) : Z :=
  let '(total, cur) := fold_left readStep (splitOn SPACE s) (0%Z, 0%Z) in
  (total + cur)%Z.

Definition isChunkPhrase (k : nat) : bool :=
  let ws := splitOn SPACE (underThousand (Z.of_nat k)) in
  forallb (fun w => match scaleValue w with None => true | Some _ => false end) ws
  && (fold_left readWord ws 0 =? Z.of_nat k)%Z.

(** *** White space *)

Definition allWhiteSpace (w : jsstring) : Prop :=
  Forall (fun c => isWhiteSpace c = true) w.

(** *** Characters that are no letter and no digit *)

(** An ASCII character that is neither a letter nor a digit. *)
Definition symbolChar (c : N) : Prop :=
  isAscii c = true /\ asciiLetter c = false /\ isDigit c = false.

(** *** Well-formed units *)

(** The integer that [parseInt10] reads. *)
Definition digitsValue (part : jsstring) : Z :=
  fold_left (fun acc d => 10 * acc + Z.of_N (d - 48))%Z part 0%Z.

(** Every run of digits of the token is a number below [MAX]. *)
Definition smallNumbers (token : jsstring) : Prop :=
  Forall (fun part => digitsOnly part = true -> (digitsValue part < MAX)%Z)
    (splitDigits token).

(** A non-empty string of upper-case ASCII letters. *)
Definition upperWord (w : jsstring) : Prop :=
  w <> [] /\ Forall isUpperLetter w.

(** A non-empty string of ASCII letters. *)
Definition letterWord (w : jsstring) : Prop :=
  w <> [] /\ Forall (fun c => asciiLetter c = true) w.

(** A word unit in lower case, an acronym unit in upper case. *)
Definition wellFormedUnit (u : WordUnit) : Prop :=
  match type u with
  | word => lowerWord (text u)
  | acronym => upperWord (text u)
  end.

(** [smallNumbers], decided. *)
Definition smallNumbersb (token : jsstring) : bool :=
  forallb (fun part => negb (digitsOnly part) || (digitsValue part <? MAX)%Z)
    (splitDigits token).

(** ** [basic_prompt.js]: [numberToWords] and [convertToCamelCase]

    The numbers of this part are the integers below 2^53, on which the
    double arithmetic of the source ([%], [/] followed by [Math.floor])
    is exact. *)

Module Basic.

Definition ones : list jsstring :=
  map str [""; "one"; "two"; "three"; "four"; "five"; "six"; "seven";
           "eight"; "nine"; "ten"; "eleven"; "twelve"; "thirteen";
           "fourteen"; "fifteen"; "sixteen"; "seventeen"; "eighteen";
           "nineteen"]%string.

Definition tens : list jsstring :=
  map str [""; ""; "twenty"; "thirty"; "forty"; "fifty"; "sixty";
           "seventy"; "eighty"; "ninety"]%string.

Definition scales : list jsstring :=
  map str [""; "thousand"; "million"; "billion"]%string.

Definition underThousand (n : Z) : jsstring :=
  let parts : list jsstring := [] in
  let '(parts, n) :=
    if (100 <=? n)%Z
    then (parts ++ [at_ ones (n / 100) ++ str " hundred"], (n mod 100)%Z)
    else (parts, n) in
  let parts :=
    if (20 <=? n)%Z then
      let parts := parts ++ [at_ tens (n / 10)] in
      if (n mod 10 =? 0)%Z then parts else parts ++ [at_ ones (n mod 10)]
    else if (0 <? n)%Z then parts ++ [at_ ones n]
    else parts in
  join (str " ") parts.

(** The [while (num > 0)] loop; the state is [num], [scaleIndex] and
    [resultParts].  [fuel] bounds the number of turns: see
    [chunkLoop_fuel] for the turns that are enough. *)
Fixpoint chunkLoop (fuel : nat) (num : Z) (scaleIndex : Z)
  (resultParts : list jsstring) : list jsstring :=
  match fuel with
  | O => resultParts
  | S fuel' =>
      if (0 <? num)%Z then
        let chunk := (num mod 1000)%Z in
        let resultParts :=
          if (chunk =? 0)%Z then resultParts
          else
            let chunkWords := underThousand chunk in
            (chunkWords ++
             (if truthy (at_ scales scaleIndex)
              then str " " ++ at_ scales scaleIndex else []))
            :: resultParts in
        chunkLoop fuel' (num / 1000)%Z (scaleIndex + 1)%Z resultParts
      else resultParts
  end.

(** Turns that are enough for [num]: one per bit. *)
Definition turns (num : Z) : nat := S (Z.to_nat (Z.log2 num)).

Definition numberToWords (num : Z) : jsstring :=
  if (num =? 0)%Z then str "zero"
  else
    let resultParts := chunkLoop (turns num) num 0 [] in
    trim (join (str " ") resultParts).

End Basic.

(** What one turn of [Basic.chunkLoop] puts in front of [resultParts]. *)
Definition basicPart (chunk scaleIndex : Z) : list jsstring :=
  if (chunk =? 0)%Z then []
  else [Basic.underThousand chunk ++
        (if truthy (at_ Basic.scales scaleIndex)
         then str " " ++ at_ Basic.scales scaleIndex else [])].

(** *** Words between separators *)

Definition flush (cur : jsstring) : list jsstring :=
  if isEmpty cur then [] else [cur].

(** The maximal runs of characters that are no separator; [cur] is the
    part already read of the run being read. *)
Fixpoint wordsFrom (sep : N -> bool) (cur : jsstring) (s : jsstring)
  : list jsstring :=
  match s with
  | [] => flush cur
  | c :: r =>
      if sep c then flush cur ++ wordsFrom sep [] r
      else wordsFrom sep (cur ++ [c]) r
  end.

Definition wordsOf (sep : N -> bool) (s : jsstring) : list jsstring :=
  wordsFrom sep [] s.

Definition notLetter (c : N) : bool := negb (asciiLetter c).

(** The maximal runs of ASCII letters, in lower case. *)
Definition letterRuns (s : jsstring) : list jsstring :=
  map (map asciiLower) (wordsOf notLetter s).

Definition prependHead (pre : jsstring) (pieces : list jsstring)
  : list jsstring :=
  match pieces with
  | p :: ps => (pre ++ p) :: ps
  | [] => [pre]
  end.

(** [Array.prototype.map] with the index. *)
Fixpoint mapIndexed (A B : Type) (f : A -> nat -> B) (i : nat) (l : list A)
  : list B :=
  match l with
  | [] => []
  | a :: r => f a i :: mapIndexed f (S i) r
  end.

(** [replace(/\d+/g, f)]: every maximal run of digits becomes what [f]
    makes of it. *)
Definition replaceDigitRuns (f : jsstring -> jsstring) (s : jsstring)
  : jsstring :=
  concat (map (fun piece => if digitsOnly piece then f piece else piece)
            (splitDigits s)).

(** The classes [[^A-Za-z0-9]] and [[-_\s]]. *)
Definition notAlnum (c : N) : bool :=
  negb (isUpperAZ c || isLowerAZ c || isDigit c).

Definition UNDERSCORE : N := 95.

Definition isSeparator (c : N) : bool :=
  (c =? HYPHEN)%N || (c =? UNDERSCORE)%N || isWhiteSpace c.

Section BasicCamel.
Context {host : Host}.

(** [word.charAt(0).toUpperCase() + word.slice(1).toLowerCase()] *)
Definition titleWord (word : jsstring) : jsstring :=
  toUpperCase (charAt0 word) ++ toLowerCase (slice1 word).

(** [convertToCamelCase]; a run of digits is read exactly when it is a
    number below 2^53. *)
Definition convertToCamelCase (input : JSValue) : jsstring :=
  match input with
  | JSStr input =>
      if negb (truthy input) then []
      else
        let cleaned := replaceRuns notAlnum [SPACE] false (codeUnits input) in
        let cleaned :=
          replaceDigitRuns
            (fun match_ => Basic.numberToWords (digitsValue match_)) cleaned in
        let words :=
          map toLowerCase (filter truthy (splitWhiteSpace (trim cleaned))) in
        if Nat.eqb (length words) 0 then []
        else
          let first := hd [] words in
          let rest :=
            map (fun w => toUpperCase (charAt0 w) ++ slice1 w) (tl words) in
          first ++ join [] rest
  | _ => []
  end.

End BasicCamel.

(** The first [toCamelCase] of [basic_prompt.js], on a string. *)
Module BasicSplit.
Section BasicSplit.
Context {host : Host}.

Definition toCamelCase (str_ : jsstring) : jsstring :=
  join []
    (mapIndexed
       (fun word index =>
          if Nat.eqb index 0 then toLowerCase word else titleWord word)
       0
       (filter (fun word => Nat.ltb 0 (length word)) (splitOn SPACE str_))).

End BasicSplit.
End BasicSplit.

(** The second [toCamelCase] of [basic_prompt.js], on a string. *)
Module BasicReplace.
Section BasicReplace.
Context {host : Host}.

Definition toCamelCase (str_ : jsstring) : jsstring :=
  if negb (truthy str_) then []
  else
    let words :=
      splitOn SPACE (replaceRuns isSeparator [SPACE] false (codeUnits str_)) in
    let result := toLowerCase (hd [] words) in
    fold_left (fun result word => result ++ titleWord word) (tl words) result.

End BasicReplace.
End BasicReplace.

(** The separators inside a token: dots and white space. *)
Definition dotOrSpace (c : N) : bool := isDot c || isWhiteSpace c.

(** Whether the string starts with a character of the class. *)
Definition startsWith (cls : N -> bool) (s : jsstring) : bool :=
  match s with
  | c :: _ => cls c
  | [] => false
  end.

Definition isSpace (c : N) : bool := (c =? SPACE)%N.
Definition isHyphen (c : N) : bool := (c =? HYPHEN)%N.

Section CamelWords.
Context {host : Host}.

(** Every word with [titleWord], no separator. *)
Definition pascalWords (words : list jsstring) : jsstring :=
  concat (map titleWord words).

(** The first word in lower case, the later ones with [titleWord]. *)
Definition camelWords (words : list jsstring) : jsstring :=
  match words with
  | [] => []
  | w :: ws => toLowerCase w ++ pascalWords ws
  end.

End CamelWords.

(** * Properties *)

Ltac char_props H :=
  rewrite ?orb_true_iff, ?andb_true_iff, ?N.leb_le, ?N.ltb_lt, ?N.eqb_eq in H.

Ltac char_true :=
  rewrite ?orb_true_iff, ?andb_true_iff, ?N.leb_le, ?N.ltb_lt, ?N.eqb_eq; lia.

Ltac char_false :=
  apply not_true_is_false;
  let H := fresh in intro H; char_props H; lia.


#[local] Arguments Nat.leb : simpl never.

(** ** Loops that only push *)

Lemma length_zero_false (A : Type) (l : list A) :
  l <> [] -> Nat.eqb (length l) 0 = false.
Proof. destruct l; [congruence | reflexivity]. Qed.

(** A loop body that only appends to its accumulator can be run on the
    empty accumulator. *)
Lemma fold_left_pushes (A B : Type) (f : list A -> B -> list A) :
  (forall acc b, f acc b = acc ++ f [] b) ->
  forall l acc, fold_left f l acc = acc ++ flat_map (f []) l.
Proof.
  intros Hf l; induction l as [|b l IH]; intro acc; simpl.
  - now rewrite app_nil_r.
  - rewrite IH, (Hf acc b). now rewrite <- app_assoc.
Qed.

Lemma fold_left_pushes_acc (A B : Type) (f : list A -> B -> list A) :
  (forall acc b, f acc b = acc ++ f [] b) ->
  forall l acc, fold_left f l acc = acc ++ fold_left f l [].
Proof.
  intros Hf l acc.
  now rewrite (fold_left_pushes _ Hf l acc), (fold_left_pushes _ Hf l []).
Qed.

Section CamelLoops.
Context {host : Host}.

Lemma camel_pushWordChunk_acc units chunk :
  Camel.pushWordChunk units chunk = units ++ Camel.pushWordChunk [] chunk.
Proof.
  unfold Camel.pushWordChunk.
  destruct (negb (truthy chunk)); [now rewrite app_nil_r|].
  destruct (Nat.eqb _ 0); [now rewrite app_nil_r | reflexivity].
Qed.

Lemma camel_pushPart_acc units part :
  Camel.pushPart units part = units ++ Camel.pushPart [] part.
Proof.
  unfold Camel.pushPart. destruct (digitsOnly part).
  - apply fold_left_pushes_acc. intros acc w.
    destruct (truthy w); simpl; now rewrite ?app_nil_r.
  - apply fold_left_pushes_acc. intros acc p.
    destruct (negb (truthy p)); simpl; [now rewrite app_nil_r|].
    destruct (truthy (Camel.onlyLetters p)); [|now rewrite app_nil_r].
    apply camel_pushWordChunk_acc.
Qed.

Lemma camel_pushToken_acc units token :
  Camel.pushToken units token = units ++ Camel.pushToken [] token.
Proof.
  unfold Camel.pushToken.
  destruct (Camel.acronymRegex token || Camel.dottedAcronymRegex token).
  - reflexivity.
  - apply fold_left_pushes_acc, camel_pushPart_acc.
Qed.

Lemma camel_collect_flat_map tokens :
  Camel.collect tokens = flat_map (Camel.pushToken []) tokens.
Proof.
  unfold Camel.collect.
  now rewrite (fold_left_pushes _ camel_pushToken_acc).
Qed.

Lemma camel_collect_app pre post :
  Camel.collect (pre ++ post) = Camel.collect pre ++ Camel.collect post.
Proof. rewrite !camel_collect_flat_map. apply flat_map_app. Qed.

Lemma camel_render_acc units : forall i result,
  Camel.render i units result = result ++ Camel.render i units [].
Proof.
  induction units as [|u us IH]; intros i result; simpl.
  - now rewrite app_nil_r.
  - rewrite IH. rewrite (IH _ (Camel.piece i u)). now rewrite app_assoc.
Qed.

Lemma camel_render_later units : forall i,
  Camel.render (S i) units [] = concat (map (Camel.piece 1) units).
Proof.
  induction units as [|u us IH]; intro i; simpl; [reflexivity|].
  rewrite camel_render_acc, IH. reflexivity.
Qed.

Lemma camel_render_cons u units :
  Camel.render 0 (u :: units) [] =
  Camel.piece 0 u ++ concat (map (Camel.piece 1) units).
Proof. simpl. now rewrite camel_render_acc, camel_render_later. Qed.

End CamelLoops.

Section DotLoops.
Context {host : Host}.

Lemma dot_pushPart_acc words part :
  Dot.pushPart words part = words ++ Dot.pushPart [] part.
Proof.
  unfold Dot.pushPart. destruct (digitsOnly part).
  - apply fold_left_pushes_acc. intros acc w.
    destruct (truthy w); simpl; now rewrite ?app_nil_r.
  - apply fold_left_pushes_acc. intros acc p.
    destruct (negb (truthy p)); simpl; [now rewrite app_nil_r|].
    destruct (truthy (Dot.onlyLetters p)); now rewrite ?app_nil_r.
Qed.

Lemma dot_pushToken_acc words token :
  Dot.pushToken words token = words ++ Dot.pushToken [] token.
Proof.
  unfold Dot.pushToken.
  destruct (Dot.acronymRegex token || Dot.dottedAcronymRegex token).
  - reflexivity.
  - apply fold_left_pushes_acc, dot_pushPart_acc.
Qed.

Lemma dot_collect_flat_map tokens :
  Dot.collect tokens = flat_map (Dot.pushToken []) tokens.
Proof.
  unfold Dot.collect.
  now rewrite (fold_left_pushes _ dot_pushToken_acc).
Qed.

End DotLoops.

(** ** The documented examples *)

(** C1: the first and the third documented example of [toCamelCase] hold
    as documented.  On ["The 23 street is far fr$om &here"] the function
    returns ["theTwentyThreeStreetIsFarFrOmHere"], not the documented
    ["theTwentyThreeStreetIsFarFromHere"]: the dollar sign becomes a
    separator, so [fr] and [om] are two words. *)
Theorem toCamelCase_documented_examples (host : Host) :
  Camel.toCamelCase (JSStr (str "I like to play videogame"))
    = str "iLikeToPlayVideogame"
  /\ Camel.toCamelCase (JSStr (str "The 23 street is far fr$om &here"))
    = str "theTwentyThreeStreetIsFarFrOmHere"
  /\ Camel.toCamelCase (JSStr (str "The 23 street is far fr$om &here"))
    <> str "theTwentyThreeStreetIsFarFromHere"
  /\ Camel.rawTokens (trim (str "The 23 street is far fr$om &here"))
    = map str ["The"; "23"; "street"; "is"; "far"; "fr"; "om"; "here"]%string
  /\ Camel.toCamelCase
       (JSStr (str "OECD is an international organization of 38 member countries"))
    = str "OECDIsAnInternationalOrganizationOfThirtyEightMemberCountries".
Proof.
  repeat split; try (vm_compute; reflexivity).
  vm_compute. discriminate.
Qed.

(** ** Error reporting *)

(** C2: [toCamelCase] and [toDotCase] report errors as strings, in this
    order of priority: null or undefined input; input that is not a
    string; input whose trimmed form is empty; non-empty trimmed input
    that cleans to no token; tokens that produce no word unit. *)
Theorem error_priority (host : Host) :
  (forall v, isNullish v = true ->
     Camel.toCamelCase v = ERR_NULL /\ Dot.toDotCase v = ERR_NULL)
  /\ (forall v, isNullish v = false -> isString v = false ->
     Camel.toCamelCase v = ERR_TYPE /\ Dot.toDotCase v = ERR_TYPE)
  /\ (forall s, trim s = [] ->
     Camel.toCamelCase (JSStr s) = ERR_EMPTY
     /\ Dot.toDotCase (JSStr s) = ERR_EMPTY)
  /\ (forall s, trim s <> [] ->
     (Camel.rawTokens (trim s) = [] ->
        Camel.toCamelCase (JSStr s) = ERR_NO_TOKENS)
     /\ (Dot.rawTokens (trim s) = [] ->
        Dot.toDotCase (JSStr s) = ERR_NO_TOKENS))
  /\ (forall s, trim s <> [] ->
     (Camel.rawTokens (trim s) <> [] ->
      Camel.collect (Camel.rawTokens (trim s)) = [] ->
        Camel.toCamelCase (JSStr s) = ERR_NO_UNITS)
     /\ (Dot.rawTokens (trim s) <> [] ->
      Dot.collect (Dot.rawTokens (trim s)) = [] ->
        Dot.toDotCase (JSStr s) = ERR_NO_UNITS)).
Proof.
  split; [|split; [|split; [|split]]].
  - intros [ | | | | | ] H; try discriminate H; split; reflexivity.
  - intros [ | | | | | ] Hn Hs; try discriminate Hn; try discriminate Hs;
      split; reflexivity.
  - intros s Hs. unfold Camel.toCamelCase, Dot.toDotCase. rewrite Hs.
    split; reflexivity.
  - intros s Hs. unfold Camel.toCamelCase, Dot.toDotCase.
    rewrite (length_zero_false Hs). split; intro Ht; rewrite Ht; reflexivity.
  - intros s Hs. unfold Camel.toCamelCase, Dot.toDotCase.
    rewrite (length_zero_false Hs).
    split; intros Ht Hu; rewrite (length_zero_false Ht), Hu; reflexivity.
Qed.

Lemma error_priority_witness :
  (@Camel.toCamelCase plainHost JSNull = ERR_NULL
   /\ @Dot.toDotCase plainHost JSUndefined = ERR_NULL)
  /\ (@Camel.toCamelCase plainHost (JSNum (Int 42)) = ERR_TYPE
   /\ @Dot.toDotCase plainHost (JSBoolean true) = ERR_TYPE)
  /\ (@Camel.toCamelCase plainHost (JSStr (str "   ")) = ERR_EMPTY
   /\ @Dot.toDotCase plainHost (JSStr (str "   ")) = ERR_EMPTY)
  /\ (@Camel.toCamelCase plainHost (JSStr (str " !?! ")) = ERR_NO_TOKENS
   /\ @Dot.toDotCase plainHost (JSStr (str " !?! ")) = ERR_NO_TOKENS)
  /\ (@Camel.toCamelCase plainHost (JSStr (str ". ..")) = ERR_NO_UNITS
   /\ @Dot.toDotCase plainHost (JSStr (str ". ..")) = ERR_NO_UNITS).
Proof.
  destruct (error_priority plainHost) as (H1 & H2 & H3 & H4 & H5).
  split; [|split; [|split; [|split]]].
  - split; [apply (H1 JSNull) | apply (H1 JSUndefined)]; reflexivity.
  - split; [apply (H2 (JSNum (Int 42))) | apply (H2 (JSBoolean true))];
      reflexivity.
  - split; apply (H3 (str "   ")); reflexivity.
  - split; apply (H4 (str " !?! ")); try reflexivity;
      vm_compute; discriminate.
  - split; apply (H5 (str ". ..")); try reflexivity;
      vm_compute; discriminate.
Defined.

(** ** [numberToWords] *)

(** C3: [numberToWords] spells 0, 23, 100 and 1000 as documented; on
    every input that is not a finite number >= 0, or that is >= 10^12,
    it ends as [String(input)] does: with that string when [String]
    converts the input, be it a number with a fractional part such as
    [-1.5], and with the exception when [String] throws; so 10^12 comes
    back as its digits. *)
Theorem numberToWords_spec (host : Host) :
  numberToWords (JSNum (Int 0)) = str "zero"
  /\ numberToWords (JSNum (Int 23)) = str "twenty three"
  /\ numberToWords (JSNum (Int 100)) = str "one hundred"
  /\ numberToWords (JSNum (Int 1000)) = str "one thousand"
  /\ (forall v, ~ finiteNonNegative v \/ atLeastMAX v ->
        numberToWords v = String_ v)
  /\ (forall a, ~ isValue finiteNonNegative a \/ isValue atLeastMAX a ->
        Any.numberToWords a = Any.String_ a)
  /\ numberToWords (JSNum (Int 1000000000000)) = str "1000000000000".
Proof.
  assert (Hvalue : forall v, ~ finiteNonNegative v \/ atLeastMAX v ->
                     numberToWords v = String_ v).
  { intros v [Hneg | [Hinf | [(z & -> & Hz) | (f & sh & -> & Hf)]]].
    - destruct v as [ | | | [ | | | z | f sh] | | ]; try reflexivity.
      + unfold numberToWords. destruct (Z.ltb_spec z 0); [reflexivity|].
        exfalso. apply Hneg. left. exists z.
        split; [reflexivity | assumption].
      + unfold numberToWords. destruct (Z.ltb_spec f 0); [reflexivity|].
        exfalso. apply Hneg. right. exists f, sh.
        split; [reflexivity | assumption].
    - subst v. reflexivity.
    - unfold numberToWords. destruct (Z.ltb_spec z 0); [reflexivity|].
      destruct (Z.leb_spec MAX z); [reflexivity | lia].
    - unfold numberToWords. destruct (Z.ltb_spec f 0); [reflexivity|].
      destruct (Z.leb_spec MAX f); [reflexivity | lia]. }
  split; [|split; [|split; [|split; [|split; [|split]]]]];
    [vm_compute; reflexivity .. | exact Hvalue | | vm_compute; reflexivity].
  intros [v|] H; [|reflexivity].
  cbn [Any.numberToWords Any.String_]. f_equal. apply Hvalue.
  destruct H as [H | (w & E & H)].
  - left. intro Hv. apply H. now exists v.
  - right. injection E as <-. exact H.
Qed.

Lemma numberToWords_spec_witness :
  @numberToWords plainHost (JSNum (Int (-7))) = str "-7"
  /\ @numberToWords plainHost (JSNum NaN) = str "NaN"
  /\ @numberToWords plainHost (JSStr (str "12")) = str "12"
  /\ @numberToWords plainHost (JSNum (Int 2500000000000)) = str "2500000000000"
  /\ @numberToWords plainHost (JSNum (Frac (-2) (str "-1.5"))) = str "-1.5"
  /\ @numberToWords plainHost
       (JSNum (Frac 1000000000000 (str "1000000000000.5")))
     = str "1000000000000.5"
  /\ @Any.numberToWords plainHost (Printable (JSObject (str "[object Object]")))
     = Returns (str "[object Object]")
  /\ @Any.numberToWords plainHost Unprintable = Throws.
Proof.
  destruct (numberToWords_spec plainHost) as (_ & _ & _ & _ & H & HA & _).
  split; [|split; [|split; [|split; [|split; [|split; [|split]]]]]].
  - apply (H (JSNum (Int (-7)))). left.
    intros [(z & E & Hz) | (f & sh & E & _)]; [|discriminate E].
    injection E as E. subst z. lia.
  - apply (H (JSNum NaN)). left.
    intros [(z & E & _) | (f & sh & E & _)]; discriminate E.
  - apply (H (JSStr (str "12"))). left.
    intros [(z & E & _) | (f & sh & E & _)]; discriminate E.
  - apply (H (JSNum (Int 2500000000000))). right. right. left.
    exists 2500000000000%Z. split; [reflexivity | unfold MAX; lia].
  - apply (H (JSNum (Frac (-2) (str "-1.5")))). left.
    intros [(z & E & _) | (f & sh & E & Hf)]; [discriminate E|].
    injection E as E _. subst f. lia.
  - apply (H (JSNum (Frac 1000000000000 (str "1000000000000.5")))).
    right. right. right. exists 1000000000000%Z, (str "1000000000000.5").
    split; [reflexivity | unfold MAX; lia].
  - apply (HA (Printable (JSObject (str "[object Object]")))). left.
    intros (v & E & [(z & E' & _) | (f & sh & E' & _)]);
      injection E as <-; discriminate E'.
  - apply (HA Unprintable). left. intros (v & E & _). discriminate E.
Defined.

(** C3 as stated fails on an object that [String] cannot convert, such
    as [Object.create(null)]: it is not a finite number >= 0, and the
    call returns no string at all, it throws. *)
Lemma numberToWords_spec_counterexample :
  ~ isValue finiteNonNegative Unprintable
  /\ @Any.String_ plainHost Unprintable = Throws
  /\ @Any.numberToWords plainHost Unprintable = Throws
  /\ (forall s, @Any.numberToWords plainHost Unprintable <> Returns s).
Proof.
  split; [intros (v & E & _); discriminate E|].
  split; [reflexivity|]. split; [reflexivity|].
  intros s E. discriminate E.
Qed.

(** ** [toKebabCase]: contract *)

(** C6: the documented kebab-case examples; the one message for null,
    undefined and every other input that is not a string; and the empty
    string for the empty string. *)
Theorem toKebabCase_contract (host : Host) :
  toKebabCase (JSStr (str "Hello World")) = str "hello-world"
  /\ toKebabCase (JSStr (str "Another___Test")) = str "another-test"
  /\ toKebabCase JSNull = ERR_KEBAB
  /\ toKebabCase JSUndefined = ERR_KEBAB
  /\ (forall v, isString v = false -> toKebabCase v = ERR_KEBAB)
  /\ toKebabCase (JSStr (str "")) = str "".
Proof.
  split; [|split; [|split; [|split; [|split]]]];
    [vm_compute; reflexivity .. | | vm_compute; reflexivity].
  intros [ | | | | | ] H; try discriminate H; reflexivity.
Qed.

Lemma toKebabCase_contract_witness :
  @toKebabCase plainHost (JSNum (Int 123)) = ERR_KEBAB
  /\ @toKebabCase plainHost (JSObject (str "[object Object]")) = ERR_KEBAB.
Proof.
  destruct (toKebabCase_contract plainHost) as (_ & _ & _ & _ & H & _).
  split; apply H; reflexivity.
Defined.

(** ** The two dotted-acronym patterns *)

(** [toDotCase]'s pattern accepts what [toCamelCase]'s accepts, with or
    without one more dot at the end. *)
Lemma dottedFrom_trailing_dot : forall n t k,
  (length t <= n)%nat ->
  Dot.dottedFrom k t = true <->
  Camel.dottedFrom k t = true
  \/ exists t', t = t' ++ [DOT] /\ Camel.dottedFrom k t' = true.
Proof.
  induction n as [|n IH]; intros t k Hn.
  - destruct t; [|simpl in Hn; lia]. simpl. split; [now left|].
    intros [H | (t' & E & _)]; [assumption | destruct t'; discriminate E].
  - destruct t as [|c [|d r]].
    + simpl. split; [now left|].
      intros [H | (t' & E & _)]; [assumption | destruct t'; discriminate E].
    + simpl. split.
      * intro H. apply andb_prop in H as [Hk H].
        apply orb_prop in H as [H | H].
        -- left. now rewrite Hk, H.
        -- right. apply N.eqb_eq in H. subst c. exists []. now split.
      * intros [H | (t' & E & H)].
        -- apply andb_prop in H as [Hk H]. rewrite Hk, H. reflexivity.
        -- destruct t' as [|a [|b t']]; try discriminate E.
           injection E as ->. simpl in H. rewrite H. reflexivity.
    + assert (Hr : (length r <= n)%nat) by (simpl in Hn; lia).
      change (Dot.dottedFrom k (c :: d :: r))
        with (isUpperAZ c && isDot d && Dot.dottedFrom (S k) r).
      change (Camel.dottedFrom k (c :: d :: r))
        with (isUpperAZ c && isDot d && Camel.dottedFrom (S k) r).
      split.
      * intro H. apply andb_prop in H as [Hcd H].
        apply (IH r (S k) Hr) in H as [H | (r' & -> & H)].
        -- left. now rewrite Hcd, H.
        -- right. exists (c :: d :: r'). split; [reflexivity|].
           change (Camel.dottedFrom k (c :: d :: r'))
             with (isUpperAZ c && isDot d && Camel.dottedFrom (S k) r').
           now rewrite Hcd, H.
      * intros [H | (t' & E & H)].
        -- apply andb_prop in H as [Hcd H]. rewrite Hcd. simpl.
           apply (IH r (S k) Hr). now left.
        -- destruct t' as [|a [|b t']]; try discriminate E.
           ++ injection E as -> -> ->. simpl in H.
              apply andb_prop in H as [Hk Hc]. rewrite Hc. simpl.
              apply Nat.leb_le in Hk. apply Nat.leb_le. lia.
           ++ injection E as -> -> ->.
              change (Camel.dottedFrom k (a :: b :: t'))
                with (isUpperAZ a && isDot b && Camel.dottedFrom (S k) t') in H.
              apply andb_prop in H as [Hcd H]. rewrite Hcd. simpl.
              apply (IH (t' ++ [DOT]) (S k) Hr). right. now exists t'.
Qed.

(** C9: [toDotCase]'s dotted-acronym pattern allows a trailing dot after
    the optional bare letter and [toCamelCase]'s does not, so the token
    ["U.S.."] is one acronym for [toDotCase] and the two words [u] and
    [s] for [toCamelCase]. *)
Theorem dotted_patterns_differ (host : Host) :
  (forall t, Dot.dottedAcronymRegex t = true <->
     Camel.dottedAcronymRegex t = true
     \/ exists t', t = t' ++ [DOT] /\ Camel.dottedAcronymRegex t' = true)
  /\ Dot.dottedAcronymRegex (str "U.S..") = true
  /\ Camel.dottedAcronymRegex (str "U.S..") = false
  /\ Camel.acronymRegex (str "U.S..") = false
  /\ Dot.collect (Dot.rawTokens (trim (str "U.S.."))) = [str "US"]
  /\ Dot.toDotCase (JSStr (str "U.S..")) = str "US"
  /\ Camel.collect (Camel.rawTokens (trim (str "U.S..")))
     = [ {| type := word; text := str "u" |};
         {| type := word; text := str "s" |} ]
  /\ Camel.toCamelCase (JSStr (str "U.S..")) = str "uS".
Proof.
  split.
  - intro t. apply (@dottedFrom_trailing_dot (length t) t 0), le_n.
  - repeat split; vm_compute; reflexivity.
Qed.

Lemma dotted_patterns_differ_witness :
  @Dot.dottedAcronymRegex (str "U.S..") = true
  /\ @Dot.dottedAcronymRegex (str "U.S.A") = true.
Proof.
  destruct (dotted_patterns_differ plainHost) as (H & _).
  split.
  - apply (H (str "U.S..")). right. exists (str "U.S."). split; reflexivity.
  - apply (H (str "U.S.A")). left. reflexivity.
Defined.

(** ** Acronyms *)

Lemma isDot_DOT : isDot DOT = true.
Proof. reflexivity. Qed.

Lemma upper_not_dot c : isUpperAZ c = true -> isDot c = false.
Proof.
  unfold isUpperAZ, isDot. intro H. apply andb_prop in H as [H1 _].
  apply N.leb_le in H1. apply N.eqb_neq. lia.
Qed.

Lemma dot_not_upper c : isDot c = true -> isUpperAZ c = false.
Proof.
  intro H. destruct (isUpperAZ c) eqn:E; [|reflexivity].
  apply upper_not_dot in E. congruence.
Qed.

Lemma acronymFrom_group g : forall k r,
  Forall isUpperLetter g ->
  acronymFrom k (g ++ r) = acronymFrom (length g + k) r.
Proof.
  induction g as [|c g IH]; intros k r Hg; [reflexivity|].
  inversion Hg as [|? ? Hc Hg']; subst. simpl. rewrite Hc.
  rewrite IH by assumption. f_equal. lia.
Qed.

Lemma acronymFrom_chain gs : forall k,
  (2 <= k)%nat -> Forall upperGroup gs ->
  acronymFrom k (flat_map (fun h => DOT :: h) gs) = true.
Proof.
  induction gs as [|h gs IH]; intros k Hk Hgs; cbn [flat_map acronymFrom app].
  - now apply Nat.leb_le.
  - inversion Hgs as [|? ? [Hlen Hh] Hgs']; subst.
    apply Nat.leb_le in Hk. rewrite Hk.
    change (isUpperAZ DOT) with false. change (isDot DOT) with true.
    cbn [andb]. rewrite acronymFrom_group by assumption.
    apply IH; [lia | assumption].
Qed.

Lemma chainedShape_matches t : chainedShape t -> acronymFrom 0 t = true.
Proof.
  intros (g & gs & [Hlen Hg] & Hgs & ->).
  rewrite acronymFrom_group by assumption.
  apply acronymFrom_chain; [lia | assumption].
Qed.

Lemma acronymFrom_shape t : forall k,
  acronymFrom k t = true ->
  exists g gs, Forall isUpperLetter g /\ (2 <= length g + k)%nat
    /\ Forall upperGroup gs /\ t = g ++ flat_map (fun h => DOT :: h) gs.
Proof.
  induction t as [|c r IH]; intros k H; simpl in H.
  - exists [], []. apply Nat.leb_le in H. repeat split; auto.
  - destruct (isUpperAZ c) eqn:Ec.
    + destruct (IH _ H) as (g & gs & Hg & Hlen & Hgs & ->).
      exists (c :: g), gs. repeat split; auto. simpl. lia.
    + destruct (isDot c) eqn:Ed; [|discriminate].
      apply andb_prop in H as [Hk H]. apply Nat.leb_le in Hk.
      destruct (IH _ H) as (g & gs & Hg & Hlen & Hgs & ->).
      apply N.eqb_eq in Ed. subst c.
      exists [], (g :: gs). repeat split; auto.
      constructor; [split; [lia | assumption] | assumption].
Qed.

(** The regular expression [acronymRegex] accepts exactly shape (a). *)
Lemma acronymRegex_chainedShape t :
  acronymFrom 0 t = true <-> chainedShape t.
Proof.
  split; [|apply chainedShape_matches].
  intro H. destruct (acronymFrom_shape _ _ H) as (g & gs & Hg & Hlen & Hgs & ->).
  exists g, gs. repeat split; auto. lia.
Qed.

Section AcronymShapes.
Context {host : Host}.

Lemma camel_dottedFrom_pairs us : forall k last,
  Forall isUpperLetter us ->
  (last = [] \/ exists c, isUpperLetter c /\ last = [c]) ->
  Camel.dottedFrom k (flat_map (fun u => [u; DOT]) us ++ last)
  = (2 <=? length us + k)%nat.
Proof.
  induction us as [|u us IH]; intros k last Hus Hlast.
  - simpl. destruct Hlast as [-> | (c & Hc & ->)]; simpl; [reflexivity|].
    rewrite Hc. apply andb_true_r.
  - inversion Hus as [|? ? Hu Hus']; subst.
    change (flat_map (fun u0 => [u0; DOT]) (u :: us) ++ last)
      with (u :: DOT :: (flat_map (fun u0 => [u0; DOT]) us ++ last)).
    simpl. rewrite Hu. simpl. rewrite IH by assumption. f_equal. lia.
Qed.

Lemma camel_dottedFrom_shape t : forall n k, (length t <= n)%nat ->
  Camel.dottedFrom k t = true ->
  exists us last, Forall isUpperLetter us /\ (2 <= length us + k)%nat
    /\ (last = [] \/ exists c, isUpperLetter c /\ last = [c])
    /\ t = flat_map (fun u => [u; DOT]) us ++ last.
Proof.
  intros n; revert t. induction n as [|n IH]; intros t k Hn H.
  - destruct t; [|simpl in Hn; lia]. simpl in H. apply Nat.leb_le in H.
    exists [], []. repeat split; auto.
  - destruct t as [|c [|d r]]; simpl in H.
    + apply Nat.leb_le in H. exists [], []. repeat split; auto.
    + apply andb_prop in H as [Hk Hc]. apply Nat.leb_le in Hk.
      exists [], [c]. repeat split; auto. right. exists c. split; auto.
    + apply andb_prop in H as [Hcd H]. apply andb_prop in Hcd as [Hc Hd].
      apply N.eqb_eq in Hd. subst d.
      destruct (IH r (S k)) as (us & last & Hus & Hlen & Hlast & ->);
        [simpl in Hn; lia | assumption |].
      exists (c :: us), last. repeat split; auto. simpl. lia.
Qed.

(** [toCamelCase]'s [dottedAcronymRegex] accepts exactly shape (b). *)
Lemma camel_dottedAcronymRegex_initialsShape t :
  Camel.dottedAcronymRegex t = true <-> initialsShape t.
Proof.
  unfold Camel.dottedAcronymRegex. split.
  - intro H.
    destruct (@camel_dottedFrom_shape t (length t) 0 (le_n _) H)
      as (us & last & Hus & Hlen & Hlast & ->).
    exists us, last. repeat split; auto. lia.
  - intros (us & last & Hlen & Hus & Hlast & ->).
    rewrite camel_dottedFrom_pairs by assumption. apply Nat.leb_le. lia.
Qed.

Lemma acronym_shape_matches t :
  chainedShape t \/ initialsShape t ->
  Camel.acronymRegex t || Camel.dottedAcronymRegex t = true.
Proof.
  intros [H | H]; apply orb_true_iff; [left | right].
  - now apply acronymRegex_chainedShape.
  - now apply camel_dottedAcronymRegex_initialsShape.
Qed.

End AcronymShapes.

Lemma removeDots_filter s :
  removeDots s = filter (fun c => negb (isDot c)) s.
Proof.
  unfold removeDots. induction s as [|c s IH]; [reflexivity|].
  simpl. rewrite IH. destruct (isDot c); reflexivity.
Qed.

Lemma rawTokens_nil (host : Host) : Camel.rawTokens [] = [].
Proof. reflexivity. Qed.

(** C4: a token of either acronym shape becomes exactly one acronym
    unit, whose text is the token without its dots, and that text stands
    unchanged in the camelCase output, wherever the token is. *)
Theorem acronym_token_kept (host : Host) (s : jsstring)
  (pre post : list jsstring) (t : jsstring) :
  chainedShape t \/ initialsShape t ->
  Camel.rawTokens (trim s) = pre ++ t :: post ->
  let kept := filter (fun c => negb (isDot c)) t in
  Camel.pushToken [] t = [ {| type := acronym; text := kept |} ]
  /\ Camel.collect (pre ++ t :: post)
     = Camel.collect pre ++ {| type := acronym; text := kept |}
         :: Camel.collect post
  /\ Camel.toCamelCase (JSStr s)
     = Camel.render 0 (Camel.collect pre) [] ++ kept
         ++ concat (map (Camel.piece 1) (Camel.collect post)).
Proof.
  intros Hshape Htok kept.
  assert (Hone : Camel.pushToken [] t = [ {| type := acronym; text := kept |} ]).
  { unfold Camel.pushToken. rewrite (acronym_shape_matches Hshape).
    simpl. unfold kept. now rewrite removeDots_filter. }
  assert (Hall : Camel.collect (pre ++ t :: post)
     = Camel.collect pre ++ {| type := acronym; text := kept |}
         :: Camel.collect post).
  { rewrite camel_collect_app. f_equal.
    rewrite !camel_collect_flat_map. simpl. now rewrite Hone. }
  split; [exact Hone | split; [exact Hall |]].
  unfold Camel.toCamelCase.
  assert (Htrim : trim s <> []).
  { intro E. rewrite E in Htok. rewrite rawTokens_nil in Htok.
    destruct pre; discriminate Htok. }
  rewrite (length_zero_false Htrim), Htok.
  rewrite length_zero_false by (destruct pre; discriminate).
  rewrite Hall.
  rewrite length_zero_false by (destruct (Camel.collect pre); discriminate).
  destruct (Camel.collect pre) as [|u us].
  - simpl app at 1. rewrite camel_render_cons. reflexivity.
  - simpl app at 1. rewrite !camel_render_cons.
    rewrite map_app, concat_app. simpl. now rewrite <- !app_assoc.
Qed.

Lemma acronym_token_kept_witness :
  @Camel.toCamelCase plainHost (JSStr (str "the U.S.A. joined NATO.GOV"))
  = str "theUSAJoinedNATOGOV"
  /\ @Camel.toCamelCase plainHost (JSStr (str "OECD members"))
  = str "OECDMembers".
Proof.
  split.
  - refine (proj2 (proj2 (@acronym_token_kept plainHost
      (str "the U.S.A. joined NATO.GOV") [str "the"]
      [str "joined"; str "NATO.GOV"] (str "U.S.A.") _ _))).
    + right. exists (str "USA"), []. repeat split.
      * simpl. lia.
      * repeat constructor.
      * left. reflexivity.
    + reflexivity.
  - refine (proj2 (proj2 (@acronym_token_kept plainHost
      (str "OECD members") [] [str "members"] (str "OECD") _ _))).
    + left. exists (str "OECD"), []. repeat split.
      * simpl. lia.
      * repeat constructor.
      * constructor.
    + reflexivity.
Defined.

(** ** [toDotCase] *)

Lemma Forall_fold_pushes (A B : Type) (P : A -> Prop)
  (f : list A -> B -> list A) :
  (forall acc b, f acc b = acc ++ f [] b) ->
  (forall b, Forall P (f [] b)) ->
  forall l, Forall P (fold_left f l []).
Proof.
  intros Hf HP l. rewrite (fold_left_pushes _ Hf). simpl.
  apply Forall_flat_map. apply Forall_forall. intros b _. apply HP.
Qed.

Section DotWords.
Context {host : Host}.

Lemma dot_pushPart_lowercased part : Forall lowercased (Dot.pushPart [] part).
Proof.
  unfold Dot.pushPart. destruct (digitsOnly part).
  - apply Forall_fold_pushes.
    + intros acc w. destruct (truthy w); now rewrite ?app_nil_r.
    + intro w. destruct (truthy w); repeat constructor. now exists w.
  - apply Forall_fold_pushes.
    + intros acc p. destruct (negb (truthy p)); [now rewrite app_nil_r|].
      destruct (truthy (Dot.onlyLetters p)); now rewrite ?app_nil_r.
    + intro p. destruct (negb (truthy p)); [constructor|]. simpl.
      destruct (truthy (Dot.onlyLetters p)); repeat constructor.
      now exists (Dot.onlyLetters p).
Qed.

End DotWords.

Lemma toDotCase_of_words (host : Host) s :
  Dot.collect (Dot.rawTokens (trim s)) <> [] ->
  Dot.toDotCase (JSStr s) = join [DOT] (Dot.collect (Dot.rawTokens (trim s))).
Proof.
  intro Hw. unfold Dot.toDotCase.
  assert (Htok : Dot.rawTokens (trim s) <> []).
  { intro E. apply Hw. rewrite E. reflexivity. }
  assert (Htrim : trim s <> []).
  { intro E. apply Htok. rewrite E. reflexivity. }
  now rewrite (length_zero_false Htrim), (length_zero_false Htok),
    (length_zero_false Hw).
Qed.

Lemma toCamelCase_of_units (host : Host) s :
  Camel.collect (Camel.rawTokens (trim s)) <> [] ->
  Camel.toCamelCase (JSStr s)
  = Camel.render 0 (Camel.collect (Camel.rawTokens (trim s))) [].
Proof.
  intro Hu. unfold Camel.toCamelCase.
  assert (Htok : Camel.rawTokens (trim s) <> []).
  { intro E. apply Hu. rewrite E. reflexivity. }
  assert (Htrim : trim s <> []).
  { intro E. apply Htok. rewrite E. reflexivity. }
  now rewrite (length_zero_false Htrim), (length_zero_false Htok),
    (length_zero_false Hu).
Qed.

(** ** [toKebabCase]: shape of the result *)

Lemma jsstring_eqb_nil s : jsstring_eqb s [] = isEmpty s.
Proof.
  unfold jsstring_eqb. destruct (list_eq_dec N.eq_dec s []) as [-> | H].
  - reflexivity.
  - destruct s; [congruence | reflexivity].
Qed.

Lemma alnum_not_space c :
  isLowerAZ c || isDigit c = true -> isWhiteSpace c = false.
Proof.
  unfold isLowerAZ, isDigit, isWhiteSpace. intro H.
  apply orb_prop in H as [H | H]; apply andb_prop in H as [H1 H2];
    apply N.leb_le in H1; apply N.leb_le in H2;
    repeat (apply orb_false_intro);
    try (apply N.eqb_neq; lia);
    apply andb_false_iff; [right | left | right | left];
    apply N.leb_gt; lia.
Qed.

Lemma alnum_not_hyphen c :
  isLowerAZ c || isDigit c = true -> (c =? HYPHEN)%N = false.
Proof.
  unfold isLowerAZ, isDigit, HYPHEN. intro H. apply N.eqb_neq. intros ->.
  discriminate H.
Qed.

Lemma alnum_lower_id c :
  isLowerAZ c || isDigit c = true -> isAscii c = true /\ asciiLower c = c.
Proof.
  unfold isLowerAZ, isDigit, isAscii, asciiLower, isUpperAZ. intro H.
  assert (Hc : (48 <= c <= 57 \/ 97 <= c <= 122)%N).
  { apply orb_prop in H as [H | H]; apply andb_prop in H as [H1 H2];
      apply N.leb_le in H1; apply N.leb_le in H2; lia. }
  split; [apply N.ltb_lt; lia|].
  destruct (N.leb_spec 65 c), (N.leb_spec c 90); simpl; try reflexivity; lia.
Qed.

Lemma kebabShaped_weaken o : forall b,
  kebabShaped b o = true -> kebabShaped false o = true.
Proof.
  destruct o as [|c r]; intros b H; [reflexivity|]. simpl in *.
  destruct (c =? HYPHEN)%N; [|assumption].
  apply andb_prop in H as [_ H]. now rewrite H.
Qed.

(** A shaped string has no white space, is ASCII, and is in lower case. *)
Lemma kebabShaped_chars o : forall b, kebabShaped b o = true ->
  Forall (fun c => isWhiteSpace c = false /\ isAscii c = true
                   /\ asciiLower c = c) o.
Proof.
  induction o as [|c r IH]; intros b H; [constructor|]. simpl in H.
  destruct (N.eqb_spec c HYPHEN) as [-> | Hc].
  - apply andb_prop in H as [_ H]. constructor; [|now apply (IH true)].
    repeat split; reflexivity.
  - apply andb_prop in H as [Hc' H]. constructor; [|now apply (IH false)].
    split; [now apply alnum_not_space | now apply alnum_lower_id].
Qed.

Lemma trimStart_id s :
  Forall (fun c => isWhiteSpace c = false) s -> trimStart s = s.
Proof.
  intro H. destruct H as [|c r Hc _]; [reflexivity|]. simpl. now rewrite Hc.
Qed.

Lemma trim_id s :
  Forall (fun c => isWhiteSpace c = false) s -> trim s = s.
Proof.
  intro H. unfold trim, trimEnd. rewrite (trimStart_id H).
  rewrite trimStart_id by now apply Forall_rev. apply rev_involutive.
Qed.

Section KebabShape.
Context {host : Host}.

Lemma toLowerCase_ascii s :
  Forall (fun c => isAscii c = true) s -> toLowerCase s = map asciiLower s.
Proof.
  intro H. unfold toLowerCase.
  replace (forallb isAscii s) with true; [reflexivity|].
  symmetry. apply forallb_forall. now apply Forall_forall.
Qed.

Lemma toLowerCase_shaped o b : kebabShaped b o = true -> toLowerCase o = o.
Proof.
  intro H. apply kebabShaped_chars in H.
  rewrite toLowerCase_ascii.
  - rewrite <- (map_id o) at 2. apply map_ext_Forall.
    eapply Forall_impl; [|exact H]. now intros c (_ & _ & Hc).
  - eapply Forall_impl; [|exact H]. now intros c (_ & Hc & _).
Qed.

End KebabShape.

(** What the normalising step leaves: letters, digits and white space. *)
Lemma normalized_chars x :
  Forall (fun c => isLowerAZ c || isDigit c || isWhiteSpace c = true)
    (replaceEach notKebabChar [SPACE] (codeUnits x)).
Proof.
  induction x as [|c x IH]; [constructor|]. simpl.
  unfold notKebabChar at 1.
  destruct (isLowerAZ c || isDigit c || isWhiteSpace c) eqn:E; simpl;
    constructor; auto.
Qed.

Lemma normalized_app x y :
  replaceEach notKebabChar [SPACE] (codeUnits (x ++ y))
  = replaceEach notKebabChar [SPACE] (codeUnits x)
    ++ replaceEach notKebabChar [SPACE] (codeUnits y).
Proof.
  induction x as [|c x IH]; [reflexivity|]. simpl. rewrite IH.
  now rewrite app_assoc.
Qed.

(** The hyphenating step turns such a string into a shaped one. *)
Lemma hyphenated_shaped y : forall b,
  Forall (fun c => isLowerAZ c || isDigit c || isWhiteSpace c = true) y ->
  kebabShaped b (replaceRuns isWhiteSpace [HYPHEN] b (codeUnits y)) = true.
Proof.
  induction y as [|c y IH]; intros b Hy; [reflexivity|].
  inversion Hy as [|? ? Hc Hy']; subst. simpl.
  destruct (isWhiteSpace c) eqn:Ews.
  - destruct b; simpl; [now apply IH|]. now apply IH.
  - rewrite orb_false_r in Hc. simpl.
    rewrite (alnum_not_hyphen _ Hc), Hc. now apply IH.
Qed.

(** On a shaped string the two replacements undo each other. *)
Lemma shaped_fixed o : forall b, kebabShaped b o = true ->
  replaceRuns isWhiteSpace [HYPHEN] b
    (codeUnits (replaceEach notKebabChar [SPACE] (codeUnits o))) = o.
Proof.
  induction o as [|c r IH]; intros b H; [reflexivity|]. simpl in H.
  destruct (N.eqb_spec c HYPHEN) as [-> | Hc].
  - apply andb_prop in H as [Hb H]. apply negb_true_iff in Hb. subst b.
    simpl. f_equal. now apply IH.
  - apply andb_prop in H as [Hc' H]. simpl. unfold notKebabChar at 1.
    rewrite Hc'. simpl. rewrite (alnum_not_space _ Hc'). simpl.
    f_equal. now apply IH.
Qed.

(** A string that ends in white space is hyphenated into one that ends
    in a hyphen, unless the white space run it ends in began earlier. *)
Lemma hyphenated_end y : forall b,
  (exists o, replaceRuns isWhiteSpace [HYPHEN] b (codeUnits (y ++ [SPACE]))
             = o ++ [HYPHEN])
  \/ (b = true
      /\ replaceRuns isWhiteSpace [HYPHEN] b (codeUnits (y ++ [SPACE])) = []).
Proof.
  induction y as [|c y IH]; intro b.
  - destruct b; [right; split; reflexivity | left; exists []; reflexivity].
  - simpl. destruct (isWhiteSpace c).
    + destruct (IH true) as [(o & Ho) | (_ & Ho)]; rewrite Ho.
      * left. exists ((if b then [] else [HYPHEN]) ++ o).
        now rewrite app_assoc.
      * destruct b; [right; split; reflexivity | left; exists []; reflexivity].
    + destruct (IH false) as [(o & Ho) | (Hb & _)]; [|discriminate Hb].
      rewrite Ho. left. now exists (c :: o).
Qed.

(** C10: when the trimmed and lower-cased input ends in a character that
    is neither a lower-case ASCII letter, nor a digit, nor white space,
    the result of [toKebabCase] ends in a hyphen; so ["Hello!"] gives
    ["hello-"]. *)
Theorem toKebabCase_trailing_hyphen (host : Host) :
  (forall s x c,
     toLowerCase (trim s) = x ++ [c] ->
     isLowerAZ c = false -> isDigit c = false -> isWhiteSpace c = false ->
     exists o, toKebabCase (JSStr s) = o ++ [HYPHEN])
  /\ toKebabCase (JSStr (str "Hello!")) = str "hello-".
Proof.
  split; [|vm_compute; reflexivity].
  intros s x c Hlow Hl Hd Hw. unfold toKebabCase.
  rewrite jsstring_eqb_nil. destruct s as [|a s].
  - destruct x; discriminate Hlow.
  - cbn [isEmpty]. rewrite Hlow, normalized_app.
    replace (replaceEach notKebabChar [SPACE] (codeUnits [c])) with [SPACE]
      by (simpl; unfold notKebabChar; now rewrite Hl, Hd, Hw).
    destruct (hyphenated_end
      (replaceEach notKebabChar [SPACE] (codeUnits x)) false)
      as [Ho | (Hb & _)]; [exact Ho | discriminate Hb].
Qed.

Lemma toKebabCase_trailing_hyphen_witness :
  exists o, @toKebabCase plainHost (JSStr (str "  Input with !punctuation. "))
            = o ++ [HYPHEN].
Proof.
  apply (proj1 (toKebabCase_trailing_hyphen plainHost)
           (str "  Input with !punctuation. ")
           (str "input with !punctuation") 46%N); reflexivity.
Defined.

(** C8: [toKebabCase] is idempotent on strings: its result is made of
    lower-case letters, digits and single hyphens, and applying the
    function to such a string gives the string back. *)
Theorem toKebabCase_idempotent (host : Host) (s : jsstring) :
  toKebabCase (JSStr (toKebabCase (JSStr s))) = toKebabCase (JSStr s)
  /\ kebabShaped false (toKebabCase (JSStr s)) = true.
Proof.
  assert (Hshape : kebabShaped false (toKebabCase (JSStr s)) = true).
  { unfold toKebabCase. destruct (jsstring_eqb s []); [reflexivity|].
    apply hyphenated_shaped, normalized_chars. }
  split; [|exact Hshape].
  remember (toKebabCase (JSStr s)) as o eqn:Eo. clear Eo.
  unfold toKebabCase. rewrite jsstring_eqb_nil.
  destruct o as [|c r]; [reflexivity|]. cbn [isEmpty].
  rewrite trim_id.
  - rewrite (toLowerCase_shaped _ _ Hshape). now apply shaped_fixed.
  - eapply Forall_impl; [|exact (kebabShaped_chars _ _ Hshape)].
    now intros a (Ha & _).
Qed.

(** ** The two pipelines collect the same words *)

Lemma asciiLetter_range c :
  asciiLetter c = true <-> (65 <= c <= 90 \/ 97 <= c <= 122)%N.
Proof.
  unfold asciiLetter, isUpperAZ, isLowerAZ.
  rewrite ?orb_true_iff, ?andb_true_iff, ?N.leb_le. reflexivity.
Qed.

Lemma asciiLetter_facts c : asciiLetter c = true ->
  isAscii c = true /\ isDot c = false /\ isWhiteSpace c = false
  /\ isDigit c = false /\ isLowerAZ (asciiLower c) = true.
Proof.
  intro H. apply asciiLetter_range in H.
  unfold isAscii, isDot, isWhiteSpace, isDigit.
  split; [char_true|]. split; [char_false|]. split; [char_false|].
  split; [char_false|].
  unfold asciiLower. destruct (isUpperAZ c) eqn:E; unfold isUpperAZ in E.
  - char_props E. unfold isLowerAZ. char_true.
  - apply not_true_iff_false in E. char_props E. unfold isLowerAZ. char_true.
Qed.

Lemma ascii_not_surrogate c : isAscii c = true -> isHighSurrogate c = false.
Proof.
  unfold isAscii, isHighSurrogate. intro H. apply N.ltb_lt in H.
  apply andb_false_iff. left. apply N.leb_gt. lia.
Qed.

Lemma surrogate_not_dot c :
  isHighSurrogate c = true \/ isLowSurrogate c = true -> isDot c = false.
Proof.
  unfold isHighSurrogate, isLowSurrogate, isDot.
  intros [H | H]; apply andb_prop in H as [H _]; apply N.leb_le in H;
    apply N.eqb_neq; lia.
Qed.

(** *** What the string primitives preserve *)

Lemma Forall_trimStart (P : N -> Prop) s :
  Forall P s -> Forall P (trimStart s).
Proof.
  induction 1 as [|c r Hc Hr IH]; simpl; [constructor|].
  destruct (isWhiteSpace c); [assumption | now constructor].
Qed.

Lemma Forall_trim (P : N -> Prop) s : Forall P s -> Forall P (trim s).
Proof.
  intro H. unfold trim, trimEnd.
  apply Forall_rev, Forall_trimStart, Forall_rev, Forall_trimStart, H.
Qed.

Lemma Forall_consHead (P : N -> Prop) c pieces :
  P c -> Forall (Forall P) pieces -> Forall (Forall P) (consHead c pieces).
Proof.
  intros Hc [|w ws Hw Hws]; simpl; repeat constructor; assumption.
Qed.

Lemma Forall_splitRuns (P : N -> Prop) sep s : forall b,
  Forall P s -> Forall (Forall P) (splitRuns sep b s).
Proof.
  induction s as [|c r IH]; intros b H; simpl; [repeat constructor|].
  inversion H as [|? ? Hc Hr]; subst.
  destruct (sep c).
  - destruct b; [now apply IH | constructor; [constructor | now apply IH]].
  - apply Forall_consHead; [assumption | now apply IH].
Qed.

Lemma Forall_filter (A : Type) (P : A -> Prop) f (l : list A) :
  Forall P l -> Forall P (filter f l).
Proof.
  induction 1 as [|a l Ha Hl IH]; simpl; [constructor|].
  destruct (f a); [now constructor | assumption].
Qed.

Lemma Forall_replaceRuns_units (P : N -> Prop) cls rep s : forall b,
  Forall P rep -> Forall P s ->
  Forall P (replaceRuns cls rep b (codeUnits s)).
Proof.
  induction s as [|c r IH]; intros b Hrep H; simpl; [constructor|].
  inversion H as [|? ? Hc Hr]; subst.
  destruct (cls c).
  - apply Forall_app. split; [destruct b; [constructor | assumption]|].
    now apply IH.
  - constructor; [assumption | now apply IH].
Qed.

Lemma Forall_replaceEach_units (P : N -> Prop) cls rep s :
  Forall P rep -> Forall P s ->
  Forall P (replaceEach cls rep (codeUnits s)).
Proof.
  intros Hrep H. induction H as [|c r Hc Hr IH]; simpl; [constructor|].
  apply Forall_app. split; [|assumption].
  destruct (cls c); [assumption | now repeat constructor].
Qed.

Lemma codePoints_ascii s :
  Forall (fun c => isAscii c = true) s -> codePoints s = codeUnits s.
Proof.
  induction 1 as [|c r Hc Hr IH]; [reflexivity|].
  simpl. rewrite (ascii_not_surrogate _ Hc). simpl.
  destruct r; [reflexivity | now rewrite <- IH].
Qed.

(** The white-space pieces that [filter(Boolean)] keeps are not empty. *)
Lemma truthy_filter (l : list jsstring) :
  Forall (fun p => p <> []) (filter truthy l).
Proof.
  induction l as [|p l IH]; simpl; [constructor|].
  destruct p; simpl; [assumption|]. constructor; [discriminate | assumption].
Qed.

Lemma splitDigits_plain t :
  Forall (fun c => isDigit c = false) t -> splitDigits t = [t].
Proof.
  unfold splitDigits. induction 1 as [|c r Hc Hr IH]; [reflexivity|].
  simpl. now rewrite Hc, IH.
Qed.

Lemma digitsOnly_plain t :
  Forall (fun c => isDigit c = false) t -> digitsOnly t = false.
Proof.
  unfold digitsOnly. intros [|c r Hc Hr]; [reflexivity|].
  simpl. now rewrite Hc.
Qed.

Lemma removeDots_id s :
  Forall (fun c => isDot c = false) s -> removeDots s = s.
Proof.
  unfold removeDots. induction 1 as [|c r Hc Hr IH]; [reflexivity|].
  simpl. now rewrite Hc, IH.
Qed.

Lemma map_flat_map (A B C : Type) (f : B -> C) (g : A -> list B) l :
  map f (flat_map g l) = flat_map (fun a => map f (g a)) l.
Proof.
  induction l as [|a l IH]; [reflexivity|]. simpl.
  now rewrite map_app, IH.
Qed.

(** *** Word by word, part by part, token by token *)

Lemma fold_left_pushes_map (A B C : Type) (h : B -> C)
  (f : list C -> A -> list C) (g : list B -> A -> list B) :
  (forall acc a, f acc a = acc ++ f [] a) ->
  (forall acc a, g acc a = acc ++ g [] a) ->
  (forall a, f [] a = map h (g [] a)) ->
  forall l, fold_left f l [] = map h (fold_left g l []).
Proof.
  intros Hf Hg Hfg l.
  rewrite (fold_left_pushes _ Hf), (fold_left_pushes _ Hg). simpl.
  rewrite map_flat_map. apply flat_map_ext. exact Hfg.
Qed.

Lemma codePoints_cons2 h l t :
  codePoints (h :: l :: t)
  = if isHighSurrogate h && isLowSurrogate l
    then (pairCodePoint h l, [h; l]) :: codePoints t
    else (h, [h]) :: codePoints (l :: t).
Proof. reflexivity. Qed.

(** Every character that [codePoints] reads is spelled by itself, or by
    a surrogate pair. *)
Lemma codePoints_spelling p : forall n, (length p <= n)%nat ->
  Forall (fun ch : rchar =>
            snd ch = [fst ch] \/ Forall (fun c => isDot c = false) (snd ch))
    (codePoints p).
Proof.
  intros n; revert p. induction n as [|n IH]; intros p Hn.
  - destruct p; [constructor | simpl in Hn; lia].
  - destruct p as [|h [|l t]]; [constructor | repeat constructor |].
    rewrite codePoints_cons2.
    destruct (isHighSurrogate h && isLowSurrogate l) eqn:E.
    + apply andb_prop in E as [Eh El]. constructor.
      * right. simpl. repeat constructor; apply surrogate_not_dot; auto.
      * apply IH. simpl in Hn. lia.
    + constructor; [now left|]. apply IH. simpl in *. lia.
Qed.

Section Agreement.
Context {host : Host}.

Lemma isLetter_not_dot cp : isLetter cp = true -> isDot cp = false.
Proof.
  intro H. unfold isDot. destruct (N.eqb_spec cp 46) as [-> | _];
    [discriminate H | reflexivity].
Qed.

Lemma keepLetters_no_dots cs : forall b,
  Forall (fun ch : rchar =>
            snd ch = [fst ch] \/ Forall (fun c => isDot c = false) (snd ch))
    cs ->
  Forall (fun c => isDot c = false)
    (replaceRuns (fun cp => negb (isLetter cp)) [] b cs).
Proof.
  induction cs as [|[cp us] cs IH]; intros b H; [constructor|].
  inversion H as [|? ? Hch Hcs]; subst. simpl in *.
  destruct (isLetter cp) eqn:E; simpl.
  - apply Forall_app. split; [|now apply IH].
    destruct Hch as [-> | Hus]; [|assumption].
    repeat constructor. now apply isLetter_not_dot.
  - destruct b; now apply IH.
Qed.

Lemma onlyLetters_no_dots p :
  Forall (fun c => isDot c = false) (Camel.onlyLetters p).
Proof.
  apply keepLetters_no_dots. exact (codePoints_spelling p (le_n _)).
Qed.

Lemma pushWordChunk_letters p :
  truthy (Camel.onlyLetters p) = true ->
  Camel.pushWordChunk [] (Camel.onlyLetters p)
  = [wordUnit (toLowerCase (Camel.onlyLetters p))].
Proof.
  intro H. unfold Camel.pushWordChunk. rewrite H. simpl.
  rewrite (removeDots_id (onlyLetters_no_dots p)).
  destruct (Camel.onlyLetters p); [discriminate H | reflexivity].
Qed.

(** One part of a token gives the same words in both functions. *)
Lemma pushPart_agree part :
  Camel.pushPart [] part = map wordUnit (Dot.pushPart [] part).
Proof.
  unfold Camel.pushPart, Dot.pushPart. destruct (digitsOnly part).
  - apply fold_left_pushes_map.
    + intros acc w. destruct (truthy w); now rewrite ?app_nil_r.
    + intros acc w. destruct (truthy w); now rewrite ?app_nil_r.
    + intro w. destruct (truthy w); reflexivity.
  - apply fold_left_pushes_map.
    + intros acc p. destruct (negb (truthy p)); [now rewrite app_nil_r|].
      destruct (truthy (Camel.onlyLetters p)); [|now rewrite app_nil_r].
      apply camel_pushWordChunk_acc.
    + intros acc p. destruct (negb (truthy p)); [now rewrite app_nil_r|].
      destruct (truthy (Dot.onlyLetters p)); now rewrite ?app_nil_r.
    + intro p. destruct (negb (truthy p)); [reflexivity|].
      change (Dot.onlyLetters p) with (Camel.onlyLetters p).
      destruct (truthy (Camel.onlyLetters p)) eqn:E; [|reflexivity].
      now apply pushWordChunk_letters.
Qed.

(** So does a token that neither function takes for an acronym. *)
Lemma pushToken_agree t :
  Camel.acronymRegex t || Camel.dottedAcronymRegex t = false ->
  Dot.acronymRegex t || Dot.dottedAcronymRegex t = false ->
  Camel.pushToken [] t = map wordUnit (Dot.pushToken [] t).
Proof.
  intros Hc Hd. unfold Camel.pushToken, Dot.pushToken. rewrite Hc, Hd.
  apply fold_left_pushes_map;
    [apply camel_pushPart_acc | apply dot_pushPart_acc | apply pushPart_agree].
Qed.

Lemma collect_agree tokens :
  Forall (fun t =>
            Camel.acronymRegex t || Camel.dottedAcronymRegex t = false
            /\ Dot.acronymRegex t || Dot.dottedAcronymRegex t = false) tokens ->
  Camel.collect tokens = map wordUnit (Dot.collect tokens).
Proof.
  rewrite camel_collect_flat_map, dot_collect_flat_map.
  induction 1 as [|t ts [Hc Hd] Hts IH]; [reflexivity|].
  simpl. now rewrite map_app, IH, pushToken_agree.
Qed.

End Agreement.

(** *** Plain tokens give lower-case words *)

Lemma Forall_fold_pushes_in (A B : Type) (P : A -> Prop)
  (f : list A -> B -> list A) (l : list B) :
  (forall acc b, f acc b = acc ++ f [] b) ->
  (forall b, In b l -> Forall P (f [] b)) ->
  Forall P (fold_left f l []).
Proof.
  intros Hf HP. rewrite (fold_left_pushes _ Hf). simpl.
  apply Forall_flat_map. apply Forall_forall. exact HP.
Qed.

Lemma fold_pushes_nonempty (A B : Type) (f : list A -> B -> list A)
  (l : list B) :
  (forall acc b, f acc b = acc ++ f [] b) ->
  Exists (fun b => f [] b <> []) l ->
  fold_left f l [] <> [].
Proof.
  intros Hf H. rewrite (fold_left_pushes _ Hf). simpl.
  induction H as [b l Hb | b l _ IH]; simpl; intro E;
    apply app_eq_nil in E as [E1 E2]; auto.
Qed.

Lemma lower_char_facts c : isLowerAZ c = true ->
  isAscii c = true /\ asciiLower c = c /\ c <> DOT.
Proof.
  intro H. destruct (alnum_lower_id c) as [Ha Hl]; [now rewrite H|].
  repeat split; auto. intros ->. discriminate H.
Qed.

Section PlainTokens.
Context {host : Host}.

Lemma isLetter_ascii c : isAscii c = true -> isLetter c = asciiLetter c.
Proof. intro H. unfold isLetter. now rewrite H. Qed.

Lemma keepLetters_ascii p : forall b,
  Forall (fun c => isAscii c = true) p ->
  replaceRuns (fun cp => negb (isLetter cp)) [] b (codeUnits p)
  = filter asciiLetter p.
Proof.
  induction p as [|c p IH]; intros b H; [reflexivity|].
  inversion H as [|? ? Hc Hp]; subst. simpl.
  rewrite (isLetter_ascii _ Hc).
  destruct (asciiLetter c); simpl; [f_equal; now apply IH|].
  destruct b; now apply IH.
Qed.

Lemma onlyLetters_ascii p :
  Forall (fun c => isAscii c = true) p ->
  Dot.onlyLetters p = filter asciiLetter p.
Proof.
  intro H. unfold Dot.onlyLetters. rewrite (codePoints_ascii H).
  now apply keepLetters_ascii.
Qed.

Lemma toLowerCase_letters p :
  toLowerCase (filter asciiLetter p) = map asciiLower (filter asciiLetter p)
  /\ Forall (fun c => isLowerAZ c = true)
       (map asciiLower (filter asciiLetter p)).
Proof.
  split.
  - apply toLowerCase_ascii. apply Forall_forall. intros c Hc.
    apply filter_In in Hc as [_ Hc]. now apply asciiLetter_facts in Hc.
  - apply Forall_map. apply Forall_forall. intros c Hc.
    apply filter_In in Hc as [_ Hc]. now apply asciiLetter_facts in Hc.
Qed.

Lemma toLowerCase_lower w :
  Forall (fun c => isLowerAZ c = true) w -> toLowerCase w = w.
Proof.
  intro H. rewrite toLowerCase_ascii.
  - rewrite <- (map_id w) at 2. apply map_ext_Forall.
    eapply Forall_impl; [|exact H]. intros c Hc.
    now apply lower_char_facts in Hc.
  - eapply Forall_impl; [|exact H]. intros c Hc.
    now apply lower_char_facts in Hc.
Qed.

Lemma dot_pieces_ascii part :
  Forall (fun c => isAscii c = true) part ->
  Forall (Forall (fun c => isAscii c = true))
    (splitWhiteSpace (dotsToSpaces part)).
Proof.
  intro H. apply Forall_splitRuns. apply Forall_replaceEach_units; auto.
Qed.

Lemma dot_pushPart_plain part :
  Forall (fun c => isAscii c = true) part -> digitsOnly part = false ->
  Forall lowerWord (Dot.pushPart [] part).
Proof.
  intros Ha Hd. unfold Dot.pushPart. rewrite Hd.
  apply Forall_fold_pushes_in.
  - intros acc p. destruct (negb (truthy p)); [now rewrite app_nil_r|].
    destruct (truthy (Dot.onlyLetters p)); now rewrite ?app_nil_r.
  - intros p Hp. destruct (negb (truthy p)); [constructor|]. simpl.
    pose proof (dot_pieces_ascii Ha) as Hpieces.
    rewrite Forall_forall in Hpieces. specialize (Hpieces p Hp).
    rewrite (onlyLetters_ascii Hpieces).
    destruct (truthy (filter asciiLetter p)) eqn:E; [|constructor].
    destruct (toLowerCase_letters p) as [-> Hlow].
    repeat constructor; [|assumption].
    destruct (filter asciiLetter p); [discriminate E | discriminate].
Qed.

Lemma dot_pushToken_part t :
  Forall plainChar t -> t <> [] ->
  Dot.acronymRegex t || Dot.dottedAcronymRegex t = false ->
  Dot.pushToken [] t = Dot.pushPart [] t /\ digitsOnly t = false.
Proof.
  intros Hp Ht Hacr.
  assert (Hnd : Forall (fun c => isDigit c = false) t).
  { eapply Forall_impl; [|exact Hp]. now intros c [_ Hc]. }
  split; [|now apply digitsOnly_plain].
  unfold Dot.pushToken. rewrite Hacr, (splitDigits_plain Hnd).
  destruct t; [congruence | reflexivity].
Qed.

Lemma dot_pushToken_plain t :
  Forall plainChar t -> t <> [] ->
  Dot.acronymRegex t || Dot.dottedAcronymRegex t = false ->
  Forall lowerWord (Dot.pushToken [] t).
Proof.
  intros Hp Ht Hacr.
  destruct (dot_pushToken_part Hp Ht Hacr) as [-> Hd].
  apply dot_pushPart_plain; [|assumption].
  eapply Forall_impl; [|exact Hp]. now intros c [Hc _].
Qed.

End PlainTokens.

(** *** A letter in the input ends up in a word *)

Lemma Exists_trimStart (Q : N -> Prop) s :
  (forall c, Q c -> isWhiteSpace c = false) ->
  Exists Q s -> Exists Q (trimStart s).
Proof.
  intros HQ H. induction H as [c r Hc | c r Hr IH]; simpl.
  - rewrite (HQ _ Hc). now constructor.
  - destruct (isWhiteSpace c); [assumption | now apply Exists_cons_tl].
Qed.

Lemma Exists_trim (Q : N -> Prop) s :
  (forall c, Q c -> isWhiteSpace c = false) ->
  Exists Q s -> Exists Q (trim s).
Proof.
  intros HQ H. unfold trim, trimEnd.
  apply Exists_rev, Exists_trimStart, Exists_rev, Exists_trimStart; auto.
Qed.

Lemma Exists_replaceRuns_units (Q : N -> Prop) cls rep s : forall b,
  (forall c, Q c -> cls c = false) ->
  Exists Q s -> Exists Q (replaceRuns cls rep b (codeUnits s)).
Proof.
  intros b HQ H. revert b.
  induction H as [c r Hc | c r Hr IH]; intro b; simpl.
  - rewrite (HQ _ Hc). now constructor.
  - destruct (cls c).
    + apply Exists_app. right. apply IH.
    + apply Exists_cons_tl, IH.
Qed.

Lemma Exists_replaceEach_units (Q : N -> Prop) cls rep s :
  (forall c, Q c -> cls c = false) ->
  Exists Q s -> Exists Q (replaceEach cls rep (codeUnits s)).
Proof.
  intros HQ H. induction H as [c r Hc | c r Hr IH]; simpl.
  - rewrite (HQ _ Hc). now constructor.
  - apply Exists_app. now right.
Qed.

Lemma Exists_consHead (Q : N -> Prop) c pieces :
  Exists (Exists Q) pieces -> Exists (Exists Q) (consHead c pieces).
Proof.
  intros [p ps Hp | p ps Hps]; simpl.
  - constructor. now apply Exists_cons_tl.
  - now apply Exists_cons_tl.
Qed.

Lemma Exists_splitRuns (Q : N -> Prop) sep s : forall b,
  (forall c, Q c -> sep c = false) ->
  Exists Q s -> Exists (Exists Q) (splitRuns sep b s).
Proof.
  intros b HQ H. revert b.
  induction H as [c r Hc | c r Hr IH]; intro b; simpl.
  - rewrite (HQ _ Hc). destruct (splitRuns sep false r); simpl;
      repeat constructor; assumption.
  - destruct (sep c).
    + destruct b; [apply IH | apply Exists_cons_tl, IH].
    + apply Exists_consHead, IH.
Qed.

Lemma Exists_filter_truthy (Q : N -> Prop) pieces :
  Exists (Exists Q) pieces -> Exists (Exists Q) (filter truthy pieces).
Proof.
  induction 1 as [p ps Hp | p ps Hps IH]; simpl.
  - destruct Hp; simpl; constructor; now constructor.
  - destruct (truthy p); [now apply Exists_cons_tl | assumption].
Qed.

Section Letters.
Context {host : Host}.

Lemma letter_kept c : asciiLetter c = true ->
  negb (isLetter c || isNumberChar c || isDot c || isWhiteSpace c) = false.
Proof.
  intro H. destruct (asciiLetter_facts c H) as (Ha & _).
  now rewrite (isLetter_ascii _ Ha), H.
Qed.

(** A letter of a trimmed ASCII input is in one of its tokens. *)
Lemma letter_in_token s :
  Forall (fun c => isAscii c = true) s ->
  Exists (fun c => asciiLetter c = true) s ->
  Exists (Exists (fun c => asciiLetter c = true)) (Dot.rawTokens s).
Proof.
  intros Ha H. unfold Dot.rawTokens, Dot.cleaned.
  rewrite (codePoints_ascii Ha).
  apply Exists_filter_truthy, Exists_splitRuns.
  - intros c Hc. now apply asciiLetter_facts in Hc.
  - apply Exists_replaceRuns_units; [|assumption].
    intros c Hc. now apply letter_kept.
Qed.

(** A part with a letter gives a word. *)
Lemma dot_pushPart_letter part :
  Forall (fun c => isAscii c = true) part -> digitsOnly part = false ->
  Exists (fun c => asciiLetter c = true) part ->
  Dot.pushPart [] part <> [].
Proof.
  intros Ha Hd H. unfold Dot.pushPart. rewrite Hd.
  apply fold_pushes_nonempty.
  - intros acc p. destruct (negb (truthy p)); [now rewrite app_nil_r|].
    destruct (truthy (Dot.onlyLetters p)); now rewrite ?app_nil_r.
  - assert (Hex : Exists (Exists (fun c => asciiLetter c = true))
                    (splitWhiteSpace (dotsToSpaces part))).
    { apply Exists_splitRuns.
      - intros c Hc. now apply asciiLetter_facts in Hc.
      - apply Exists_replaceEach_units; [|assumption].
        intros c Hc. now apply asciiLetter_facts in Hc. }
    pose proof (dot_pieces_ascii Ha) as Hpieces.
    rewrite Forall_forall in Hpieces.
    apply Exists_exists in Hex as (p & Hin & Hp).
    apply Exists_exists. exists p. split; [assumption|].
    rewrite (onlyLetters_ascii (Hpieces p Hin)).
    apply Exists_exists in Hp as (c & Hc & Hlet).
    assert (Hf : In c (filter asciiLetter p)) by now apply filter_In.
    destruct p as [|a p]; [destruct Hc|]. cbn [truthy isEmpty negb].
    destruct (filter asciiLetter (a :: p)); [destruct Hf | discriminate].
Qed.

End Letters.

(** *** Splitting what was joined *)

Lemma splitOn_app d w : forall r,
  Forall (fun c => c <> d) w ->
  splitOn d (w ++ r)
  = match splitOn d r with
    | p :: ps => (w ++ p) :: ps
    | [] => [w]
    end.
Proof.
  intros r H. induction H as [|c w Hc Hw IH]; simpl.
  - destruct r as [|a r]; [reflexivity|]. simpl.
    destruct (a =? d)%N; [reflexivity|].
    destruct (splitOn d r); reflexivity.
  - apply N.eqb_neq in Hc. rewrite Hc, IH.
    destruct (splitOn d r); reflexivity.
Qed.

Lemma splitOn_word d w : Forall (fun c => c <> d) w -> splitOn d w = [w].
Proof.
  intro H. rewrite <- (app_nil_r w) at 1. rewrite (splitOn_app [] H).
  simpl. now rewrite app_nil_r.
Qed.

Lemma splitOn_join d ws :
  ws <> [] -> Forall (Forall (fun c => c <> d)) ws ->
  splitOn d (join [d] ws) = ws.
Proof.
  intros Hne H. induction H as [|w ws Hw Hws IH]; [congruence|].
  destruct ws as [|w2 ws].
  - simpl. now apply splitOn_word.
  - change (join [d] (w :: w2 :: ws)) with (w ++ d :: join [d] (w2 :: ws)).
    rewrite (splitOn_app _ Hw). simpl. rewrite N.eqb_refl.
    rewrite app_nil_r. f_equal. apply IH. discriminate.
Qed.

(** *** Rendering lower-case words *)

Section RenderWords.
Context {host : Host}.

Lemma piece_first_word w :
  lowerWord w -> Camel.piece 0 (wordUnit w) = w.
Proof. intros [_ H]. simpl. now apply toLowerCase_lower. Qed.

Lemma piece_later_word w :
  lowerWord w -> Camel.piece 1 (wordUnit w) = capitalize w.
Proof.
  intros [Hne H]. destruct w as [|c r]; [congruence|].
  inversion H as [|? ? Hc Hr]; subst.
  unfold Camel.piece, wordUnit, capitalize. cbn [Nat.eqb type text charAt0 slice1 tl].
  rewrite (toLowerCase_lower Hr). unfold toUpperCase. simpl.
  destruct (lower_char_facts c Hc) as (-> & _). reflexivity.
Qed.

Lemma render_words words :
  Forall lowerWord words ->
  Camel.render 0 (map wordUnit words) [] = camelJoin words.
Proof.
  intros [|w ws Hw Hws]; [reflexivity|].
  cbn [map]. rewrite camel_render_cons, (piece_first_word Hw).
  unfold camelJoin. f_equal. f_equal. rewrite map_map.
  apply map_ext_Forall. eapply Forall_impl; [|exact Hws].
  intros a Ha. now apply piece_later_word.
Qed.

End RenderWords.

Lemma flat_map_nonempty (A B : Type) (f : A -> list B) l a :
  In a l -> f a <> [] -> flat_map f l <> [].
Proof.
  induction l as [|b l IH]; intros Hin Hf; [destruct Hin|].
  simpl. intro E. apply app_eq_nil in E as [E1 E2].
  destruct Hin as [-> | Hin]; [now apply Hf | now apply IH].
Qed.

(** C7, amended: for an input of ASCII characters without digits that
    has at least one letter and no token that either function takes for
    an acronym, [toCamelCase] and [toDotCase] collect the same non-empty
    sequence of lower-case words; splitting the result of [toDotCase] on
    ["."] gives these words, and the result of [toCamelCase] is the
    first of them followed by the others capitalized. *)
Theorem same_words_two_renderings (host : Host) (s : jsstring) :
  Forall plainChar s ->
  Exists (fun c => asciiLetter c = true) s ->
  Forall (fun t =>
            Camel.acronymRegex t || Camel.dottedAcronymRegex t = false
            /\ Dot.acronymRegex t || Dot.dottedAcronymRegex t = false)
    (Camel.rawTokens (trim s)) ->
  Camel.collect (Camel.rawTokens (trim s))
    = map wordUnit (Dot.collect (Dot.rawTokens (trim s)))
  /\ Dot.collect (Dot.rawTokens (trim s)) <> []
  /\ Forall lowerWord (Dot.collect (Dot.rawTokens (trim s)))
  /\ splitOn DOT (Dot.toDotCase (JSStr s))
     = Dot.collect (Dot.rawTokens (trim s))
  /\ Camel.toCamelCase (JSStr s)
     = camelJoin (Dot.collect (Dot.rawTokens (trim s))).
Proof.
  intros Hplain Hletter Hacr.
  change (Camel.rawTokens (trim s)) with (Dot.rawTokens (trim s)) in *.
  assert (Hp : Forall plainChar (trim s)) by now apply Forall_trim.
  assert (Ha : Forall (fun c => isAscii c = true) (trim s)).
  { eapply Forall_impl; [|exact Hp]. now intros c [Hc _]. }
  assert (Hl : Exists (fun c => asciiLetter c = true) (trim s)).
  { apply Exists_trim; [|assumption].
    intros c Hc. now apply asciiLetter_facts in Hc. }
  assert (Htp : Forall (Forall plainChar) (Dot.rawTokens (trim s))).
  { unfold Dot.rawTokens, Dot.cleaned. rewrite (codePoints_ascii Ha).
    apply Forall_filter, Forall_splitRuns, Forall_replaceRuns_units;
      [repeat constructor | assumption]. }
  assert (Htn : Forall (fun t => t <> []) (Dot.rawTokens (trim s)))
    by apply truthy_filter.
  rewrite Forall_forall in Hacr, Htp, Htn.
  assert (Hagree : Camel.collect (Dot.rawTokens (trim s))
            = map wordUnit (Dot.collect (Dot.rawTokens (trim s)))).
  { apply collect_agree. apply Forall_forall. exact Hacr. }
  assert (Hlow : Forall lowerWord (Dot.collect (Dot.rawTokens (trim s)))).
  { rewrite dot_collect_flat_map. apply Forall_flat_map, Forall_forall.
    intros t Ht. apply dot_pushToken_plain; auto. now apply Hacr. }
  assert (Hne : Dot.collect (Dot.rawTokens (trim s)) <> []).
  { pose proof (letter_in_token Ha Hl) as Hex.
    apply Exists_exists in Hex as (t & Ht & Htl).
    rewrite dot_collect_flat_map. apply (flat_map_nonempty _ _ _ Ht).
    destruct (dot_pushToken_part (Htp t Ht) (Htn t Ht) (proj2 (Hacr t Ht)))
      as [-> Hd].
    apply dot_pushPart_letter; [|assumption|assumption].
    eapply Forall_impl; [|exact (Htp t Ht)]. now intros c [Hc _]. }
  split; [exact Hagree | split; [exact Hne | split; [exact Hlow | split]]].
  - rewrite (@toDotCase_of_words host s Hne). apply splitOn_join; [assumption|].
    eapply Forall_impl; [|exact Hlow]. intros w [_ Hw].
    eapply Forall_impl; [|exact Hw]. intros c Hc.
    now apply lower_char_facts in Hc.
  - rewrite toCamelCase_of_units.
    + change (Camel.rawTokens (trim s)) with (Dot.rawTokens (trim s)).
      rewrite Hagree. now apply render_words.
    + change (Camel.rawTokens (trim s)) with (Dot.rawTokens (trim s)).
      rewrite Hagree. destruct (Dot.collect (Dot.rawTokens (trim s)));
        [congruence | discriminate].
Qed.

Lemma same_words_two_renderings_witness :
  @Camel.collect plainHost (@Camel.rawTokens plainHost (trim (str " Hello, big-World! ")))
    = map wordUnit [str "hello"; str "big"; str "world"]
  /\ splitOn DOT (@Dot.toDotCase plainHost (JSStr (str " Hello, big-World! ")))
    = [str "hello"; str "big"; str "world"]
  /\ @Camel.toCamelCase plainHost (JSStr (str " Hello, big-World! "))
    = str "helloBigWorld".
Proof.
  destruct (@same_words_two_renderings plainHost (str " Hello, big-World! "))
    as (H1 & _ & _ & H4 & H5).
  - repeat constructor.
  - right. left. reflexivity.
  - repeat constructor.
  - split; [exact H1 | split; [exact H4 | exact H5]].
Defined.

(** C7 as stated fails on an input without a letter: ["!"] is not empty,
    has no digit and no acronym (it has no token at all), both functions
    return the message for that, and splitting the message on ["."] does
    not give the empty list of words. *)
Lemma same_words_counterexample :
  str "!" <> []
  /\ Forall plainChar (str "!")
  /\ @Camel.rawTokens plainHost (trim (str "!")) = []
  /\ @Dot.rawTokens plainHost (trim (str "!")) = []
  /\ @Dot.collect plainHost (@Dot.rawTokens plainHost (trim (str "!"))) = []
  /\ @Dot.toDotCase plainHost (JSStr (str "!")) = ERR_NO_TOKENS
  /\ @Camel.toCamelCase plainHost (JSStr (str "!")) = ERR_NO_TOKENS
  /\ splitOn DOT (@Dot.toDotCase plainHost (JSStr (str "!")))
     <> @Dot.collect plainHost (@Dot.rawTokens plainHost (trim (str "!")))
  /\ @Camel.toCamelCase plainHost (JSStr (str "!"))
     <> camelJoin (@Dot.collect plainHost (@Dot.rawTokens plainHost (trim (str "!")))).
Proof.
  split; [discriminate|]. split; [repeat constructor|].
  repeat (split; [reflexivity|]).
  split; vm_compute; discriminate.
Qed.

(** * Further properties *)

(** ** [numberToWords]: chunks and phrases *)

Lemma join_cons sep (p : jsstring) rest :
  rest <> [] -> join sep (p :: rest) = p ++ sep ++ join sep rest.
Proof. destruct rest; [congruence | reflexivity]. Qed.

Lemma join_app sep (a b : list jsstring) :
  a <> [] -> b <> [] ->
  join sep (a ++ b) = join sep a ++ sep ++ join sep b.
Proof.
  intros Ha Hb. induction a as [|p a IH]; [congruence|].
  destruct a as [|q a].
  - simpl app. now rewrite join_cons.
  - change ((p :: q :: a) ++ b) with (p :: ((q :: a) ++ b)).
    rewrite join_cons by discriminate. rewrite IH by discriminate.
    rewrite (join_cons sep p (rest := q :: a)) by discriminate.
    now rewrite <- !app_assoc.
Qed.

Lemma splitOn_nonempty d s : splitOn d s <> [].
Proof.
  destruct s as [|c r]; simpl; [discriminate|].
  destruct (c =? d)%N; [discriminate|].
  destruct (splitOn d r); discriminate.
Qed.

(** Joining what was split gives the string back. *)
Lemma join_splitOn d s : join [d] (splitOn d s) = s.
Proof.
  induction s as [|c r IH]; [reflexivity|]. simpl.
  destruct (N.eqb_spec c d) as [-> | Hc].
  - rewrite join_cons by apply splitOn_nonempty. now rewrite IH.
  - pose proof (splitOn_nonempty d r) as Hne.
    destruct (splitOn d r) as [|w ws]; [congruence|]. simpl consHead.
    rewrite <- IH. destruct ws; reflexivity.
Qed.

Lemma isLowerWord_lowerWord w : isLowerWord w = true -> lowerWord w.
Proof.
  unfold isLowerWord. intro H. apply andb_prop in H as [Hne Hw]. split.
  - destruct w; [discriminate Hne | discriminate].
  - apply Forall_forall. now apply forallb_forall.
Qed.

Lemma isPhrase_phrase s : isPhrase s = true -> phrase s.
Proof.
  unfold isPhrase. intro H. exists (splitOn SPACE s).
  split; [apply splitOn_nonempty|]. split.
  - apply Forall_forall. intros w Hw. apply isLowerWord_lowerWord.
    rewrite forallb_forall in H. now apply H.
  - symmetry. apply join_splitOn.
Qed.

Lemma phrase_app a b : phrase a -> phrase b -> phrase (a ++ [SPACE] ++ b).
Proof.
  intros (wa & Hna & Hwa & ->) (wb & Hnb & Hwb & ->).
  exists (wa ++ wb). split; [|split].
  - destruct wa; [congruence | discriminate].
  - apply Forall_app. now split.
  - now rewrite join_app.
Qed.

Lemma phrase_join ps :
  ps <> [] -> Forall phrase ps -> phrase (join [SPACE] ps).
Proof.
  intros Hne H. induction H as [|p ps Hp Hps IH]; [congruence|].
  destruct ps as [|q ps]; [exact Hp|].
  rewrite join_cons by discriminate.
  apply phrase_app; [assumption | apply IH; discriminate].
Qed.

Lemma underThousand_checked :
  forallb (fun k => isPhrase (underThousand (Z.of_nat k))) (seq 0 1000) = true.
Proof. vm_compute. reflexivity. Qed.

Lemma underThousand_phrase n :
  (0 <= n < 1000)%Z -> phrase (underThousand n).
Proof.
  intro Hn. apply isPhrase_phrase.
  pose proof underThousand_checked as H. rewrite forallb_forall in H.
  specialize (H (Z.to_nat n)). rewrite Z2Nat.id in H by lia.
  apply H. apply in_seq. lia.
Qed.

Lemma scaleStep_chunk v nm c rest out :
  (0 <= c)%Z -> (0 <= rest < v)%Z ->
  scaleStep (c * v + rest, out)%Z {| value := v; name := nm |}
  = (rest, out ++ chunkWords c nm).
Proof.
  intros Hc Hrest. unfold scaleStep, chunkWords. cbn [value name].
  destruct (Z.ltb_spec 0 c) as [Hpos | Hzero].
  - destruct (Z.leb_spec v (c * v + rest)) as [_ | Hlt]; [|nia].
    f_equal.
    + symmetry. apply (Z.mod_unique_pos _ _ c); lia.
    + do 3 f_equal. symmetry. apply (Z.div_unique_pos _ _ _ rest); lia.
  - assert (c = 0%Z) by lia. subst c. rewrite Z.mul_0_l, Z.add_0_l.
    destruct (Z.leb_spec v rest); [lia|]. now rewrite app_nil_r.
Qed.

(** The four chunks of a number below 10^12 and what each contributes. *)
Lemma numberToWords_chunks (host : Host) b m t r :
  (0 <= b < 1000)%Z -> (0 <= m < 1000)%Z -> (0 <= t < 1000)%Z ->
  (0 <= r < 1000)%Z -> (0 < b + m + t + r)%Z ->
  numberToWords
    (JSNum (Int (b * 1000000000 + (m * 1000000 + (t * 1000 + r)))))
  = join (str " ")
      (chunkWords b (str "billion") ++ chunkWords m (str "million")
       ++ chunkWords t (str "thousand")
       ++ (if (0 <? r)%Z then [underThousand r] else [])).
Proof.
  intros Hb Hm Ht Hr Hpos. unfold numberToWords.
  set (z := (b * 1000000000 + (m * 1000000 + (t * 1000 + r)))%Z).
  destruct (Z.ltb_spec z 0); [subst z; lia|].
  destruct (Z.leb_spec MAX z); [unfold MAX in *; subst z; lia|].
  destruct (Z.eqb_spec z 0); [subst z; lia|].
  subst z. unfold scales. cbn [fold_left].
  rewrite scaleStep_chunk by lia.
  rewrite scaleStep_chunk by lia.
  rewrite scaleStep_chunk by lia.
  cbn [app]. destruct (0 <? r)%Z; now rewrite <- ?app_assoc, ?app_nil_r.
Qed.

Lemma chunks_of z :
  (0 < z < MAX)%Z ->
  let b := (z / 1000000000)%Z in
  let m := (z / 1000000 mod 1000)%Z in
  let t := (z / 1000 mod 1000)%Z in
  let r := (z mod 1000)%Z in
  (0 <= b < 1000)%Z /\ (0 <= m < 1000)%Z /\ (0 <= t < 1000)%Z
  /\ (0 <= r < 1000)%Z /\ (0 < b + m + t + r)%Z
  /\ z = (b * 1000000000 + (m * 1000000 + (t * 1000 + r)))%Z.
Proof.
  intros Hz b m t r. unfold MAX in Hz.
  pose proof (Z.div_mod z 1000 ltac:(lia)) as E1.
  pose proof (Z.div_mod (z / 1000) 1000 ltac:(lia)) as E2.
  pose proof (Z.div_mod (z / 1000 / 1000) 1000 ltac:(lia)) as E3.
  pose proof (Z.mod_pos_bound z 1000 ltac:(lia)) as B1.
  pose proof (Z.mod_pos_bound (z / 1000) 1000 ltac:(lia)) as B2.
  pose proof (Z.mod_pos_bound (z / 1000 / 1000) 1000 ltac:(lia)) as B3.
  assert (D2 : (z / 1000000 = z / 1000 / 1000)%Z)
    by (rewrite Z.div_div by lia; reflexivity).
  assert (D3 : (z / 1000000000 = z / 1000 / 1000 / 1000)%Z)
    by (rewrite !Z.div_div by lia; reflexivity).
  assert (Hb : (0 <= z / 1000 / 1000 / 1000 < 1000)%Z).
  { split; [repeat apply Z.div_pos; lia|].
    rewrite <- D3. apply Z.div_lt_upper_bound; lia. }
  subst b m t r. rewrite D2, D3. lia.
Qed.

(** X1: the words of a number between 1 and 10^12 - 1 are those of its
    billions, millions, thousands and units, each chunk spelled by
    [underThousand] and followed by the name of its scale; a chunk that
    is zero contributes nothing. *)
Theorem numberToWords_by_chunks (host : Host) (z : Z) :
  (0 < z < MAX)%Z ->
  numberToWords (JSNum (Int z))
  = join (str " ")
      (chunkWords (z / 1000000000) (str "billion")
       ++ chunkWords (z / 1000000 mod 1000) (str "million")
       ++ chunkWords (z / 1000 mod 1000) (str "thousand")
       ++ (if (0 <? z mod 1000)%Z then [underThousand (z mod 1000)] else [])).
Proof.
  intro Hz. destruct (chunks_of Hz) as (Hb & Hm & Ht & Hr & Hpos & E).
  rewrite E at 1. now apply numberToWords_chunks.
Qed.

Lemma numberToWords_by_chunks_witness :
  @numberToWords plainHost (JSNum (Int 5000012))
  = join (str " ")
      [str "five"; str "million"; str "twelve"].
Proof.
  exact (@numberToWords_by_chunks plainHost 5000012
           ltac:(unfold MAX; lia)).
Defined.

Lemma chunkWords_phrases c nm :
  (0 <= c < 1000)%Z -> phrase nm -> Forall phrase (chunkWords c nm).
Proof.
  intros Hc Hnm. unfold chunkWords. destruct (0 <? c)%Z; [|constructor].
  repeat constructor; [now apply underThousand_phrase | assumption].
Qed.

Lemma phrase_of_numberToWords (host : Host) z :
  (0 <= z < MAX)%Z -> phrase (numberToWords (JSNum (Int z))).
Proof.
  intro Hz. destruct (Z.eq_dec z 0) as [-> | Hnz].
  - apply isPhrase_phrase. reflexivity.
  - assert (Hpos : (0 < z < MAX)%Z) by lia.
    destruct (chunks_of Hpos) as (Hb & Hm & Ht & Hr & Hsum & E).
    rewrite E at 1. rewrite numberToWords_chunks by assumption.
    apply phrase_join.
    + unfold chunkWords.
      destruct (Z.ltb_spec 0 (z / 1000000000)); [discriminate|].
      destruct (Z.ltb_spec 0 (z / 1000000 mod 1000)); [discriminate|].
      destruct (Z.ltb_spec 0 (z / 1000 mod 1000)); [discriminate|].
      destruct (Z.ltb_spec 0 (z mod 1000)); [discriminate | lia].
    + repeat (apply Forall_app; split);
        try (apply chunkWords_phrases;
             [assumption | apply isPhrase_phrase; reflexivity]).
      destruct (0 <? z mod 1000)%Z; repeat constructor.
      now apply underThousand_phrase.
Qed.

(** X2: for every integer from 0 to 10^12 - 1, [numberToWords] returns a
    non-empty sequence of non-empty lower-case words joined by single
    spaces: no other character, no space at either end, no double
    space. *)
Theorem numberToWords_phrase (host : Host) (z : Z) :
  (0 <= z < MAX)%Z -> phrase (numberToWords (JSNum (Int z))).
Proof. apply phrase_of_numberToWords. Qed.

Lemma numberToWords_phrase_witness :
  phrase (@numberToWords plainHost (JSNum (Int 999999999999))).
Proof.
  apply (@numberToWords_phrase plainHost 999999999999). unfold MAX. lia.
Defined.

(** ** [numberToWords]: different numbers, different phrases *)

Lemma splitOn_app_sep d a : forall b,
  splitOn d (a ++ d :: b) = splitOn d a ++ splitOn d b.
Proof.
  induction a as [|c a IH]; intro b; simpl.
  - now rewrite N.eqb_refl.
  - rewrite IH. destruct (c =? d)%N; [reflexivity|].
    pose proof (splitOn_nonempty d a) as Hne.
    destruct (splitOn d a); [congruence | reflexivity].
Qed.

Lemma splitOn_join_concat d (l : list jsstring) :
  l <> [] -> splitOn d (join [d] l) = concat (map (splitOn d) l).
Proof.
  intro Hne. induction l as [|p l IH]; [congruence|].
  destruct l as [|q l].
  - simpl. now rewrite app_nil_r.
  - rewrite join_cons by discriminate. cbn [app].
    rewrite splitOn_app_sep, IH by discriminate. reflexivity.
Qed.

Lemma readStep_chunk ws : forall total cur,
  forallb (fun w => match scaleValue w with None => true | Some _ => false end)
    ws = true ->
  fold_left readStep ws (total, cur) = (total, fold_left readWord ws cur).
Proof.
  induction ws as [|w ws IH]; intros total cur H; [reflexivity|].
  simpl in H. apply andb_prop in H as [Hw Hws].
  cbn [fold_left]. unfold readStep at 2.
  destruct (scaleValue w); [discriminate Hw|]. now apply IH.
Qed.

Lemma chunks_checked : forallb isChunkPhrase (seq 1 999) = true.
Proof. vm_compute. reflexivity. Qed.

Lemma read_underThousand c total :
  (0 < c < 1000)%Z ->
  fold_left readStep (splitOn SPACE (underThousand c)) (total, 0%Z)
  = (total, c).
Proof.
  intro Hc. pose proof chunks_checked as H. rewrite forallb_forall in H.
  assert (Hin : In (Z.to_nat c) (seq 1 999)) by (apply in_seq; lia).
  specialize (H _ Hin). unfold isChunkPhrase in H.
  rewrite Z2Nat.id in H by lia. apply andb_prop in H as [Hno Hval].
  rewrite (readStep_chunk _ _ _ Hno). apply Z.eqb_eq in Hval. now rewrite Hval.
Qed.

Lemma read_chunkWords c nm v total :
  (0 <= c < 1000)%Z -> scaleValue nm = Some v -> splitOn SPACE nm = [nm] ->
  forall rest,
  fold_left readStep
    (concat (map (splitOn SPACE) (chunkWords c nm)) ++ rest) (total, 0%Z)
  = fold_left readStep rest ((total + c * v)%Z, 0%Z).
Proof.
  intros Hc Hv Hnm rest. unfold chunkWords.
  destruct (Z.ltb_spec 0 c) as [Hpos | Hzero].
  - cbn [map concat]. rewrite Hnm, app_nil_r, <- app_assoc.
    rewrite fold_left_app, read_underThousand by lia.
    cbn [app fold_left]. unfold readStep at 2. now rewrite Hv.
  - assert (c = 0%Z) by lia. subst c. cbn [map concat app].
    now rewrite Z.mul_0_l, Z.add_0_r.
Qed.

(** Reading back what [numberToWords] wrote gives the number. *)
Lemma readNumber_numberToWords (host : Host) z :
  (0 <= z < MAX)%Z -> readNumber (numberToWords (JSNum (Int z))) = z.
Proof.
  intro Hz. destruct (Z.eq_dec z 0) as [-> | Hnz]; [reflexivity|].
  assert (Hpos : (0 < z < MAX)%Z) by lia.
  destruct (chunks_of Hpos) as (Hb & Hm & Ht & Hr & Hsum & E).
  set (b := (z / 1000000000)%Z) in *.
  set (m := (z / 1000000 mod 1000)%Z) in *.
  set (t := (z / 1000 mod 1000)%Z) in *.
  set (r := (z mod 1000)%Z) in *.
  rewrite E at 1. rewrite numberToWords_chunks by assumption.
  unfold readNumber. change (str " ") with [SPACE].
  rewrite splitOn_join_concat.
  - rewrite !map_app, !concat_app.
    rewrite (read_chunkWords (v := 1000000000%Z)) by (assumption || reflexivity).
    rewrite (read_chunkWords (v := 1000000%Z)) by (assumption || reflexivity).
    rewrite (read_chunkWords (v := 1000%Z)) by (assumption || reflexivity).
    destruct (Z.ltb_spec 0 r) as [Hrp | Hrz].
    + cbn [map concat]. rewrite app_nil_r, read_underThousand by lia. lia.
    + cbn [map concat fold_left]. lia.
  - unfold chunkWords.
    destruct (Z.ltb_spec 0 b); [discriminate|].
    destruct (Z.ltb_spec 0 m); [discriminate|].
    destruct (Z.ltb_spec 0 t); [discriminate|].
    destruct (Z.ltb_spec 0 r); [discriminate | lia].
Qed.

(** X3: [numberToWords] tells the integers from 0 to 10^12 - 1 apart:
    two of them with the same phrase are equal. *)
Theorem numberToWords_injective (host : Host) (z1 z2 : Z) :
  (0 <= z1 < MAX)%Z -> (0 <= z2 < MAX)%Z ->
  numberToWords (JSNum (Int z1)) = numberToWords (JSNum (Int z2)) ->
  z1 = z2.
Proof.
  intros H1 H2 E.
  rewrite <- (readNumber_numberToWords host H1), E.
  now apply readNumber_numberToWords.
Qed.

Lemma numberToWords_injective_witness :
  @numberToWords plainHost (JSNum (Int 40))
  = @numberToWords plainHost (JSNum (Int (8 * 5)))
  /\ (40 = 8 * 5)%Z.
Proof.
  split; [reflexivity|].
  apply (@numberToWords_injective plainHost 40 (8 * 5));
    [unfold MAX; lia | unfold MAX; lia | reflexivity].
Defined.

(** ** White space around the input *)

Lemma trimStart_ws w : allWhiteSpace w -> forall s,
  trimStart (w ++ s) = trimStart s.
Proof.
  induction 1 as [|c w Hc Hw IH]; intro s; [reflexivity|].
  simpl. now rewrite Hc.
Qed.

Lemma trimStart_all_ws w : allWhiteSpace w -> trimStart w = [].
Proof.
  intro H. rewrite <- (app_nil_r w). now rewrite trimStart_ws.
Qed.

Lemma trimStart_app s w :
  trimStart (s ++ w) = trimStart s ++ w
  \/ (trimStart s = [] /\ trimStart (s ++ w) = trimStart w).
Proof.
  induction s as [|c s IH]; [now right|]. simpl.
  destruct (isWhiteSpace c); [exact IH | now left].
Qed.

Lemma trimEnd_ws w : allWhiteSpace w -> forall s,
  trimEnd (s ++ w) = trimEnd s.
Proof.
  intros H s. unfold trimEnd. rewrite rev_app_distr.
  rewrite trimStart_ws; [reflexivity|]. now apply Forall_rev.
Qed.

Lemma trimEnd_all_ws w : allWhiteSpace w -> trimEnd w = [].
Proof.
  intro H. unfold trimEnd. rewrite trimStart_all_ws; [reflexivity|].
  now apply Forall_rev.
Qed.

(** [trim] does not see white space around its argument. *)
Lemma trim_surrounded w1 s w2 :
  allWhiteSpace w1 -> allWhiteSpace w2 -> trim (w1 ++ s ++ w2) = trim s.
Proof.
  intros H1 H2. unfold trim. rewrite (trimStart_ws H1).
  destruct (trimStart_app s w2) as [E | [E1 E2]].
  - rewrite E. now apply trimEnd_ws.
  - rewrite E1, E2, (trimStart_all_ws H2). reflexivity.
Qed.

Lemma trimStart_nil x : trimStart x = [] -> allWhiteSpace x.
Proof.
  induction x as [|c x IH]; simpl; intro H; [constructor|].
  destruct (isWhiteSpace c) eqn:E; [|discriminate H].
  constructor; [exact E | exact (IH H)].
Qed.

Lemma trimStart_head s : allWhiteSpace (trimStart s) -> trimStart s = [].
Proof.
  induction s as [|c s IH]; simpl; [reflexivity|].
  destruct (isWhiteSpace c) eqn:E; [exact IH|].
  intro H. inversion H as [|? ? Hc _]. congruence.
Qed.

(** The trimmed input is empty exactly when the input is white space. *)
Lemma trim_nil_iff s : trim s = [] <-> allWhiteSpace s.
Proof.
  split.
  - intro H. unfold trim, trimEnd in H.
    apply (f_equal (@rev N)) in H. rewrite rev_involutive in H. simpl in H.
    apply trimStart_nil, Forall_rev in H. rewrite rev_involutive in H.
    now apply trimStart_nil, trimStart_head.
  - intro H. unfold trim. rewrite (trimStart_all_ws H). reflexivity.
Qed.

(** X4: [toCamelCase], [toDotCase] and [toKebabCase] do not see white
    space before and after their input. *)
Theorem surrounding_white_space_ignored (host : Host) (w1 s w2 : jsstring) :
  allWhiteSpace w1 -> allWhiteSpace w2 ->
  Camel.toCamelCase (JSStr (w1 ++ s ++ w2)) = Camel.toCamelCase (JSStr s)
  /\ Dot.toDotCase (JSStr (w1 ++ s ++ w2)) = Dot.toDotCase (JSStr s)
  /\ toKebabCase (JSStr (w1 ++ s ++ w2)) = toKebabCase (JSStr s).
Proof.
  intros H1 H2. pose proof (trim_surrounded s H1 H2) as E.
  split; [|split].
  - unfold Camel.toCamelCase. now rewrite E.
  - unfold Dot.toDotCase. now rewrite E.
  - unfold toKebabCase. rewrite !jsstring_eqb_nil, E.
    destruct s as [|c s].
    + destruct (isEmpty (w1 ++ [] ++ w2)); reflexivity.
    + destruct w1; reflexivity.
Qed.

Lemma surrounding_white_space_ignored_witness :
  @Camel.toCamelCase plainHost (JSStr (str "  " ++ str "big world" ++ str " "))
  = @Camel.toCamelCase plainHost (JSStr (str "big world"))
  /\ @toKebabCase plainHost (JSStr (str "  " ++ str "big world" ++ str " "))
  = @toKebabCase plainHost (JSStr (str "big world")).
Proof.
  destruct (@surrounding_white_space_ignored plainHost
              (str "  ") (str "big world") (str " ")) as (H1 & _ & H3).
  - repeat constructor.
  - repeat constructor.
  - split; [exact H1 | exact H3].
Defined.

(** ** An input with a letter is never rejected *)

Lemma letter_not_surrogate c : asciiLetter c = true ->
  isHighSurrogate c = false /\ isLowSurrogate c = false.
Proof.
  intro H. apply asciiLetter_range in H.
  unfold isHighSurrogate, isLowSurrogate. split; char_false.
Qed.

(** A letter of the string is a character of its own for [codePoints]. *)
Lemma codePoints_letter s : forall n, (length s <= n)%nat ->
  Exists (fun c => asciiLetter c = true) s ->
  Exists (fun ch : rchar => asciiLetter (fst ch) = true /\ snd ch = [fst ch])
    (codePoints s).
Proof.
  intros n; revert s. induction n as [|n IH]; intros s Hn H.
  - destruct s; [inversion H | simpl in Hn; lia].
  - destruct s as [|h [|l t]]; [inversion H | |].
    + inversion H as [? ? Hh | ? ? Hr]; subst; [|inversion Hr].
      constructor. now split.
    + rewrite codePoints_cons2.
      destruct (isHighSurrogate h && isLowSurrogate l) eqn:E.
      * apply andb_prop in E as [Eh El]. apply Exists_cons_tl.
        apply IH; [simpl in Hn; lia|].
        inversion H as [? ? Hh | ? ? Hr]; subst.
        -- apply letter_not_surrogate in Hh. destruct Hh; congruence.
        -- inversion Hr as [? ? Hl | ? ? Ht]; subst; [|assumption].
           apply letter_not_surrogate in Hl. destruct Hl; congruence.
      * inversion H as [? ? Hh | ? ? Hr]; subst.
        -- constructor. now split.
        -- apply Exists_cons_tl. apply IH; [simpl in *; lia | assumption].
Qed.

Lemma Exists_replaceRuns (cls : N -> bool) rep cs : forall b,
  (forall c, asciiLetter c = true -> cls c = false) ->
  Exists (fun ch : rchar => asciiLetter (fst ch) = true /\ snd ch = [fst ch])
    cs ->
  Exists (fun c => asciiLetter c = true) (replaceRuns cls rep b cs).
Proof.
  intros b Hcls H. revert b.
  induction H as [[cp us] cs [Hl Hus] | [cp us] cs Hcs IH]; intro b;
    simpl in *.
  - subst us. rewrite (Hcls _ Hl). now constructor.
  - destruct (cls cp).
    + apply Exists_app. right. apply IH.
    + apply Exists_app. right. apply IH.
Qed.

Lemma Exists_splitDigits (Q : N -> Prop) s : forall b,
  (forall c, Q c -> isDigit c = false) ->
  Exists Q s -> Exists (Exists Q) (splitDigitsFrom b s).
Proof.
  intros b HQ H. revert b.
  induction H as [c r Hc | c r Hr IH]; intro b; simpl.
  - rewrite (HQ _ Hc).
    assert (Hhead : Exists (Exists Q) (consHead c (splitDigitsFrom false r))).
    { destruct (splitDigitsFrom false r); simpl; repeat constructor;
        assumption. }
    destruct b; [now apply Exists_cons_tl | assumption].
  - destruct (isDigit c), b;
      repeat (first [apply Exists_consHead | apply Exists_cons_tl]);
      apply IH.
Qed.

Lemma digitsOnly_letter p :
  Exists (fun c => asciiLetter c = true) p -> digitsOnly p = false.
Proof.
  intro H. unfold digitsOnly. apply andb_false_iff. right.
  apply not_true_is_false. intro Hall. rewrite forallb_forall in Hall.
  apply Exists_exists in H as (c & Hin & Hc).
  apply asciiLetter_facts in Hc. specialize (Hall c Hin).
  destruct Hc as (_ & _ & _ & Hd & _). congruence.
Qed.

Section NeverRejected.
Context {host : Host}.

Lemma letter_is_letter c : asciiLetter c = true -> isLetter c = true.
Proof.
  intro H. destruct (asciiLetter_facts c H) as (Ha & _).
  now rewrite (isLetter_ascii _ Ha).
Qed.

Lemma onlyLetters_letter p :
  Exists (fun c => asciiLetter c = true) p ->
  truthy (Dot.onlyLetters p) = true.
Proof.
  intro H. unfold Dot.onlyLetters.
  assert (Hex : Exists (fun c => asciiLetter c = true)
            (replaceRuns (fun cp => negb (isLetter cp)) [] false
               (codePoints p))).
  { apply Exists_replaceRuns.
    - intros c Hc. now rewrite (letter_is_letter _ Hc).
    - exact (codePoints_letter (le_n _) H). }
  destruct Hex; reflexivity.
Qed.

(** A part with a letter pushes a word, whatever else it holds. *)
Lemma dot_pushPart_has_letter part :
  Exists (fun c => asciiLetter c = true) part -> Dot.pushPart [] part <> [].
Proof.
  intro H. unfold Dot.pushPart. rewrite (digitsOnly_letter H).
  apply fold_pushes_nonempty.
  - intros acc p. destruct (negb (truthy p)); [now rewrite app_nil_r|].
    destruct (truthy (Dot.onlyLetters p)); now rewrite ?app_nil_r.
  - assert (Hex : Exists (Exists (fun c => asciiLetter c = true))
                    (splitWhiteSpace (dotsToSpaces part))).
    { apply Exists_splitRuns.
      - intros c Hc. now apply asciiLetter_facts in Hc.
      - apply Exists_replaceEach_units; [|assumption].
        intros c Hc. now apply asciiLetter_facts in Hc. }
    apply Exists_exists in Hex as (p & Hin & Hp).
    apply Exists_exists. exists p. split; [assumption|].
    rewrite (onlyLetters_letter Hp).
    destruct Hp; cbn [truthy isEmpty negb]; discriminate.
Qed.

Lemma parts_have_letter t :
  Exists (fun c => asciiLetter c = true) t ->
  Exists (fun part => Dot.pushPart [] part <> [])
    (filter truthy (splitDigits t)).
Proof.
  intro H.
  assert (Hex : Exists (Exists (fun c => asciiLetter c = true))
                  (filter truthy (splitDigits t))).
  { apply Exists_filter_truthy, Exists_splitDigits; [|assumption].
    intros c Hc. now apply asciiLetter_facts in Hc. }
  eapply Exists_impl; [|exact Hex]. intros p Hp.
  now apply dot_pushPart_has_letter.
Qed.

Lemma dot_pushToken_has_letter t :
  Exists (fun c => asciiLetter c = true) t -> Dot.pushToken [] t <> [].
Proof.
  intro H. unfold Dot.pushToken.
  destruct (Dot.acronymRegex t || Dot.dottedAcronymRegex t);
    [discriminate|].
  apply fold_pushes_nonempty; [apply dot_pushPart_acc|].
  now apply parts_have_letter.
Qed.

Lemma camel_pushToken_has_letter t :
  Exists (fun c => asciiLetter c = true) t -> Camel.pushToken [] t <> [].
Proof.
  intro H. unfold Camel.pushToken.
  destruct (Camel.acronymRegex t || Camel.dottedAcronymRegex t);
    [discriminate|].
  apply fold_pushes_nonempty; [apply camel_pushPart_acc|].
  eapply Exists_impl; [|exact (parts_have_letter H)].
  intros p Hp. cbv beta in Hp. rewrite pushPart_agree.
  destruct (Dot.pushPart [] p); [congruence | discriminate].
Qed.

(** A letter of the trimmed input is in one of its tokens. *)
Lemma letter_in_some_token s :
  Exists (fun c => asciiLetter c = true) s ->
  Exists (Exists (fun c => asciiLetter c = true)) (Dot.rawTokens s).
Proof.
  intro H. unfold Dot.rawTokens, Dot.cleaned.
  apply Exists_filter_truthy, Exists_splitRuns.
  - intros c Hc. now apply asciiLetter_facts in Hc.
  - apply Exists_replaceRuns.
    + intros c Hc. now rewrite (letter_is_letter _ Hc).
    + exact (codePoints_letter (le_n _) H).
Qed.

End NeverRejected.

(** X5: an input with at least one ASCII letter is never rejected:
    whatever else it contains, [toCamelCase] and [toDotCase] collect at
    least one unit from it and return the rendering of the units. *)
Theorem letter_never_rejected (host : Host) (s : jsstring) :
  Exists (fun c => asciiLetter c = true) s ->
  Camel.collect (Camel.rawTokens (trim s)) <> []
  /\ Camel.toCamelCase (JSStr s)
     = Camel.render 0 (Camel.collect (Camel.rawTokens (trim s))) []
  /\ Dot.collect (Dot.rawTokens (trim s)) <> []
  /\ Dot.toDotCase (JSStr s)
     = join [DOT] (Dot.collect (Dot.rawTokens (trim s))).
Proof.
  intro H.
  assert (Hl : Exists (fun c => asciiLetter c = true) (trim s)).
  { apply Exists_trim; [|assumption].
    intros c Hc. now apply asciiLetter_facts in Hc. }
  pose proof (letter_in_some_token Hl) as Hex.
  apply Exists_exists in Hex as (t & Ht & Htl).
  assert (Hc : Camel.collect (Camel.rawTokens (trim s)) <> []).
  { rewrite camel_collect_flat_map.
    apply (flat_map_nonempty _ _ _ Ht). now apply camel_pushToken_has_letter. }
  assert (Hd : Dot.collect (Dot.rawTokens (trim s)) <> []).
  { rewrite dot_collect_flat_map.
    apply (flat_map_nonempty _ _ _ Ht). now apply dot_pushToken_has_letter. }
  split; [exact Hc | split; [|split; [exact Hd|]]].
  - now apply toCamelCase_of_units.
  - now apply toDotCase_of_words.
Qed.

Lemma letter_never_rejected_witness :
  @Camel.toCamelCase plainHost (JSStr (str "?? 7x.. !"))
  = @Camel.render plainHost 0
      (@Camel.collect plainHost (@Camel.rawTokens plainHost
         (trim (str "?? 7x.. !")))) [].
Proof.
  apply (@letter_never_rejected plainHost (str "?? 7x.. !")).
  do 4 right. left. reflexivity.
Defined.

(** ** Inputs without letters and digits are rejected *)

Lemma dot_facts c : isDot c = true ->
  isWhiteSpace c = false /\ isDigit c = false /\ isUpperAZ c = false
  /\ isAscii c = true /\ asciiLetter c = false.
Proof.
  intro H. apply N.eqb_eq in H. subst c. repeat split; reflexivity.
Qed.

Lemma splitRuns_all_sep sep w : forall b,
  Forall (fun c => sep c = true) w ->
  filter truthy (splitRuns sep b w) = [].
Proof.
  induction w as [|c w IH]; intros b H; [reflexivity|].
  inversion H as [|? ? Hc Hw]; subst. simpl. rewrite Hc.
  destruct b; simpl; now apply IH.
Qed.

Lemma splitRuns_no_sep sep s : forall b,
  Forall (Forall (fun c => sep c = false)) (splitRuns sep b s).
Proof.
  induction s as [|c s IH]; intro b; simpl; [repeat constructor|].
  destruct (sep c) eqn:E.
  - destruct b; [apply IH | constructor; [constructor | apply IH]].
  - apply Forall_consHead; [assumption | apply IH].
Qed.

Lemma fold_left_skips (A B : Type) (f : A -> B -> A) (l : list B) :
  (forall acc b, In b l -> f acc b = acc) ->
  forall acc, fold_left f l acc = acc.
Proof.
  induction l as [|b l IH]; intros Hf acc; [reflexivity|]. simpl.
  rewrite Hf by now left. apply IH. intros a b' Hb'. apply Hf. now right.
Qed.

Lemma flat_map_nil (A B : Type) (f : A -> list B) l :
  Forall (fun a => f a = []) l -> flat_map f l = [].
Proof.
  induction 1 as [|a l Ha Hl IH]; [reflexivity|]. simpl. now rewrite Ha, IH.
Qed.

Lemma acronymFrom_dots t :
  t <> [] -> Forall (fun c => isDot c = true) t -> acronymFrom 0 t = false.
Proof.
  intros Hne H. destruct H as [|c r Hc _]; [congruence|]. simpl.
  destruct (dot_facts c Hc) as (_ & _ & -> & _). now rewrite Hc.
Qed.

Lemma dottedFrom_dots t :
  Forall (fun c => isDot c = true) t ->
  Camel.dottedFrom 0 t = false /\ Dot.dottedFrom 0 t = false.
Proof.
  intro H. destruct H as [|c r Hc Hr]; [split; reflexivity|].
  destruct (dot_facts c Hc) as (_ & _ & Hu & _).
  destruct r; simpl; rewrite ?Hu; split; reflexivity.
Qed.

Section Rejected.
Context {host : Host}.

Lemma symbol_class c : symbolChar c ->
  negb (isLetter c || isNumberChar c || isDot c || isWhiteSpace c)
  = negb (isDot c || isWhiteSpace c).
Proof.
  intros (Ha & Hl & Hd). unfold isNumberChar.
  now rewrite (isLetter_ascii _ Ha), Ha, Hl, Hd.
Qed.

Lemma cleaned_symbols_from x : forall b,
  Forall symbolChar x ->
  let y := replaceRuns
             (fun cp => negb (isLetter cp || isNumberChar cp || isDot cp
                              || isWhiteSpace cp))
             [SPACE] b (codeUnits x) in
  Forall (fun c => isDot c = true \/ isWhiteSpace c = true) y
  /\ (Forall (fun c => isDot c = false) x -> allWhiteSpace y).
Proof.
  intros b H. revert b.
  induction H as [|c x Hc Hx IH]; intro b; [split; constructor|].
  destruct (IH true) as [IHt1 IHt2]. destruct (IH false) as [IHf1 IHf2].
  simpl. rewrite (symbol_class Hc). split.
  - destruct (isDot c) eqn:Ed; simpl; [constructor; auto|].
    destruct (isWhiteSpace c) eqn:Ew; simpl; [constructor; auto|].
    destruct b; simpl; [assumption | constructor; auto].
  - intro Hnd. inversion Hnd as [|? ? Hcd Hxd]; subst. rewrite Hcd. simpl.
    destruct (isWhiteSpace c) eqn:Ew; simpl.
    + constructor; [exact Ew | exact (IHf2 Hxd)].
    + destruct b; simpl; [exact (IHt2 Hxd)|].
      constructor; [reflexivity | exact (IHt2 Hxd)].
Qed.

(** Cleaning leaves only dots and white space of such an input. *)
Lemma cleaned_symbols x :
  Forall symbolChar x ->
  Forall (fun c => isDot c = true \/ isWhiteSpace c = true) (Dot.cleaned x)
  /\ (Forall (fun c => isDot c = false) x -> allWhiteSpace (Dot.cleaned x)).
Proof.
  intro H. unfold Dot.cleaned.
  assert (Ha : Forall (fun c => isAscii c = true) x).
  { eapply Forall_impl; [|exact H]. now intros c (Hc & _). }
  rewrite (codePoints_ascii Ha). now apply cleaned_symbols_from.
Qed.

(** A token made of dots gives no unit. *)
Lemma dot_pushToken_dots t :
  t <> [] -> Forall (fun c => isDot c = true) t ->
  Dot.pushToken [] t = []
  /\ Camel.acronymRegex t || Camel.dottedAcronymRegex t = false
  /\ Dot.acronymRegex t || Dot.dottedAcronymRegex t = false.
Proof.
  intros Hne H.
  assert (Hacr : acronymFrom 0 t = false) by now apply acronymFrom_dots.
  destruct (dottedFrom_dots H) as [Hc Hd].
  assert (Hflags : Dot.acronymRegex t || Dot.dottedAcronymRegex t = false).
  { unfold Dot.acronymRegex, Dot.dottedAcronymRegex. now rewrite Hacr, Hd. }
  split; [|split; [|exact Hflags]].
  - unfold Dot.pushToken. rewrite Hflags.
    assert (Hnd : Forall (fun c => isDigit c = false) t).
    { eapply Forall_impl; [|exact H]. intros c Hc'.
      now apply dot_facts in Hc'. }
    rewrite (splitDigits_plain Hnd).
    destruct t as [|c r]; [congruence|]. cbn [filter truthy isEmpty negb].
    cbn [fold_left]. unfold Dot.pushPart. rewrite (digitsOnly_plain Hnd).
    apply fold_left_skips. intros acc p Hp.
    assert (Hempty : filter truthy (splitWhiteSpace (dotsToSpaces (c :: r))) = []).
    { apply splitRuns_all_sep. unfold dotsToSpaces.
      clear -H. induction H as [|a l Ha Hl IH]; [constructor|].
      simpl. rewrite Ha. constructor; [reflexivity | assumption]. }
    destruct p; [reflexivity|].
    assert (Hin : In (n :: p) (filter truthy (splitWhiteSpace (dotsToSpaces (c :: r)))))
      by (apply filter_In; split; [assumption | reflexivity]).
    rewrite Hempty in Hin. destruct Hin.
  - unfold Camel.acronymRegex, Camel.dottedAcronymRegex. now rewrite Hacr, Hc.
Qed.

End Rejected.

(** X6: an input of ASCII characters without a letter and without a
    digit is always rejected, with the message its content decides:
    white space only is an empty input; no dot means no token; a dot
    means tokens without word units. *)
Theorem rejected_without_letters_and_digits (host : Host) (s : jsstring) :
  Forall symbolChar s ->
  (allWhiteSpace s ->
     Camel.toCamelCase (JSStr s) = ERR_EMPTY
     /\ Dot.toDotCase (JSStr s) = ERR_EMPTY)
  /\ (~ allWhiteSpace s -> Forall (fun c => isDot c = false) s ->
     Camel.toCamelCase (JSStr s) = ERR_NO_TOKENS
     /\ Dot.toDotCase (JSStr s) = ERR_NO_TOKENS)
  /\ (Exists (fun c => isDot c = true) s ->
     Camel.toCamelCase (JSStr s) = ERR_NO_UNITS
     /\ Dot.toDotCase (JSStr s) = ERR_NO_UNITS).
Proof.
  intro Hs.
  assert (Hx : Forall symbolChar (trim s)) by now apply Forall_trim.
  destruct (cleaned_symbols Hx) as [Hclean Hnodot].
  split; [|split].
  - intro Hw. apply trim_nil_iff in Hw.
    unfold Camel.toCamelCase, Dot.toDotCase. rewrite Hw. split; reflexivity.
  - intros Hnw Hnd.
    assert (Htrim : trim s <> []).
    { intro E. apply Hnw. now apply trim_nil_iff. }
    assert (Htok : Dot.rawTokens (trim s) = []).
    { unfold Dot.rawTokens. apply splitRuns_all_sep, Hnodot.
      now apply Forall_trim. }
    unfold Camel.toCamelCase, Dot.toDotCase.
    rewrite (length_zero_false Htrim).
    change (Camel.rawTokens (trim s)) with (Dot.rawTokens (trim s)).
    rewrite Htok. split; reflexivity.
  - intro Hdot.
    assert (Hd : Exists (fun c => isDot c = true) (trim s)).
    { apply Exists_trim; [|assumption].
      intros c Hc. now apply dot_facts in Hc. }
    assert (Htrim : trim s <> []).
    { intro E. rewrite E in Hd. inversion Hd. }
    assert (Hex : Exists (Exists (fun c => isDot c = true))
                    (Dot.rawTokens (trim s))).
    { unfold Dot.rawTokens, Dot.cleaned.
      assert (Ha : Forall (fun c => isAscii c = true) (trim s)).
      { eapply Forall_impl; [|exact Hx]. now intros c (Hc & _). }
      rewrite (codePoints_ascii Ha).
      apply Exists_filter_truthy, Exists_splitRuns.
      - intros c Hc. now apply dot_facts in Hc.
      - apply Exists_replaceRuns_units; [|assumption].
        intros c Hc. rewrite Hc. now rewrite !orb_true_r. }
    assert (Htok : Dot.rawTokens (trim s) <> []).
    { intro E. rewrite E in Hex. inversion Hex. }
    assert (Hdots : Forall (fun t => t <> []
                      /\ Forall (fun c => isDot c = true) t)
                      (Dot.rawTokens (trim s))).
    { unfold Dot.rawTokens. apply Forall_forall. intros t Ht.
      pose proof (truthy_filter (splitWhiteSpace (Dot.cleaned (trim s)))) as Hne.
      rewrite Forall_forall in Hne. split; [now apply Hne|].
      apply filter_In in Ht as [Ht _].
      pose proof (Forall_splitRuns isWhiteSpace false Hclean) as H1.
      pose proof (splitRuns_no_sep isWhiteSpace (Dot.cleaned (trim s)) false) as H2.
      rewrite Forall_forall in H1, H2.
      specialize (H1 t Ht). specialize (H2 t Ht).
      rewrite Forall_forall in *. intros c Hc.
      destruct (H1 c Hc) as [Hd' | Hw]; [assumption|].
      rewrite (H2 c Hc) in Hw. discriminate. }
    assert (Hwords : Dot.collect (Dot.rawTokens (trim s)) = []).
    { rewrite dot_collect_flat_map. apply flat_map_nil.
      eapply Forall_impl; [|exact Hdots]. intros t [Hne Ht].
      now destruct (dot_pushToken_dots Hne Ht) as (H1 & _). }
    assert (Hunits : Camel.collect (Dot.rawTokens (trim s)) = []).
    { rewrite collect_agree, Hwords; [reflexivity|].
      eapply Forall_impl; [|exact Hdots]. intros t [Hne Ht].
      now destruct (dot_pushToken_dots Hne Ht) as (_ & H1 & H2). }
    unfold Camel.toCamelCase, Dot.toDotCase.
    rewrite (length_zero_false Htrim).
    change (Camel.rawTokens (trim s)) with (Dot.rawTokens (trim s)).
    rewrite (length_zero_false Htok), Hwords, Hunits. split; reflexivity.
Qed.

Lemma rejected_without_letters_and_digits_witness :
  @Camel.toCamelCase plainHost (JSStr (str " ")) = ERR_EMPTY
  /\ @Dot.toDotCase plainHost (JSStr (str " -- !")) = ERR_NO_TOKENS
  /\ @Camel.toCamelCase plainHost (JSStr (str "(...)")) = ERR_NO_UNITS.
Proof.
  split; [|split].
  - apply (@rejected_without_letters_and_digits plainHost (str " "));
      repeat constructor.
  - apply (@rejected_without_letters_and_digits plainHost (str " -- !")).
    + repeat constructor.
    + intro H. inversion H as [|? ? _ H1]. inversion H1 as [|? ? Hc _].
      discriminate Hc.
    + repeat constructor.
  - apply (@rejected_without_letters_and_digits plainHost (str "(...)")).
    + repeat constructor.
    + right. left. reflexivity.
Defined.

(** ** Units of ASCII inputs with numbers below 10^12 *)

Lemma Forall_splitDigits (P : N -> Prop) s : forall b,
  Forall P s -> Forall (Forall P) (splitDigitsFrom b s).
Proof.
  induction s as [|c r IH]; intros b H; simpl.
  - destruct b; repeat constructor.
  - inversion H as [|? ? Hc Hr]; subst.
    assert (Hhead : forall b', Forall (Forall P)
              (consHead c (splitDigitsFrom b' r))).
    { intro b'. apply Forall_consHead; [assumption | now apply IH]. }
    destruct (isDigit c), b; try apply Hhead;
      (constructor; [constructor | apply Hhead]).
Qed.

Lemma digits_fold_nonneg part : forall acc, (0 <= acc)%Z ->
  (0 <= fold_left (fun acc d => 10 * acc + Z.of_N (d - 48))%Z part acc)%Z.
Proof.
  induction part as [|d part IH]; intros acc Hacc; [assumption|].
  cbn [fold_left]. apply IH.
  pose proof (N2Z.is_nonneg (d - 48)). lia.
Qed.

Lemma digitsValue_nonneg part : (0 <= digitsValue part)%Z.
Proof. apply digits_fold_nonneg. lia. Qed.

Lemma lowerWord_letterWord w : lowerWord w -> letterWord w.
Proof.
  intros [Hne H]. split; [assumption|].
  eapply Forall_impl; [|exact H]. intros c Hc.
  unfold asciiLetter. rewrite Hc. apply orb_true_r.
Qed.

Lemma upperWord_letterWord w : upperWord w -> letterWord w.
Proof.
  intros [Hne H]. split; [assumption|].
  eapply Forall_impl; [|exact H]. intros c Hc.
  unfold asciiLetter. unfold isUpperLetter in Hc. now rewrite Hc.
Qed.

Lemma phrase_chars s : phrase s ->
  Forall (fun c => isLowerAZ c = true \/ isWhiteSpace c = true) s.
Proof.
  intros (ws & Hne & Hws & ->). clear Hne.
  induction Hws as [|w ws [_ Hw] Hws IH]; [constructor|].
  assert (Hw' : Forall (fun c => isLowerAZ c = true \/ isWhiteSpace c = true) w).
  { eapply Forall_impl; [|exact Hw]. now left. }
  destruct ws as [|w2 ws]; [exact Hw'|].
  rewrite join_cons by discriminate. apply Forall_app. split; [exact Hw'|].
  constructor; [now right | exact IH].
Qed.

(** *** Acronym texts *)

Lemma acronymFrom_chars t : forall k, acronymFrom k t = true ->
  Forall (fun c => isUpperAZ c = true \/ isDot c = true) t.
Proof.
  induction t as [|c r IH]; intros k H; [constructor|]. simpl in H.
  destruct (isUpperAZ c) eqn:Eu.
  - constructor; [now left | now apply (IH (S k))].
  - destruct (isDot c) eqn:Ed; [|discriminate].
    apply andb_prop in H as [_ H]. constructor; [now right | now apply (IH 0%nat)].
Qed.

Lemma acronymFrom_head t : acronymFrom 0 t = true ->
  exists c r, t = c :: r /\ isUpperAZ c = true.
Proof.
  destruct t as [|c r]; simpl; [discriminate|].
  destruct (isUpperAZ c) eqn:Eu; [intros _; now exists c, r|].
  destruct (isDot c); discriminate.
Qed.

Lemma initials_chars us : forall last,
  Forall isUpperLetter us ->
  (last = [] \/ exists c, isUpperLetter c /\ last = [c]) ->
  Forall (fun c => isUpperAZ c = true \/ isDot c = true)
    (flat_map (fun u => [u; DOT]) us ++ last).
Proof.
  intros last Hus Hlast. apply Forall_app. split.
  - induction Hus as [|u us Hu Hus IH]; [constructor|].
    simpl. constructor; [now left|]. constructor; [now right | exact IH].
  - destruct Hlast as [-> | (c & Hc & ->)]; [constructor|].
    constructor; [now left | constructor].
Qed.

Lemma camel_dotted_text t : Camel.dottedFrom 0 t = true ->
  Forall (fun c => isUpperAZ c = true \/ isDot c = true) t
  /\ exists c r, t = c :: r /\ isUpperAZ c = true.
Proof.
  intro H.
  destruct (@camel_dottedFrom_shape t (length t) 0 (le_n _) H)
    as (us & last & Hus & Hlen & Hlast & ->).
  split; [now apply initials_chars|].
  destruct Hus as [|u us Hu Hus]; [simpl in Hlen; lia|].
  simpl. eexists _, _. split; [reflexivity | exact Hu].
Qed.

Lemma dot_dotted_text t : Dot.dottedFrom 0 t = true ->
  Forall (fun c => isUpperAZ c = true \/ isDot c = true) t
  /\ exists c r, t = c :: r /\ isUpperAZ c = true.
Proof.
  intro H. apply (@dottedFrom_trailing_dot (length t) t 0 (le_n _)) in H.
  destruct H as [H | (t' & -> & H)]; [now apply camel_dotted_text|].
  destruct (camel_dotted_text _ H) as (Hall & c & r & -> & Hc). split.
  - apply Forall_app. split; [exact Hall|].
    constructor; [now right | constructor].
  - now exists c, (r ++ [DOT]).
Qed.

Lemma acronym_text_upper t :
  Forall (fun c => isUpperAZ c = true \/ isDot c = true) t ->
  (exists c r, t = c :: r /\ isUpperAZ c = true) ->
  upperWord (removeDots t).
Proof.
  intros Hall (c & r & -> & Hc). rewrite removeDots_filter. split.
  - simpl. now rewrite (upper_not_dot _ Hc).
  - apply Forall_forall. intros a Ha. apply filter_In in Ha as [Ha Hnd].
    rewrite Forall_forall in Hall. destruct (Hall a Ha) as [Hu | Hd];
      [exact Hu | rewrite Hd in Hnd; discriminate].
Qed.

Lemma camel_acronym_text t :
  Camel.acronymRegex t || Camel.dottedAcronymRegex t = true ->
  upperWord (removeDots t).
Proof.
  intro H. apply orb_prop in H as [H | H].
  - apply acronym_text_upper;
      [now apply (acronymFrom_chars t 0) | now apply acronymFrom_head].
  - apply camel_dotted_text in H as [H1 H2]. now apply acronym_text_upper.
Qed.

Lemma dot_acronym_text t :
  Dot.acronymRegex t || Dot.dottedAcronymRegex t = true ->
  upperWord (removeDots t).
Proof.
  intro H. apply orb_prop in H as [H | H].
  - apply acronym_text_upper;
      [now apply (acronymFrom_chars t 0) | now apply acronymFrom_head].
  - apply dot_dotted_text in H as [H1 H2]. now apply acronym_text_upper.
Qed.

Lemma upper_of_lower c : isLowerAZ c = true ->
  asciiLetter c = true /\ asciiLetter (asciiUpper c) = true.
Proof.
  intro H. unfold asciiUpper, asciiLetter. rewrite H. split;
    [apply orb_true_r|].
  unfold isLowerAZ in H. char_props H. unfold isUpperAZ, isLowerAZ.
  apply orb_true_iff. left. char_true.
Qed.

Section WellFormed.
Context {host : Host}.

Lemma tokens_ascii s :
  Forall (fun c => isAscii c = true) s ->
  Forall (Forall (fun c => isAscii c = true)) (Dot.rawTokens s).
Proof.
  intro Ha. unfold Dot.rawTokens, Dot.cleaned. rewrite (codePoints_ascii Ha).
  apply Forall_filter, Forall_splitRuns, Forall_replaceRuns_units;
    [repeat constructor | assumption].
Qed.

(** A run of digits below [MAX] pushes the words of its phrase. *)
Lemma dot_pushPart_digits part :
  digitsOnly part = true -> (digitsValue part < MAX)%Z ->
  Forall lowerWord (Dot.pushPart [] part).
Proof.
  intros Hd Hv. unfold Dot.pushPart. rewrite Hd.
  change (parseInt10 part) with (JSNum (Int (digitsValue part))).
  assert (Hph : phrase (numberToWords (JSNum (Int (digitsValue part))))).
  { apply phrase_of_numberToWords. split;
      [apply digitsValue_nonneg | assumption]. }
  apply phrase_chars in Hph.
  apply Forall_fold_pushes_in.
  - intros acc w. destruct (truthy w); now rewrite ?app_nil_r.
  - intros w Hw. destruct (truthy w) eqn:Et; [|constructor].
    pose proof (Forall_splitRuns isWhiteSpace false Hph) as H1.
    pose proof (splitRuns_no_sep isWhiteSpace
                  (numberToWords (JSNum (Int (digitsValue part)))) false) as H2.
    rewrite Forall_forall in H1, H2.
    specialize (H1 w Hw). specialize (H2 w Hw).
    assert (Hlow : Forall (fun c => isLowerAZ c = true) w).
    { rewrite Forall_forall in *. intros c Hc.
      destruct (H1 c Hc) as [Hl | Hs]; [exact Hl|].
      rewrite (H2 c Hc) in Hs. discriminate. }
    rewrite (toLowerCase_lower Hlow). repeat constructor; [|exact Hlow].
    destruct w; [discriminate Et | discriminate].
Qed.

Lemma dot_parts_lower t :
  Forall (fun c => isAscii c = true) t -> smallNumbers t ->
  Forall lowerWord (fold_left Dot.pushPart (filter truthy (splitDigits t)) []).
Proof.
  intros Ha Hsmall. apply Forall_fold_pushes_in; [apply dot_pushPart_acc|].
  intros part Hin. apply filter_In in Hin as [Hin _].
  unfold smallNumbers in Hsmall. rewrite Forall_forall in Hsmall.
  pose proof (Forall_splitDigits false Ha) as Hparts.
  rewrite Forall_forall in Hparts.
  destruct (digitsOnly part) eqn:Ed.
  - apply dot_pushPart_digits; [assumption | now apply Hsmall].
  - apply dot_pushPart_plain; [now apply Hparts | assumption].
Qed.

Lemma dot_pushToken_letters t :
  Forall (fun c => isAscii c = true) t -> smallNumbers t ->
  Forall letterWord (Dot.pushToken [] t).
Proof.
  intros Ha Hsmall. unfold Dot.pushToken.
  destruct (Dot.acronymRegex t || Dot.dottedAcronymRegex t) eqn:E.
  - constructor; [|constructor].
    apply upperWord_letterWord, dot_acronym_text, E.
  - eapply Forall_impl; [|exact (dot_parts_lower Ha Hsmall)].
    apply lowerWord_letterWord.
Qed.

Lemma camel_pushToken_wellFormed t :
  Forall (fun c => isAscii c = true) t -> smallNumbers t ->
  Forall wellFormedUnit (Camel.pushToken [] t).
Proof.
  intros Ha Hsmall. unfold Camel.pushToken.
  destruct (Camel.acronymRegex t || Camel.dottedAcronymRegex t) eqn:E.
  - constructor; [|constructor]. unfold wellFormedUnit. cbn [type text].
    now apply camel_acronym_text.
  - rewrite (fold_left_pushes_map wordUnit Camel.pushPart Dot.pushPart
               camel_pushPart_acc dot_pushPart_acc pushPart_agree).
    apply Forall_map. eapply Forall_impl; [|exact (dot_parts_lower Ha Hsmall)].
    intros w Hw. exact Hw.
Qed.

Lemma piece_letters i u :
  wellFormedUnit u -> letterWord (Camel.piece i u).
Proof.
  destruct u as [ty tx]. unfold wellFormedUnit. cbn [type text].
  destruct ty; intro H.
  - destruct i as [|i].
    + change (Camel.piece 0 {| type := word; text := tx |})
        with (Camel.piece 0 (wordUnit tx)).
      rewrite (piece_first_word H). now apply lowerWord_letterWord.
    + change (Camel.piece (S i) {| type := word; text := tx |})
        with (Camel.piece 1 (wordUnit tx)).
      rewrite (piece_later_word H). destruct H as [Hne H].
      destruct H as [|c r Hc Hr]; [congruence|]. split; [discriminate|].
      simpl. constructor; [now apply upper_of_lower|].
      eapply Forall_impl; [|exact Hr]. intros a Ha. now apply upper_of_lower.
  - replace (Camel.piece i {| type := acronym; text := tx |}) with tx
      by (destruct i; reflexivity).
    now apply upperWord_letterWord.
Qed.

Lemma render_letters units :
  Forall wellFormedUnit units -> units <> [] ->
  letterWord (Camel.render 0 units []).
Proof.
  intros H Hne. destruct H as [|u us Hu Hus]; [congruence|].
  rewrite camel_render_cons. destruct (@piece_letters 0 u Hu) as [Hp1 Hp2].
  split.
  - destruct (Camel.piece 0 u); [congruence | discriminate].
  - apply Forall_app. split; [exact Hp2|].
    apply Forall_concat, Forall_map.
    eapply Forall_impl; [|exact Hus]. intros a Ha.
    exact (proj2 (@piece_letters 1 a Ha)).
Qed.

End WellFormed.

Lemma smallNumbersb_ok tokens :
  forallb smallNumbersb tokens = true -> Forall smallNumbers tokens.
Proof.
  intro H. apply Forall_forall. intros t Ht.
  rewrite forallb_forall in H. specialize (H t Ht).
  unfold smallNumbersb in H. rewrite forallb_forall in H.
  apply Forall_forall. intros part Hpart Hd. specialize (H part Hpart).
  rewrite Hd in H. simpl in H. now apply Z.ltb_lt.
Qed.

Lemma isAscii_ok s :
  forallb isAscii s = true -> Forall (fun c => isAscii c = true) s.
Proof. intro H. apply Forall_forall. now apply forallb_forall. Qed.

(** ** [toDotCase]: the units and their case *)

(** C5: [toDotCase] joins the units it collected with ["."]; the unit of
    an acronym-shaped token is the token without its dots, in its own
    case; every other unit is lower-cased: it is what [toLowerCase]
    returned, and for a token of ASCII characters, whose runs of digits
    are numbers below 10^12, it is a non-empty string of lower-case
    letters, whatever the case of the token.  So ["user_id"] gives
    ["user.id"], ["Hello World"] gives ["hello.world"], and
    ["SCREEN_NAME"], whose tokens [SCREEN] and [NAME] are both
    acronym-shaped, gives ["SCREEN.NAME"]. *)
Theorem toDotCase_joins_units (host : Host) :
  (forall s, Dot.collect (Dot.rawTokens (trim s)) <> [] ->
     Dot.toDotCase (JSStr s)
     = join [DOT] (Dot.collect (Dot.rawTokens (trim s))))
  /\ (forall tokens,
     Dot.collect tokens = flat_map (Dot.pushToken []) tokens)
  /\ (forall t, Dot.acronymRegex t || Dot.dottedAcronymRegex t = true ->
     Dot.pushToken [] t = [filter (fun c => negb (isDot c)) t])
  /\ (forall t, Dot.acronymRegex t || Dot.dottedAcronymRegex t = false ->
     Forall lowercased (Dot.pushToken [] t))
  /\ (forall t, Dot.acronymRegex t || Dot.dottedAcronymRegex t = false ->
     Forall (fun c => isAscii c = true) t -> smallNumbers t ->
     Forall lowerWord (Dot.pushToken [] t))
  /\ Dot.toDotCase (JSStr (str "user_id")) = str "user.id"
  /\ Dot.toDotCase (JSStr (str "Hello World")) = str "hello.world"
  /\ Dot.pushToken [] (str "Room23B") = [str "room"; str "twenty"; str "three"; str "b"]
  /\ Dot.rawTokens (trim (str "SCREEN_NAME")) = [str "SCREEN"; str "NAME"]
  /\ Dot.acronymRegex (str "SCREEN") = true
  /\ Dot.acronymRegex (str "NAME") = true
  /\ Dot.toDotCase (JSStr (str "SCREEN_NAME")) = str "SCREEN.NAME".
Proof.
  split; [|split; [|split; [|split; [|split]]]].
  - apply toDotCase_of_words.
  - apply dot_collect_flat_map.
  - intros t Ht. unfold Dot.pushToken. rewrite Ht. simpl.
    now rewrite removeDots_filter.
  - intros t Ht. unfold Dot.pushToken. rewrite Ht.
    apply Forall_fold_pushes; [apply dot_pushPart_acc|].
    apply dot_pushPart_lowercased.
  - intros t Ht Ha Hsmall. unfold Dot.pushToken. rewrite Ht.
    now apply dot_parts_lower.
  - repeat split; vm_compute; reflexivity.
Qed.

Lemma toDotCase_joins_units_witness :
  @Dot.toDotCase plainHost (JSStr (str "first name of NATO.GOV"))
  = str "first.name.of.NATOGOV"
  /\ @Dot.pushToken plainHost [] (str "U.S.A.") = [str "USA"]
  /\ Forall (@lowercased plainHost) (@Dot.pushToken plainHost [] (str "Room23b"))
  /\ Forall lowerWord (@Dot.pushToken plainHost [] (str "McDonald7s")).
Proof.
  destruct (toDotCase_joins_units plainHost) as (H1 & _ & H3 & H4 & H5 & _).
  split; [|split; [|split]].
  - apply (H1 (str "first name of NATO.GOV")). vm_compute. discriminate.
  - apply (H3 (str "U.S.A.")). reflexivity.
  - apply (H4 (str "Room23b")). reflexivity.
  - apply (H5 (str "McDonald7s")); [reflexivity | |].
    + apply isAscii_ok. reflexivity.
    + apply (Forall_inv (smallNumbersb_ok [str "McDonald7s"] eq_refl)).
Defined.

(** X7: for an ASCII input whose runs of digits are numbers below 10^12,
    every unit that [toCamelCase] collects is a non-empty string of
    ASCII letters, lower-case for a word and upper-case for an acronym;
    and when there is a unit, the result is a non-empty string of ASCII
    letters. *)
Theorem camelCase_letters_only (host : Host) (s : jsstring) :
  Forall (fun c => isAscii c = true) s ->
  Forall smallNumbers (Camel.rawTokens (trim s)) ->
  Forall wellFormedUnit (Camel.collect (Camel.rawTokens (trim s)))
  /\ (Camel.collect (Camel.rawTokens (trim s)) <> [] ->
      letterWord (Camel.toCamelCase (JSStr s))).
Proof.
  intros Ha Hsmall.
  assert (Hta : Forall (Forall (fun c => isAscii c = true))
                  (Camel.rawTokens (trim s))).
  { apply (tokens_ascii (s := trim s)). now apply Forall_trim. }
  assert (Hu : Forall wellFormedUnit
                 (Camel.collect (Camel.rawTokens (trim s)))).
  { rewrite camel_collect_flat_map. apply Forall_flat_map.
    rewrite Forall_forall in *. intros t Ht.
    apply camel_pushToken_wellFormed; auto. }
  split; [exact Hu|]. intro Hne.
  rewrite (@toCamelCase_of_units host s Hne). now apply render_letters.
Qed.

Lemma camelCase_letters_only_witness :
  letterWord (@Camel.toCamelCase plainHost
                (JSStr (str "room 101: the U.S.A. (est. 1776)"))).
Proof.
  apply (@camelCase_letters_only plainHost
           (str "room 101: the U.S.A. (est. 1776)")).
  - apply isAscii_ok. vm_compute. reflexivity.
  - apply smallNumbersb_ok. vm_compute. reflexivity.
  - vm_compute. discriminate.
Defined.

(** X8: for an ASCII input whose runs of digits are numbers below 10^12,
    every unit that [toDotCase] collects is a non-empty string of ASCII
    letters, so that, when there is a unit, splitting the result on
    ["."] gives the units back. *)
Theorem dotCase_splits_back (host : Host) (s : jsstring) :
  Forall (fun c => isAscii c = true) s ->
  Forall smallNumbers (Dot.rawTokens (trim s)) ->
  Forall letterWord (Dot.collect (Dot.rawTokens (trim s)))
  /\ (Dot.collect (Dot.rawTokens (trim s)) <> [] ->
      splitOn DOT (Dot.toDotCase (JSStr s))
      = Dot.collect (Dot.rawTokens (trim s))).
Proof.
  intros Ha Hsmall.
  assert (Hta : Forall (Forall (fun c => isAscii c = true))
                  (Dot.rawTokens (trim s))).
  { apply tokens_ascii. now apply Forall_trim. }
  assert (Hw : Forall letterWord (Dot.collect (Dot.rawTokens (trim s)))).
  { rewrite dot_collect_flat_map. apply Forall_flat_map.
    rewrite Forall_forall in *. intros t Ht.
    apply dot_pushToken_letters; auto. }
  split; [exact Hw|]. intro Hne.
  rewrite (@toDotCase_of_words host s Hne). apply splitOn_join; [assumption|].
  eapply Forall_impl; [|exact Hw]. intros w [_ Hl].
  eapply Forall_impl; [|exact Hl]. intros c Hc.
  apply asciiLetter_facts in Hc. destruct Hc as (_ & Hd & _).
  intros ->. discriminate Hd.
Qed.

Lemma dotCase_splits_back_witness :
  splitOn DOT (@Dot.toDotCase plainHost (JSStr (str "NATO.GOV has 32 members")))
  = [str "NATOGOV"; str "has"; str "thirty"; str "two"; str "members"].
Proof.
  apply (@dotCase_splits_back plainHost (str "NATO.GOV has 32 members")).
  - apply isAscii_ok. vm_compute. reflexivity.
  - apply smallNumbersb_ok. vm_compute. reflexivity.
  - vm_compute. discriminate.
Defined.

(** ** An input with a small number is never rejected *)

Lemma Exists_splitDigits_any (Q : N -> Prop) s : forall b,
  Exists Q s -> Exists (Exists Q) (splitDigitsFrom b s).
Proof.
  intros b H. revert b.
  induction H as [c r Hc | c r Hr IH]; intro b; simpl.
  - assert (Hhead : forall b', Exists (Exists Q)
              (consHead c (splitDigitsFrom b' r))).
    { intro b'. destruct (splitDigitsFrom b' r); simpl; repeat constructor;
        assumption. }
    destruct (isDigit c), b; try apply Hhead; apply Exists_cons_tl, Hhead.
  - destruct (isDigit c), b;
      repeat (first [apply Exists_consHead | apply Exists_cons_tl]);
      apply IH.
Qed.

(** Every piece of [splitDigits] is made of digits or has none; the
    first piece is of the kind being read. *)
Lemma splitDigits_pieces s : forall b,
  match splitDigitsFrom b s with
  | hd :: tl =>
      (if b then forallb isDigit hd = true
       else Forall (fun c => isDigit c = false) hd)
      /\ Forall (fun p => forallb isDigit p = true
                          \/ Forall (fun c => isDigit c = false) p) tl
  | [] => False
  end.
Proof.
  induction s as [|c r IH]; intro b.
  - destruct b; simpl; repeat constructor.
  - simpl. pose proof (IH true) as IHt. pose proof (IH false) as IHf.
    destruct (isDigit c) eqn:Ec.
    + destruct (splitDigitsFrom true r) as [|hd tl]; [destruct IHt|].
      destruct IHt as [Hhd Htl]. destruct b; simpl.
      * split; [now rewrite Ec, Hhd | exact Htl].
      * split; [constructor|]. constructor; [|exact Htl].
        left. simpl. now rewrite Ec, Hhd.
    + destruct (splitDigitsFrom false r) as [|hd tl]; [destruct IHf|].
      destruct IHf as [Hhd Htl]. destruct b; simpl.
      * split; [reflexivity|]. constructor; [|exact Htl].
        right. now constructor.
      * split; [now constructor | exact Htl].
Qed.

Lemma digit_part_digitsOnly t part :
  In part (splitDigits t) -> Exists (fun c => isDigit c = true) part ->
  digitsOnly part = true.
Proof.
  intros Hin Hex. unfold splitDigits in Hin.
  pose proof (splitDigits_pieces t false) as H.
  destruct (splitDigitsFrom false t) as [|hd tl]; [destruct H|].
  destruct H as [Hhd Htl].
  assert (Hpure : forallb isDigit part = true
                  \/ Forall (fun c => isDigit c = false) part).
  { destruct Hin as [<- | Hin]; [now right|].
    rewrite Forall_forall in Htl. now apply Htl. }
  apply Exists_exists in Hex as (c & Hc & Hd).
  destruct Hpure as [Hall | Hnone].
  - unfold digitsOnly. rewrite Hall. destruct part; [destruct Hc | reflexivity].
  - rewrite Forall_forall in Hnone. rewrite (Hnone c Hc) in Hd. discriminate.
Qed.

Section NumbersAccepted.
Context {host : Host}.

Lemma digit_kept c : isDigit c = true ->
  isWhiteSpace c = false /\ isAscii c = true /\ isUpperAZ c = false
  /\ isDot c = false.
Proof.
  unfold isDigit, isWhiteSpace, isAscii, isUpperAZ, isDot. intro H.
  char_props H. split; [char_false|]. split; [char_true|].
  split; char_false.
Qed.

(** A run of digits below [MAX] pushes at least one word. *)
Lemma dot_pushPart_number part :
  digitsOnly part = true -> (digitsValue part < MAX)%Z ->
  Dot.pushPart [] part <> [].
Proof.
  intros Hd Hv. unfold Dot.pushPart. rewrite Hd.
  change (parseInt10 part) with (JSNum (Int (digitsValue part))).
  assert (Hph : phrase (numberToWords (JSNum (Int (digitsValue part))))).
  { apply phrase_of_numberToWords. split;
      [apply digitsValue_nonneg | assumption]. }
  apply fold_pushes_nonempty.
  - intros acc w. destruct (truthy w); now rewrite ?app_nil_r.
  - assert (Hex : Exists (fun c => isLowerAZ c = true)
                    (numberToWords (JSNum (Int (digitsValue part))))).
    { destruct Hph as (ws & Hne & Hws & ->).
      destruct Hws as [|w ws [Hw1 Hw2] Hws]; [congruence|].
      destruct Hw2 as [|c r Hc Hr]; [congruence|].
      destruct ws; simpl; now constructor. }
    apply (@Exists_splitRuns _ isWhiteSpace _ false) in Hex.
    + apply Exists_exists in Hex as (w & Hin & Hw).
      apply Exists_exists. exists w. split; [exact Hin|].
      destruct Hw; cbn [truthy isEmpty negb]; discriminate.
    + intros c Hc. apply alnum_not_space. now rewrite Hc.
Qed.

Lemma digit_token_not_acronym t :
  Exists (fun c => isDigit c = true) t ->
  Camel.acronymRegex t || Camel.dottedAcronymRegex t = false
  /\ Dot.acronymRegex t || Dot.dottedAcronymRegex t = false.
Proof.
  intro H. apply Exists_exists in H as (c & Hin & Hc).
  destruct (digit_kept c Hc) as (_ & _ & Hu & Hd).
  assert (Hno : ~ Forall (fun a => isUpperAZ a = true \/ isDot a = true) t).
  { intro Hall. rewrite Forall_forall in Hall.
    destruct (Hall c Hin); congruence. }
  assert (H1 : acronymFrom 0 t = false).
  { apply not_true_is_false. intro E. apply Hno.
    now apply (acronymFrom_chars t 0). }
  assert (H2 : Camel.dottedFrom 0 t = false).
  { apply not_true_is_false. intro E. apply Hno.
    now apply camel_dotted_text. }
  assert (H3 : Dot.dottedFrom 0 t = false).
  { apply not_true_is_false. intro E. apply Hno.
    now apply dot_dotted_text. }
  unfold Camel.acronymRegex, Camel.dottedAcronymRegex,
    Dot.acronymRegex, Dot.dottedAcronymRegex.
  now rewrite H1, H2, H3.
Qed.

Lemma dot_pushToken_number t :
  Exists (fun c => isDigit c = true) t -> smallNumbers t ->
  Dot.pushToken [] t <> [] /\ Camel.pushToken [] t <> [].
Proof.
  intros Hex Hsmall.
  destruct (digit_token_not_acronym Hex) as [Hc Hd].
  assert (Hparts : Exists (fun part => Dot.pushPart [] part <> [])
                     (filter truthy (splitDigits t))).
  { pose proof (Exists_filter_truthy
                  (Exists_splitDigits_any false Hex)) as Hp.
    apply Exists_exists in Hp as (part & Hin & Hpart).
    apply Exists_exists. exists part. split; [exact Hin|].
    apply filter_In in Hin as [Hin _].
    assert (Hdo : digitsOnly part = true)
      by now apply (digit_part_digitsOnly t).
    apply dot_pushPart_number; [exact Hdo|].
    unfold smallNumbers in Hsmall. rewrite Forall_forall in Hsmall.
    now apply Hsmall. }
  split.
  - unfold Dot.pushToken. rewrite Hd.
    apply fold_pushes_nonempty; [apply dot_pushPart_acc | exact Hparts].
  - unfold Camel.pushToken. rewrite Hc.
    apply fold_pushes_nonempty; [apply camel_pushPart_acc|].
    eapply Exists_impl; [|exact Hparts].
    intros p Hp. cbv beta in Hp. rewrite pushPart_agree.
    destruct (Dot.pushPart [] p); [congruence | discriminate].
Qed.

(** A digit of the trimmed ASCII input is in one of its tokens. *)
Lemma digit_in_some_token s :
  Forall (fun c => isAscii c = true) s ->
  Exists (fun c => isDigit c = true) s ->
  Exists (Exists (fun c => isDigit c = true)) (Dot.rawTokens s).
Proof.
  intros Ha H. unfold Dot.rawTokens, Dot.cleaned.
  rewrite (codePoints_ascii Ha).
  apply Exists_filter_truthy, Exists_splitRuns.
  - intros c Hc. now apply digit_kept in Hc.
  - apply Exists_replaceRuns_units; [|assumption].
    intros c Hc. destruct (digit_kept c Hc) as (_ & Hasc & _).
    unfold isNumberChar. rewrite Hasc, Hc. now rewrite orb_true_r.
Qed.

End NumbersAccepted.

(** X9: an ASCII input with at least one digit, whose runs of digits are
    numbers below 10^12, is never rejected: [toCamelCase] and
    [toDotCase] collect at least one unit and return the rendering of
    the units. *)
Theorem small_number_never_rejected (host : Host) (s : jsstring) :
  Forall (fun c => isAscii c = true) s ->
  Exists (fun c => isDigit c = true) s ->
  Forall smallNumbers (Dot.rawTokens (trim s)) ->
  Camel.collect (Camel.rawTokens (trim s)) <> []
  /\ Camel.toCamelCase (JSStr s)
     = Camel.render 0 (Camel.collect (Camel.rawTokens (trim s))) []
  /\ Dot.collect (Dot.rawTokens (trim s)) <> []
  /\ Dot.toDotCase (JSStr s)
     = join [DOT] (Dot.collect (Dot.rawTokens (trim s))).
Proof.
  intros Ha Hdigit Hsmall.
  assert (Hta : Forall (fun c => isAscii c = true) (trim s))
    by now apply Forall_trim.
  assert (Hd : Exists (fun c => isDigit c = true) (trim s)).
  { apply Exists_trim; [|assumption].
    intros c Hc. now apply digit_kept in Hc. }
  pose proof (digit_in_some_token Hta Hd) as Hex.
  apply Exists_exists in Hex as (t & Ht & Htd).
  rewrite Forall_forall in Hsmall.
  destruct (dot_pushToken_number Htd (Hsmall t Ht)) as [Hdt Hct].
  assert (Hc : Camel.collect (Camel.rawTokens (trim s)) <> []).
  { rewrite camel_collect_flat_map. now apply (flat_map_nonempty _ _ _ Ht). }
  assert (Hw : Dot.collect (Dot.rawTokens (trim s)) <> []).
  { rewrite dot_collect_flat_map. now apply (flat_map_nonempty _ _ _ Ht). }
  split; [exact Hc | split; [|split; [exact Hw|]]].
  - now apply toCamelCase_of_units.
  - now apply toDotCase_of_words.
Qed.

Lemma small_number_never_rejected_witness :
  @Dot.toDotCase plainHost (JSStr (str "(+44) 20"))
  = str "forty.four.twenty".
Proof.
  apply (@small_number_never_rejected plainHost (str "(+44) 20")).
  - apply isAscii_ok. vm_compute. reflexivity.
  - do 2 right. left. reflexivity.
  - apply smallNumbersb_ok. vm_compute. reflexivity.
Defined.

(** ** [basic_prompt.js]: [numberToWords] *)

Lemma basic_chunkLoop_done fuel i parts num :
  (num <= 0)%Z -> Basic.chunkLoop fuel num i parts = parts.
Proof.
  intro H. destruct fuel; [reflexivity|]. simpl.
  destruct (Z.ltb_spec 0 num); [lia | reflexivity].
Qed.

(** More turns than needed change nothing: after [fuel] turns a number
    below 1000^fuel has become 0 and the loop has ended. *)
Lemma chunkLoop_fuel fuel : forall extra num i parts,
  (num < 1000 ^ Z.of_nat fuel)%Z ->
  Basic.chunkLoop (fuel + extra) num i parts
  = Basic.chunkLoop fuel num i parts.
Proof.
  induction fuel as [|fuel IH]; intros extra num i parts Hnum.
  - simpl in Hnum. cbn [Nat.add Basic.chunkLoop].
    apply basic_chunkLoop_done. lia.
  - cbn [Nat.add Basic.chunkLoop].
    destruct (Z.ltb_spec 0 num) as [Hpos | Hneg]; [|reflexivity].
    apply IH. rewrite Nat2Z.inj_succ, Z.pow_succ_r in Hnum by lia.
    apply Z.div_lt_upper_bound; lia.
Qed.

Lemma turns_enough num : (0 < num)%Z -> (num < 1000 ^ Z.of_nat (Basic.turns num))%Z.
Proof.
  intro H. unfold Basic.turns. rewrite Nat2Z.inj_succ, Z2Nat.id
    by (apply Z.log2_nonneg).
  pose proof (Z.log2_spec num H) as [_ Hlt].
  eapply Z.lt_le_trans; [exact Hlt|].
  apply Z.pow_le_mono_l. pose proof (Z.log2_nonneg num). lia.
Qed.

Lemma basic_chunkLoop_step fuel num i parts :
  (0 <= num)%Z ->
  Basic.chunkLoop (S fuel) num i parts
  = Basic.chunkLoop fuel (num / 1000)%Z (i + 1)%Z
      (basicPart (num mod 1000) i ++ parts).
Proof.
  intro H. cbn [Basic.chunkLoop]. unfold basicPart.
  destruct (Z.ltb_spec 0 num) as [Hpos | Hzero].
  - destruct (num mod 1000 =? 0)%Z; reflexivity.
  - assert (num = 0%Z) by lia. subst num.
    rewrite basic_chunkLoop_done by (rewrite Z.div_0_l; lia). reflexivity.
Qed.

Lemma basic_underThousand_checked :
  forallb (fun k => jsstring_eqb (Basic.underThousand (Z.of_nat k))
                      (underThousand (Z.of_nat k))) (seq 1 999) = true.
Proof. vm_compute. reflexivity. Qed.

(** The two [underThousand] agree from 1 to 999; at 0 the first gives
    the empty string and the second ["zero"]. *)
Lemma basic_underThousand_agrees c :
  (0 < c < 1000)%Z -> Basic.underThousand c = underThousand c.
Proof.
  intro Hc. pose proof basic_underThousand_checked as H.
  rewrite forallb_forall in H.
  assert (Hin : In (Z.to_nat c) (seq 1 999)) by (apply in_seq; lia).
  specialize (H _ Hin). rewrite Z2Nat.id in H by lia.
  unfold jsstring_eqb in H.
  destruct (list_eq_dec N.eq_dec (Basic.underThousand c) (underThousand c));
    [assumption | discriminate].
Qed.

Lemma phrase_last ws :
  Forall lowerWord ws -> ws <> [] ->
  exists r c, join [SPACE] ws = r ++ [c] /\ isLowerAZ c = true.
Proof.
  induction 1 as [|w ws [Hw1 Hw2] Hws IH]; intro Hne; [congruence|].
  destruct ws as [|w2 ws].
  - destruct (exists_last Hw1) as (r & c & ->). exists r, c.
    split; [reflexivity|]. apply Forall_app in Hw2 as [_ Hc].
    now inversion Hc.
  - destruct IH as (r & c & E & Hc); [discriminate|].
    rewrite join_cons by discriminate. rewrite E.
    exists (w ++ [SPACE] ++ r), c.
    split; [now rewrite <- !app_assoc | exact Hc].
Qed.

Lemma lower_not_space c : isLowerAZ c = true -> isWhiteSpace c = false.
Proof. intro H. apply alnum_not_space. now rewrite H. Qed.

(** A phrase has no white space to trim. *)
Lemma trim_phrase s : phrase s -> trim s = s.
Proof.
  intros (ws & Hne & Hws & ->).
  destruct (phrase_last Hws Hne) as (r & c & E & Hc).
  assert (Hfirst : exists a t, join [SPACE] ws = a :: t /\ isLowerAZ a = true).
  { destruct Hws as [|w ws [Hw1 Hw2] _]; [congruence|].
    destruct Hw2 as [|a t Ha _]; [congruence|].
    destruct ws; simpl; eexists _, _; (split; [reflexivity | exact Ha]). }
  destruct Hfirst as (a & t & Ea & Ha).
  unfold trim, trimEnd. rewrite Ea. simpl trimStart.
  rewrite (lower_not_space _ Ha). rewrite <- Ea, E.
  rewrite rev_app_distr. simpl. rewrite (lower_not_space _ Hc).
  change (c :: rev r) with ([c] ++ rev r).
  now rewrite rev_app_distr, rev_involutive.
Qed.

Lemma chunks_joined b m t r :
  (0 <= b < 1000)%Z -> (0 <= m < 1000)%Z -> (0 <= t < 1000)%Z ->
  (0 <= r < 1000)%Z ->
  join (str " ")
    (basicPart b 3 ++ basicPart m 2 ++ basicPart t 1 ++ basicPart r 0 ++ [])
  = join (str " ")
      (chunkWords b (str "billion") ++ chunkWords m (str "million")
       ++ chunkWords t (str "thousand")
       ++ (if (0 <? r)%Z then [underThousand r] else [])).
Proof.
  intros Hb Hm Ht Hr. unfold basicPart, chunkWords.
  change (at_ Basic.scales 3) with (str "billion").
  change (at_ Basic.scales 2) with (str "million").
  change (at_ Basic.scales 1) with (str "thousand").
  change (at_ Basic.scales 0) with (@nil N).
  cbn [truthy isEmpty negb str].
  destruct (Z.eqb_spec b 0) as [-> | Hb0];
    [| rewrite (basic_underThousand_agrees (c := b)) by lia;
       replace (0 <? b)%Z with true by (symmetry; apply Z.ltb_lt; lia)];
  (destruct (Z.eqb_spec m 0) as [-> | Hm0];
    [| rewrite (basic_underThousand_agrees (c := m)) by lia;
       replace (0 <? m)%Z with true by (symmetry; apply Z.ltb_lt; lia)]);
  (destruct (Z.eqb_spec t 0) as [-> | Ht0];
    [| rewrite (basic_underThousand_agrees (c := t)) by lia;
       replace (0 <? t)%Z with true by (symmetry; apply Z.ltb_lt; lia)]);
  (destruct (Z.eqb_spec r 0) as [-> | Hr0];
    [| rewrite (basic_underThousand_agrees (c := r)) by lia;
       replace (0 <? r)%Z with true by (symmetry; apply Z.ltb_lt; lia)]);
  cbn [Z.ltb Z.compare app join];
  rewrite <- ?app_assoc, ?app_nil_r; reflexivity.
Qed.

(** X10: on the integers from 0 to 10^12 - 1 the [numberToWords] of
    [basic_prompt.js] and the [numberToWords] of [refined_prompt.js]
    return the same phrase. *)
Theorem basic_numberToWords_agrees (host : Host) (z : Z) :
  (0 <= z < MAX)%Z ->
  Basic.numberToWords z = numberToWords (JSNum (Int z)).
Proof.
  intro Hz. destruct (Z.eq_dec z 0) as [-> | Hnz]; [reflexivity|].
  assert (Hpos : (0 < z < MAX)%Z) by lia.
  pose proof (phrase_of_numberToWords host (z := z) Hz) as Hph.
  destruct (chunks_of Hpos) as (Hb & Hm & Ht & Hr & Hsum & E).
  unfold Basic.numberToWords.
  destruct (Z.eqb_spec z 0); [lia|].
  rewrite <- (chunkLoop_fuel (Basic.turns z) 4) by (apply turns_enough; lia).
  rewrite Nat.add_comm.
  rewrite chunkLoop_fuel by (unfold MAX in Hz; simpl; lia).
  rewrite basic_chunkLoop_step by lia.
  rewrite basic_chunkLoop_step by (apply Z.div_pos; lia).
  rewrite basic_chunkLoop_step by (repeat apply Z.div_pos; lia).
  rewrite basic_chunkLoop_step by (repeat apply Z.div_pos; lia).
  cbn [Basic.chunkLoop Z.add Pos.add Pos.succ].
  assert (D2 : (z / 1000 / 1000 = z / 1000000)%Z)
    by (rewrite Z.div_div by lia; reflexivity).
  assert (D3 : (z / 1000 / 1000 / 1000 = z / 1000000000)%Z)
    by (rewrite !Z.div_div by lia; reflexivity).
  rewrite D3, D2.
  rewrite (Z.mod_small (z / 1000000000) 1000) by lia.
  rewrite chunks_joined by assumption.
  rewrite <- (numberToWords_chunks host Hb Hm Ht Hr Hsum), <- E.
  now apply trim_phrase.
Qed.

Lemma basic_numberToWords_agrees_witness :
  Basic.numberToWords 1000010 = str "one million ten".
Proof.
  apply (@basic_numberToWords_agrees plainHost 1000010). unfold MAX. lia.
Defined.

(** ** Words between separators *)

Lemma splitRuns_nonempty sep s : forall b, splitRuns sep b s <> [].
Proof.
  induction s as [|c r IH]; intro b; simpl; [discriminate|].
  destruct (sep c).
  - destruct b; [apply IH | discriminate].
  - destruct (splitRuns sep false r); discriminate.
Qed.

Lemma filter_truthy_one cur : filter truthy [cur] = flush cur.
Proof. unfold flush. destruct cur; reflexivity. Qed.

(** [split] followed by [filter(Boolean)] gives the words. *)
Lemma words_bridge sep s : forall cur,
  filter truthy (prependHead cur (splitRuns sep false s))
  = wordsFrom sep cur s
  /\ filter truthy (splitRuns sep true s) = wordsFrom sep [] s.
Proof.
  induction s as [|c r IH]; intro cur.
  - simpl. rewrite app_nil_r. split; [apply filter_truthy_one | reflexivity].
  - destruct (IH []) as [_ IH2]. cbn [splitRuns wordsFrom].
    destruct (sep c).
    + split; [|exact IH2]. cbn [prependHead]. rewrite app_nil_r.
      change (cur :: splitRuns sep true r) with ([cur] ++ splitRuns sep true r).
      now rewrite filter_app, filter_truthy_one, IH2.
    + assert (Hpre : forall pre,
                prependHead pre (consHead c (splitRuns sep false r))
                = prependHead (pre ++ [c]) (splitRuns sep false r)).
      { intro pre. pose proof (splitRuns_nonempty sep r false) as Hne.
        destruct (splitRuns sep false r); [congruence|]. simpl.
        now rewrite <- app_assoc. }
      split.
      * rewrite Hpre. apply IH.
      * specialize (Hpre []). cbn [app] in Hpre.
        pose proof (splitRuns_nonempty sep r false) as Hne.
        replace (consHead c (splitRuns sep false r))
          with (prependHead [c] (splitRuns sep false r))
          by (destruct (splitRuns sep false r); [congruence | reflexivity]).
        apply IH.
Qed.

Lemma words_of_split sep s :
  filter truthy (splitRuns sep false s) = wordsOf sep s.
Proof.
  destruct (words_bridge sep s []) as [H _]. unfold wordsOf. rewrite <- H.
  pose proof (splitRuns_nonempty sep s false) as Hne.
  destruct (splitRuns sep false s); [congruence | reflexivity].
Qed.

Lemma words_app_sep sep a : forall cur c r,
  sep c = true ->
  wordsFrom sep cur (a ++ c :: r)
  = wordsFrom sep cur a ++ wordsFrom sep [] r.
Proof.
  induction a as [|d a IH]; intros cur c r Hc; simpl.
  - now rewrite Hc.
  - destruct (sep d); [|now apply IH].
    rewrite IH by assumption. now rewrite app_assoc.
Qed.

Lemma words_all_sep sep w : forall cur,
  Forall (fun c => sep c = true) w -> wordsFrom sep cur w = flush cur.
Proof.
  induction w as [|c w IH]; intros cur H; [reflexivity|].
  inversion H as [|? ? Hc Hw]; subst. simpl. rewrite Hc, IH by assumption.
  apply app_nil_r.
Qed.

Lemma words_trailing sep a : forall cur w,
  Forall (fun c => sep c = true) w ->
  wordsFrom sep cur (a ++ w) = wordsFrom sep cur a.
Proof.
  induction a as [|d a IH]; intros cur w Hw; simpl.
  - now apply words_all_sep.
  - destruct (sep d); [f_equal|]; now apply IH.
Qed.

Lemma words_leading sep w : forall s,
  Forall (fun c => sep c = true) w ->
  wordsFrom sep [] (w ++ s) = wordsFrom sep [] s.
Proof.
  induction w as [|c w IH]; intros s H; [reflexivity|].
  inversion H as [|? ? Hc Hw]; subst. simpl. rewrite Hc. now apply IH.
Qed.

Lemma trimStart_decomp s :
  exists w, allWhiteSpace w /\ s = w ++ trimStart s.
Proof.
  induction s as [|c s (w & Hw & E)]; [exists []; split; [constructor | reflexivity]|].
  simpl. destruct (isWhiteSpace c) eqn:Ec.
  - exists (c :: w). split; [now constructor | simpl; now f_equal].
  - exists []. split; [constructor | reflexivity].
Qed.

Lemma trim_decomp s :
  exists w1 w2, allWhiteSpace w1 /\ allWhiteSpace w2
    /\ s = w1 ++ trim s ++ w2.
Proof.
  destruct (trimStart_decomp s) as (w1 & Hw1 & E1).
  destruct (trimStart_decomp (rev (trimStart s))) as (w2 & Hw2 & E2).
  exists w1, (rev w2). split; [assumption|]. split; [now apply Forall_rev|].
  unfold trim, trimEnd. rewrite <- rev_app_distr, <- E2, rev_involutive.
  exact E1.
Qed.

(** Trimming does not change the words, when white space separates. *)
Lemma words_trim sep s :
  (forall c, isWhiteSpace c = true -> sep c = true) ->
  wordsOf sep (trim s) = wordsOf sep s.
Proof.
  intro Hsep. destruct (trim_decomp s) as (w1 & w2 & H1 & H2 & E).
  rewrite E at 2. unfold wordsOf.
  rewrite words_leading, words_trailing; [reflexivity | |];
    (eapply Forall_impl; [|eassumption]); exact Hsep.
Qed.

Lemma words_nested sepA sepB x : forall cur,
  (forall c, sepA c = true -> sepB c = true) ->
  flat_map (wordsOf sepB) (wordsFrom sepA cur x) = wordsOf sepB (cur ++ x).
Proof.
  intros cur Hsub. revert cur. induction x as [|c x IH]; intro cur.
  - simpl. rewrite app_nil_r. unfold flush.
    destruct cur; [reflexivity|]. simpl. apply app_nil_r.
  - simpl. destruct (sepA c) eqn:Ec.
    + rewrite flat_map_app, (IH []). unfold wordsOf at 3.
      rewrite words_app_sep by now apply Hsub. f_equal.
      unfold flush. destruct cur; [reflexivity|]. simpl. apply app_nil_r.
    + rewrite IH. now rewrite <- app_assoc.
Qed.

Lemma words_replaceRuns sep1 sep2 cls r s : forall b cur,
  sep2 r = true ->
  Forall (fun c => (cls c = true -> sep1 c = true)
                   /\ (cls c = false -> sep2 c = sep1 c)) s ->
  (b = true -> cur = []) ->
  wordsFrom sep2 cur (replaceRuns cls [r] b (codeUnits s))
  = wordsFrom sep1 cur s.
Proof.
  intros b cur Hr H. revert b cur.
  induction H as [|c s [Hc1 Hc2] Hs IH]; intros b cur Hb; [reflexivity|].
  simpl. destruct (cls c).
  - rewrite (Hc1 eq_refl). destruct b.
    + rewrite (Hb eq_refl). simpl. now apply IH.
    + simpl. rewrite Hr. f_equal. now apply IH.
  - simpl. rewrite (Hc2 eq_refl). destruct (sep1 c).
    + f_equal. apply IH. discriminate.
    + apply IH. discriminate.
Qed.

Lemma words_replaceEach sep1 sep2 cls r s : forall cur,
  sep2 r = true ->
  Forall (fun c => (cls c = true -> sep1 c = true)
                   /\ (cls c = false -> sep2 c = sep1 c)) s ->
  wordsFrom sep2 cur (replaceEach cls [r] (codeUnits s))
  = wordsFrom sep1 cur s.
Proof.
  intros cur Hr H. revert cur.
  induction H as [|c s [Hc1 Hc2] Hs IH]; intro cur; [reflexivity|].
  simpl. destruct (cls c).
  - rewrite (Hc1 eq_refl). simpl. rewrite Hr. f_equal. apply IH.
  - simpl. rewrite (Hc2 eq_refl). destruct (sep1 c); [f_equal|]; apply IH.
Qed.

Lemma words_ext sep1 sep2 s : forall cur,
  Forall (fun c => sep1 c = sep2 c) s ->
  wordsFrom sep1 cur s = wordsFrom sep2 cur s.
Proof.
  intros cur H. revert cur.
  induction H as [|c s Hc Hs IH]; intro cur; [reflexivity|].
  simpl. rewrite Hc. destruct (sep2 c); [f_equal|]; apply IH.
Qed.

(** Words are not empty and hold no separator. *)
Lemma words_chars sep s : forall cur,
  Forall (fun c => sep c = false) cur ->
  Forall (fun w => w <> [] /\ Forall (fun c => sep c = false) w)
    (wordsFrom sep cur s).
Proof.
  induction s as [|c s IH]; intros cur Hcur; simpl.
  - unfold flush. destruct cur; [constructor|].
    constructor; [split; [discriminate | assumption] | constructor].
  - destruct (sep c) eqn:Ec.
    + apply Forall_app. split; [|apply IH; constructor].
      unfold flush. destruct cur; [constructor|].
      constructor; [split; [discriminate | assumption] | constructor].
    + apply IH. apply Forall_app. split; [assumption|].
      now repeat constructor.
Qed.

(** ** [basic_prompt.js]: [convertToCamelCase] *)

Lemma join_nil_concat (l : list jsstring) : join [] l = concat l.
Proof.
  induction l as [|p l IH]; [reflexivity|]. destruct l as [|q l].
  - simpl. now rewrite app_nil_r.
  - rewrite join_cons by discriminate. rewrite IH. reflexivity.
Qed.

Lemma notLetter_letter c : notLetter c = false -> asciiLetter c = true.
Proof. unfold notLetter. now intros H%negb_false_iff. Qed.

Lemma letterRuns_lower s : Forall lowerWord (letterRuns s).
Proof.
  unfold letterRuns, wordsOf. apply Forall_map.
  eapply Forall_impl; [|apply (words_chars notLetter s (cur := [])); constructor].
  intros w [Hne Hw]. split.
  - destruct w; [congruence | discriminate].
  - apply Forall_map. eapply Forall_impl; [|exact Hw].
    intros c Hc. apply notLetter_letter in Hc.
    now apply asciiLetter_facts in Hc.
Qed.

Section ConvertWords.
Context {host : Host}.

Lemma toLowerCase_letterWords ws :
  Forall (fun w => w <> [] /\ Forall (fun c => notLetter c = false) w) ws ->
  map toLowerCase ws = map (map asciiLower) ws.
Proof.
  intro H. apply map_ext_Forall. eapply Forall_impl; [|exact H].
  intros w [_ Hw]. apply toLowerCase_ascii.
  eapply Forall_impl; [|exact Hw]. intros c Hc.
  apply notLetter_letter in Hc. now apply asciiLetter_facts in Hc.
Qed.

Lemma notAlnum_classes c :
  (notAlnum c = true -> notAlnum c = true)
  /\ (notAlnum c = false -> isWhiteSpace c = notAlnum c).
Proof.
  split; [trivial|]. intro H. rewrite H. unfold notAlnum in H.
  apply negb_false_iff in H. rewrite <- orb_assoc in H.
  apply orb_prop in H as [H | H].
  - assert (Hl : asciiLetter c = true)
      by (unfold asciiLetter; rewrite H; reflexivity).
    now apply asciiLetter_facts in Hl.
  - now apply alnum_not_space.
Qed.

(** The words [convertToCamelCase] reads from an input without digits
    are its runs of letters. *)
Lemma convert_words s :
  Forall (fun c => isDigit c = false) s ->
  map toLowerCase
    (filter truthy
       (splitWhiteSpace
          (trim (replaceDigitRuns
                   (fun match_ => Basic.numberToWords (digitsValue match_))
                   (replaceRuns notAlnum [SPACE] false (codeUnits s))))))
  = letterRuns s.
Proof.
  intro Hnd.
  assert (Hclean : Forall (fun c => isDigit c = false)
                     (replaceRuns notAlnum [SPACE] false (codeUnits s))).
  { apply Forall_replaceRuns_units; [repeat constructor | assumption]. }
  unfold replaceDigitRuns. rewrite (splitDigits_plain Hclean).
  cbn [map concat]. rewrite (digitsOnly_plain Hclean), app_nil_r.
  unfold splitWhiteSpace. rewrite words_of_split.
  rewrite words_trim by trivial. unfold wordsOf.
  rewrite (@words_replaceRuns notAlnum isWhiteSpace notAlnum SPACE s false []);
    [ | reflexivity
      | apply Forall_forall; intros c _; apply notAlnum_classes
      | discriminate ].
  rewrite (@words_ext notAlnum notLetter s []).
  - unfold letterRuns, wordsOf. apply toLowerCase_letterWords.
    apply words_chars. constructor.
  - eapply Forall_impl; [|exact Hnd]. intros c Hc.
    unfold notAlnum, notLetter, asciiLetter. now rewrite Hc, orb_false_r.
Qed.

End ConvertWords.

Lemma noDigits_ok s :
  forallb (fun c => negb (isDigit c)) s = true ->
  Forall (fun c => isDigit c = false) s.
Proof.
  intro H. apply Forall_forall. intros c Hc.
  rewrite forallb_forall in H. apply negb_true_iff. now apply H.
Qed.

Lemma convert_camel_of_runs (host : Host) (s : jsstring) :
  Forall (fun c => isDigit c = false) s ->
  convertToCamelCase (JSStr s) = camelJoin (letterRuns s).
Proof.
  intro Hnd. unfold convertToCamelCase.
  destruct s as [|a s]; [reflexivity|]. cbn [truthy isEmpty negb].
  rewrite (convert_words Hnd).
  pose proof (letterRuns_lower (a :: s)) as Hlow.
  destruct (letterRuns (a :: s)) as [|w ws]; [reflexivity|].
  cbn [length Nat.eqb hd tl camelJoin]. f_equal.
  rewrite join_nil_concat. f_equal.
  inversion Hlow as [|? ? _ Hws]; subst.
  apply map_ext_Forall. eapply Forall_impl; [|exact Hws].
  intros x [Hne Hx]. destruct Hx as [|c r Hc Hr]; [congruence|].
  unfold capitalize, charAt0, slice1, toUpperCase. cbn [tl forallb map].
  destruct (lower_char_facts c Hc) as (-> & _). reflexivity.
Qed.

(** X11: on an input without digits, [convertToCamelCase] returns the
    runs of ASCII letters of the input in lower case, the first as it
    is and the others capitalized, with nothing between them; every
    other character only separates. *)
Theorem convertToCamelCase_letter_runs (host : Host) (s : jsstring) :
  Forall (fun c => isDigit c = false) s ->
  convertToCamelCase (JSStr s) = camelJoin (letterRuns s).
Proof. apply convert_camel_of_runs. Qed.

Lemma convertToCamelCase_letter_runs_witness :
  @convertToCamelCase plainHost (JSStr (str "mobile-number!"))
  = str "mobileNumber".
Proof.
  apply (@convertToCamelCase_letter_runs plainHost (str "mobile-number!")).
  apply noDigits_ok. vm_compute. reflexivity.
Defined.

(** ** [toCamelCase] and [toDotCase]: the words are the runs of letters *)

Lemma flat_map_ext_Forall (A B : Type) (f g : A -> list B) l :
  Forall (fun a => f a = g a) l -> flat_map f l = flat_map g l.
Proof.
  induction 1 as [|a l Ha Hl IH]; [reflexivity|]. simpl. now rewrite Ha, IH.
Qed.

Lemma flat_map_map_out (A B C : Type) (f : B -> C) (g : A -> list B) l :
  flat_map (fun a => map f (g a)) l = map f (flat_map g l).
Proof. symmetry. apply map_flat_map. Qed.

Section LetterRuns.
Context {host : Host}.

Lemma plain_classes c : plainChar c ->
  (negb (isLetter c || isNumberChar c || isDot c || isWhiteSpace c) = true ->
     notLetter c = true)
  /\ (negb (isLetter c || isNumberChar c || isDot c || isWhiteSpace c) = false ->
      dotOrSpace c = notLetter c).
Proof.
  intros [Ha Hd]. unfold isNumberChar, notLetter, dotOrSpace.
  rewrite (isLetter_ascii _ Ha), Ha, Hd.
  destruct (asciiLetter c) eqn:El.
  - split; [discriminate|]. intros _.
    destruct (asciiLetter_facts c El) as (_ & -> & -> & _). reflexivity.
  - simpl. split; [reflexivity|]. intro H. now apply negb_false_iff in H.
Qed.

(** After cleaning, a plain input holds letters, dots and white space. *)
Lemma cleaned_plain x : forall b,
  Forall plainChar x ->
  Forall (fun c => asciiLetter c = true \/ dotOrSpace c = true)
    (replaceRuns
       (fun cp => negb (isLetter cp || isNumberChar cp || isDot cp
                        || isWhiteSpace cp))
       [SPACE] b (codeUnits x)).
Proof.
  intros b H. revert b. induction H as [|c x Hc Hx IH]; intro b; [constructor|].
  simpl. destruct (plain_classes Hc) as [H1 H2].
  destruct (negb (isLetter c || isNumberChar c || isDot c || isWhiteSpace c)).
  - apply Forall_app. split; [|apply IH].
    destruct b; [constructor | constructor; [now right | constructor]].
  - constructor; [|apply IH]. specialize (H2 eq_refl).
    unfold notLetter in H2. destruct (asciiLetter c); [now left | now right].
Qed.

Lemma words_of_letters pieces :
  Forall (Forall (fun c => asciiLetter c = true)) pieces ->
  fold_left
    (fun words p =>
       if negb (truthy p) then words
       else
         let onlyLetters := Dot.onlyLetters p in
         if truthy onlyLetters then words ++ [toLowerCase onlyLetters]
         else words)
    pieces []
  = map (map asciiLower) (filter truthy pieces).
Proof.
  intro H. rewrite fold_left_pushes.
  - simpl. induction H as [|p ps Hp Hps IH]; [reflexivity|].
    cbn [flat_map filter]. rewrite IH. destruct p as [|a p]; [reflexivity|].
    cbn [truthy isEmpty negb].
    assert (Ha : Forall (fun c => isAscii c = true) (a :: p)).
    { eapply Forall_impl; [|exact Hp]. intros c Hc.
      now apply asciiLetter_facts in Hc. }
    rewrite (onlyLetters_ascii Ha).
    assert (Hf : filter asciiLetter (a :: p) = a :: p).
    { apply forallb_filter_id. apply forallb_forall.
      now apply Forall_forall. }
    rewrite Hf. cbn [truthy isEmpty negb]. rewrite (toLowerCase_ascii Ha).
    reflexivity.
  - intros acc p. destruct (negb (truthy p)); [now rewrite app_nil_r|].
    cbv zeta. destruct (truthy (Dot.onlyLetters p)); now rewrite ?app_nil_r.
Qed.

(** The words of a token that is no acronym, when it holds letters and
    dots only. *)
Lemma dot_pushToken_words t :
  Forall plainChar t -> t <> [] ->
  Forall (fun c => asciiLetter c = true \/ isDot c = true) t ->
  Dot.acronymRegex t || Dot.dottedAcronymRegex t = false ->
  Dot.pushToken [] t = map (map asciiLower) (wordsOf dotOrSpace t).
Proof.
  intros Hp Hne Hchars Hacr.
  destruct (dot_pushToken_part Hp Hne Hacr) as [-> Hd].
  unfold Dot.pushPart. rewrite Hd.
  rewrite words_of_letters.
  - unfold splitWhiteSpace. rewrite words_of_split. f_equal.
    unfold dotsToSpaces, wordsOf. apply words_replaceEach; [reflexivity|].
    apply Forall_forall. intros c _. unfold dotOrSpace. split; intro H.
    + now rewrite H.
    + now rewrite H.
  - apply Forall_forall. intros p Hin.
    assert (H1 : Forall (fun c => asciiLetter c = true \/ isWhiteSpace c = true)
                   (dotsToSpaces t)).
    { unfold dotsToSpaces. clear -Hchars.
      induction Hchars as [|c t Hc Ht IH]; [constructor|]. simpl.
      destruct (isDot c) eqn:Ed; simpl; constructor; auto.
      destruct Hc as [Hc | Hc]; [now left | congruence]. }
    pose proof (Forall_splitRuns isWhiteSpace false H1) as H2.
    pose proof (splitRuns_no_sep isWhiteSpace (dotsToSpaces t) false) as H3.
    rewrite Forall_forall in H2, H3.
    specialize (H2 p Hin). specialize (H3 p Hin).
    rewrite Forall_forall in *. intros c Hc.
    destruct (H2 c Hc) as [Hl | Hw]; [exact Hl|].
    rewrite (H3 c Hc) in Hw. discriminate.
Qed.

(** The words of a plain input without acronyms are its runs of
    letters. *)
Lemma dot_collect_letterRuns s :
  Forall plainChar s ->
  Forall (fun t => Dot.acronymRegex t || Dot.dottedAcronymRegex t = false)
    (Dot.rawTokens (trim s)) ->
  Dot.collect (Dot.rawTokens (trim s)) = letterRuns s.
Proof.
  intros Hplain Hacr.
  assert (Hp : Forall plainChar (trim s)) by now apply Forall_trim.
  assert (Ha : Forall (fun c => isAscii c = true) (trim s)).
  { eapply Forall_impl; [|exact Hp]. now intros c [Hc _]. }
  assert (Hcl : Forall (fun c => asciiLetter c = true \/ dotOrSpace c = true)
                  (Dot.cleaned (trim s))).
  { unfold Dot.cleaned. rewrite (codePoints_ascii Ha). now apply cleaned_plain. }
  assert (Htp : Forall (Forall plainChar) (Dot.rawTokens (trim s))).
  { unfold Dot.rawTokens, Dot.cleaned. rewrite (codePoints_ascii Ha).
    apply Forall_filter, Forall_splitRuns, Forall_replaceRuns_units;
      [repeat constructor | assumption]. }
  assert (Htn : Forall (fun t => t <> []) (Dot.rawTokens (trim s)))
    by apply truthy_filter.
  assert (Htc : Forall (Forall (fun c => asciiLetter c = true \/ isDot c = true))
                  (Dot.rawTokens (trim s))).
  { unfold Dot.rawTokens. apply Forall_forall. intros t Ht.
    apply filter_In in Ht as [Ht _].
    pose proof (Forall_splitRuns isWhiteSpace false Hcl) as H1.
    pose proof (splitRuns_no_sep isWhiteSpace (Dot.cleaned (trim s)) false) as H2.
    rewrite Forall_forall in H1, H2.
    specialize (H1 t Ht). specialize (H2 t Ht).
    rewrite Forall_forall in *. intros c Hc.
    destruct (H1 c Hc) as [Hl | Hds]; [now left|]. right.
    unfold dotOrSpace in Hds. rewrite (H2 c Hc), orb_false_r in Hds.
    exact Hds. }
  rewrite dot_collect_flat_map.
  rewrite (flat_map_ext_Forall (Dot.pushToken [])
             (fun t => map (map asciiLower) (wordsOf dotOrSpace t))).
  - rewrite flat_map_map_out. unfold letterRuns. f_equal.
    unfold Dot.rawTokens, splitWhiteSpace. rewrite words_of_split.
    unfold wordsOf at 2. rewrite words_nested.
    + cbn [app]. unfold Dot.cleaned. rewrite (codePoints_ascii Ha).
      unfold wordsOf.
      rewrite (@words_replaceRuns notLetter dotOrSpace _ SPACE (trim s) false []);
        [ | reflexivity
          | eapply Forall_impl; [|exact Hp]; intros c Hc;
            exact (plain_classes Hc)
          | discriminate ].
      apply (words_trim notLetter s). intros c Hc.
      unfold notLetter. apply negb_true_iff. apply not_true_is_false.
      intro Hl. apply asciiLetter_facts in Hl.
      destruct Hl as (_ & _ & Hw & _). congruence.
    + intros c Hc. unfold dotOrSpace. rewrite Hc. apply orb_true_r.
  - rewrite Forall_forall in *. intros t Ht.
    apply dot_pushToken_words; auto.
Qed.

End LetterRuns.

Lemma dot_collect_has_letter (host : Host) s :
  Exists (fun c => asciiLetter c = true) s ->
  Dot.collect (Dot.rawTokens (trim s)) <> [].
Proof.
  intro H.
  assert (Hl : Exists (fun c => asciiLetter c = true) (trim s)).
  { apply Exists_trim; [|assumption].
    intros c Hc. now apply asciiLetter_facts in Hc. }
  pose proof (letter_in_some_token Hl) as Hex.
  apply Exists_exists in Hex as (t & Ht & Htl).
  rewrite dot_collect_flat_map.
  apply (flat_map_nonempty _ _ _ Ht). now apply dot_pushToken_has_letter.
Qed.

Lemma camel_of_letterRuns (host : Host) s :
  Forall plainChar s ->
  Forall (fun t =>
            Camel.acronymRegex t || Camel.dottedAcronymRegex t = false
            /\ Dot.acronymRegex t || Dot.dottedAcronymRegex t = false)
    (Camel.rawTokens (trim s)) ->
  Dot.collect (Dot.rawTokens (trim s)) = letterRuns s
  /\ Camel.collect (Camel.rawTokens (trim s)) = map wordUnit (letterRuns s)
  /\ (letterRuns s <> [] ->
      Dot.toDotCase (JSStr s) = join [DOT] (letterRuns s)
      /\ Camel.toCamelCase (JSStr s) = camelJoin (letterRuns s)).
Proof.
  intros Hplain Hacr.
  change (Camel.rawTokens (trim s)) with (Dot.rawTokens (trim s)) in *.
  assert (Hd : Dot.collect (Dot.rawTokens (trim s)) = letterRuns s).
  { apply dot_collect_letterRuns; [assumption|].
    eapply Forall_impl; [|exact Hacr]. now intros t [_ H]. }
  assert (Hc : Camel.collect (Dot.rawTokens (trim s))
               = map wordUnit (letterRuns s)).
  { rewrite (collect_agree Hacr). now rewrite Hd. }
  split; [exact Hd | split; [exact Hc|]]. intro Hne. split.
  - rewrite toDotCase_of_words; rewrite Hd; [reflexivity | assumption].
  - rewrite toCamelCase_of_units;
      change (Camel.rawTokens (trim s)) with (Dot.rawTokens (trim s));
      rewrite Hc.
    + apply render_words, letterRuns_lower.
    + destruct (letterRuns s); [congruence | discriminate].
Qed.

(** X12: for an input of ASCII characters without digits, none of whose
    tokens is taken for an acronym, the units of [toCamelCase] and of
    [toDotCase] are exactly the maximal runs of letters of the input, in
    lower case and in order; when there is one, [toDotCase] returns
    them joined by ["."] and [toCamelCase] returns the first as it is
    followed by the others capitalized. *)
Theorem units_are_letter_runs (host : Host) (s : jsstring) :
  Forall plainChar s ->
  Forall (fun t =>
            Camel.acronymRegex t || Camel.dottedAcronymRegex t = false
            /\ Dot.acronymRegex t || Dot.dottedAcronymRegex t = false)
    (Camel.rawTokens (trim s)) ->
  Dot.collect (Dot.rawTokens (trim s)) = letterRuns s
  /\ Camel.collect (Camel.rawTokens (trim s)) = map wordUnit (letterRuns s)
  /\ (letterRuns s <> [] ->
      Dot.toDotCase (JSStr s) = join [DOT] (letterRuns s)
      /\ Camel.toCamelCase (JSStr s) = camelJoin (letterRuns s)).
Proof. apply camel_of_letterRuns. Qed.

Lemma nonAcronyms_ok tokens :
  forallb (fun t =>
             negb (Camel.acronymRegex t || Camel.dottedAcronymRegex t)
             && negb (Dot.acronymRegex t || Dot.dottedAcronymRegex t))
    tokens = true ->
  Forall (fun t =>
            Camel.acronymRegex t || Camel.dottedAcronymRegex t = false
            /\ Dot.acronymRegex t || Dot.dottedAcronymRegex t = false)
    tokens.
Proof.
  intro H. apply Forall_forall. intros t Ht.
  rewrite forallb_forall in H. specialize (H t Ht).
  apply andb_prop in H as [H1 H2].
  split; now apply negb_true_iff.
Qed.

Lemma plainChars_ok s :
  forallb (fun c => isAscii c && negb (isDigit c)) s = true ->
  Forall plainChar s.
Proof.
  intro H. apply Forall_forall. intros c Hc.
  rewrite forallb_forall in H. specialize (H c Hc).
  apply andb_prop in H as [H1 H2]. split; [assumption|].
  now apply negb_true_iff.
Qed.

Lemma units_are_letter_runs_witness :
  @Dot.collect plainHost
    (@Dot.rawTokens plainHost (trim (str "  the Big-bang_theory, (again)!")))
  = letterRuns (str "  the Big-bang_theory, (again)!")
  /\ @Camel.toCamelCase plainHost (JSStr (str "  the Big-bang_theory, (again)!"))
  = str "theBigBangTheoryAgain".
Proof.
  destruct (@units_are_letter_runs plainHost
              (str "  the Big-bang_theory, (again)!")) as (H1 & _ & H3).
  - apply plainChars_ok. vm_compute. reflexivity.
  - apply nonAcronyms_ok. vm_compute. reflexivity.
  - split; [exact H1|]. apply H3. vm_compute. discriminate.
Defined.

(** X13: on an input of ASCII characters without digits, with at least
    one letter and no token taken for an acronym, [toCamelCase] of
    [refined_prompt.js] and [convertToCamelCase] of [basic_prompt.js]
    return the same string. *)
Theorem camelCase_siblings_agree (host : Host) (s : jsstring) :
  Forall plainChar s ->
  Exists (fun c => asciiLetter c = true) s ->
  Forall (fun t =>
            Camel.acronymRegex t || Camel.dottedAcronymRegex t = false
            /\ Dot.acronymRegex t || Dot.dottedAcronymRegex t = false)
    (Camel.rawTokens (trim s)) ->
  Camel.toCamelCase (JSStr s) = convertToCamelCase (JSStr s).
Proof.
  intros Hplain Hletter Hacr.
  destruct (@camel_of_letterRuns host s Hplain Hacr) as (Hd & _ & H).
  assert (Hne : letterRuns s <> []).
  { rewrite <- Hd. now apply dot_collect_has_letter. }
  destruct (H Hne) as [_ ->].
  symmetry. apply convert_camel_of_runs.
  eapply Forall_impl; [|exact Hplain]. now intros c [_ Hc].
Qed.

Lemma camelCase_siblings_agree_witness :
  @Camel.toCamelCase plainHost (JSStr (str "I like to play videogame"))
  = @convertToCamelCase plainHost (JSStr (str "I like to play videogame")).
Proof.
  apply (@camelCase_siblings_agree plainHost (str "I like to play videogame")).
  - apply plainChars_ok. vm_compute. reflexivity.
  - left. reflexivity.
  - apply nonAcronyms_ok. vm_compute. reflexivity.
Defined.


(** ** [basic_prompt.js]: the two [toCamelCase] *)

(** Splitting at the spaces that replaced the runs of separators is
    splitting at the runs. *)
Lemma splitOn_replaceRuns cls s :
  cls SPACE = true ->
  forall b,
    splitOn SPACE (replaceRuns cls [SPACE] b (codeUnits s))
    = splitRuns cls b s.
Proof.
  intro Hsp. induction s as [|c r IH]; intro b; [reflexivity|].
  cbn [codeUnits map replaceRuns splitRuns]. destruct (cls c) eqn:Ec.
  - destruct b; cbn [app splitOn].
    + apply IH.
    + rewrite N.eqb_refl. f_equal. apply IH.
  - cbn [app splitOn].
    assert (Hne : (c =? SPACE)%N = false).
    { apply N.eqb_neq. intro E. subst c. congruence. }
    rewrite Hne. f_equal. apply IH.
Qed.

(** [split(' ')] followed by a filter of the empty pieces gives the
    words between spaces. *)
Lemma words_splitOn d s : forall cur,
  filter truthy (prependHead cur (splitOn d s))
  = wordsFrom (fun c => (c =? d)%N) cur s.
Proof.
  induction s as [|c r IH]; intro cur.
  - simpl. rewrite app_nil_r. apply filter_truthy_one.
  - cbn [splitOn wordsFrom]. destruct (c =? d)%N.
    + cbn [prependHead]. rewrite app_nil_r.
      change (cur :: splitOn d r) with ([cur] ++ splitOn d r).
      rewrite filter_app, filter_truthy_one. f_equal.
      rewrite <- (IH []).
      pose proof (splitOn_nonempty d r) as Hne.
      destruct (splitOn d r); [congruence | reflexivity].
    + rewrite <- IH.
      pose proof (splitOn_nonempty d r) as Hne.
      destruct (splitOn d r); [congruence|]. simpl.
      now rewrite <- app_assoc.
Qed.

Section BasicCamelWords.
Context {host : Host}.

Lemma titleWord_nil : titleWord [] = [].
Proof. reflexivity. Qed.

Lemma pascalWords_filter pieces :
  pascalWords (filter truthy pieces) = pascalWords pieces.
Proof.
  unfold pascalWords.
  induction pieces as [|p ps IH]; [reflexivity|].
  destruct p as [|c p]; cbn [filter truthy isEmpty negb map concat].
  - rewrite titleWord_nil. exact IH.
  - now rewrite IH.
Qed.

Lemma fold_left_titles words : forall result,
  fold_left (fun result word => result ++ titleWord word) words result
  = result ++ pascalWords words.
Proof.
  unfold pascalWords.
  induction words as [|w ws IH]; intro result; simpl.
  - now rewrite app_nil_r.
  - now rewrite IH, app_assoc.
Qed.

Lemma mapIndexed_titles ws : forall i,
  mapIndexed
    (fun word index =>
       if Nat.eqb index 0 then toLowerCase word else titleWord word)
    (S i) ws
  = map titleWord ws.
Proof.
  induction ws as [|w ws IH]; intro i; [reflexivity|].
  cbn [mapIndexed map Nat.eqb]. now rewrite IH.
Qed.

Lemma basicReplace_words s :
  BasicReplace.toCamelCase s
  = if startsWith isSeparator s
    then pascalWords (wordsOf isSeparator s)
    else camelWords (wordsOf isSeparator s).
Proof.
  unfold BasicReplace.toCamelCase.
  destruct s as [|c r]; [reflexivity|].
  cbn [truthy isEmpty negb startsWith].
  rewrite splitOn_replaceRuns by reflexivity.
  rewrite fold_left_titles. unfold wordsOf.
  cbn [splitRuns wordsFrom app]. destruct (isSeparator c).
  - cbn [hd tl flush isEmpty app].
    destruct (words_bridge isSeparator r []) as [_ <-].
    now rewrite pascalWords_filter.
  - destruct (words_bridge isSeparator r [c]) as [<- _].
    pose proof (splitRuns_nonempty isSeparator r false) as Hne.
    destruct (splitRuns isSeparator false r) as [|p ps]; [congruence|].
    cbn [consHead prependHead hd tl app filter truthy isEmpty negb camelWords].
    now rewrite pascalWords_filter.
Qed.

Lemma basicSplit_words s :
  BasicSplit.toCamelCase s = camelWords (wordsOf isSpace s).
Proof.
  unfold BasicSplit.toCamelCase.
  replace (filter (fun word => Nat.ltb 0 (length word)) (splitOn SPACE s))
    with (wordsOf isSpace s).
  - destruct (wordsOf isSpace s) as [|w ws]; [reflexivity|].
    cbn [mapIndexed Nat.eqb camelWords]. rewrite mapIndexed_titles.
    rewrite join_nil_concat. reflexivity.
  - unfold wordsOf, isSpace. rewrite <- (words_splitOn SPACE s []).
    pose proof (splitOn_nonempty SPACE s) as Hne.
    destruct (splitOn SPACE s) as [|p ps]; [congruence|].
    cbn [prependHead app]. apply filter_ext. now intros [|a l].
Qed.

End BasicCamelWords.

(** X14: the second [toCamelCase] of [basic_prompt.js] returns the words
    of its input (the runs of characters other than hyphens, underscores
    and white space) without separator, the first in lower case and the
    later ones with the first character in upper case and the rest in
    lower case; unless the input starts with a separator, in which case
    the first word is capitalized like the others, so [" hello world"]
    gives ["HelloWorld"]. *)
Theorem basicReplace_toCamelCase_words (host : Host) (s : jsstring) :
  BasicReplace.toCamelCase s
  = (if startsWith isSeparator s
     then pascalWords (wordsOf isSeparator s)
     else camelWords (wordsOf isSeparator s))
  /\ BasicReplace.toCamelCase (str " hello world") = str "HelloWorld"
  /\ BasicReplace.toCamelCase (str "hello_world-TEST") = str "helloWorldTest".
Proof.
  split; [apply basicReplace_words|].
  split; vm_compute; reflexivity.
Qed.

(** X15: the first [toCamelCase] of [basic_prompt.js] returns the words
    between the spaces of its input, the first in lower case, the later
    ones capitalized, whether the input starts with a space or not; so
    the two [toCamelCase] of the file agree on every input that does not
    start with a space and has no hyphen, underscore or white space
    other than the space. *)
Theorem basic_toCamelCase_agree (host : Host) (s : jsstring) :
  BasicSplit.toCamelCase s = camelWords (wordsOf isSpace s)
  /\ (startsWith isSpace s = false ->
      Forall (fun c => isSeparator c = isSpace c) s ->
      BasicSplit.toCamelCase s = BasicReplace.toCamelCase s).
Proof.
  split; [apply basicSplit_words|]. intros Hstart Hsep.
  rewrite basicSplit_words, basicReplace_words.
  replace (startsWith isSeparator s) with false.
  - unfold wordsOf. f_equal. symmetry. now apply words_ext.
  - destruct Hsep as [|c r Hc _]; [reflexivity|].
    cbn [startsWith] in *. congruence.
Qed.

Lemma sameSeparators_ok s :
  forallb (fun c => Bool.eqb (isSeparator c) (isSpace c)) s = true ->
  Forall (fun c => isSeparator c = isSpace c) s.
Proof.
  intro H. apply Forall_forall. intros c Hc.
  rewrite forallb_forall in H. apply eqb_prop. now apply H.
Qed.

Lemma basic_toCamelCase_agree_witness :
  @BasicSplit.toCamelCase plainHost (str "you  will SHINE ")
  = @BasicReplace.toCamelCase plainHost (str "you  will SHINE ").
Proof.
  apply (proj2 (@basic_toCamelCase_agree plainHost (str "you  will SHINE "))).
  - reflexivity.
  - apply sameSeparators_ok. vm_compute. reflexivity.
Defined.


(** ** [toKebabCase]: the words between the hyphens *)

Lemma words_map (f : N -> N) sep1 sep0 t :
  (forall c, sep1 (f c) = sep0 c) ->
  forall cur,
    wordsFrom sep1 (map f cur) (map f t) = map (map f) (wordsFrom sep0 cur t).
Proof.
  intro H. induction t as [|c r IH]; intro cur.
  - destruct cur; reflexivity.
  - cbn [map wordsFrom]. rewrite H. destruct (sep0 c).
    + rewrite map_app. f_equal; [destruct cur; reflexivity | apply (IH [])].
    + rewrite <- IH, map_app. reflexivity.
Qed.

Lemma lowered_alnum c :
  negb (isLowerAZ (asciiLower c) || isDigit (asciiLower c)) = notAlnum c.
Proof.
  unfold notAlnum, asciiLower. destruct (isUpperAZ c) eqn:E.
  - unfold isUpperAZ in E. char_props E. cbn [orb negb].
    replace (isLowerAZ (c + 32)) with true; [reflexivity|].
    symmetry. unfold isLowerAZ. char_true.
  - reflexivity.
Qed.

Lemma kebab_classes c :
  (notKebabChar c = true -> negb (isLowerAZ c || isDigit c) = true)
  /\ (notKebabChar c = false ->
      isWhiteSpace c = negb (isLowerAZ c || isDigit c)).
Proof.
  unfold notKebabChar. destruct (isLowerAZ c || isDigit c) eqn:E.
  - split; [discriminate|]. intros _. cbn [negb].
    apply alnum_not_space. exact E.
  - cbn [orb]. split; [reflexivity|]. intro H.
    apply negb_false_iff in H. now rewrite H.
Qed.

Lemma hyphen_classes c :
  isLowerAZ c || isDigit c || isWhiteSpace c = true ->
  (isWhiteSpace c = true -> isWhiteSpace c = true)
  /\ (isWhiteSpace c = false -> isHyphen c = isWhiteSpace c).
Proof.
  intro H. split; [trivial|]. intro Hw. rewrite Hw in *.
  rewrite orb_false_r in H. unfold isHyphen, HYPHEN.
  apply N.eqb_neq. intro E. subst c. discriminate H.
Qed.

(** X16: on an input of ASCII characters, the words between the hyphens
    of the result of [toKebabCase] are the maximal runs of letters and
    digits of the input, in lower case and in order. *)
Theorem toKebabCase_words (host : Host) (s : jsstring) :
  Forall (fun c => isAscii c = true) s ->
  wordsOf isHyphen (toKebabCase (JSStr s))
  = map (map asciiLower) (wordsOf notAlnum s).
Proof.
  intro Hascii. unfold toKebabCase. rewrite jsstring_eqb_nil.
  destruct s as [|a s]; [reflexivity|]. cbn [isEmpty].
  remember (a :: s) as x eqn:Ex. clear Ex a s. unfold wordsOf.
  rewrite (@words_replaceRuns isWhiteSpace isHyphen isWhiteSpace HYPHEN
             _ false []);
    [ | reflexivity
      | eapply Forall_impl; [|apply normalized_chars];
        intros c Hc; now apply hyphen_classes
      | discriminate ].
  rewrite (@words_replaceEach
             (fun c => negb (isLowerAZ c || isDigit c)) isWhiteSpace
             notKebabChar SPACE _ []);
    [ | reflexivity
      | apply Forall_forall; intros c _; apply kebab_classes ].
  rewrite toLowerCase_ascii by now apply Forall_trim.
  rewrite (@words_map asciiLower _ notAlnum (trim x) lowered_alnum []).
  f_equal. apply words_trim. intros c Hc.
  destruct (notAlnum c) eqn:E; [reflexivity|].
  destruct (notAlnum_classes c) as [_ H]. specialize (H E). congruence.
Qed.

Lemma toKebabCase_words_witness :
  wordsOf isHyphen (@toKebabCase plainHost (JSStr (str "  Hello, World 42! ")))
  = [str "hello"; str "world"; str "42"].
Proof.
  rewrite (@toKebabCase_words plainHost (str "  Hello, World 42! ")).
  - reflexivity.
  - apply isAscii_ok. vm_compute. reflexivity.
Defined.

(** ** [numberToWords]: numbers with a fractional part *)




